(** * Flow engine: a shallow embedding of [FlowEngine] and its properties

    The development follows [src/shared/lib] of the workflow repository:
    the constants of [constants.ts], the error classes of [errors.ts], the
    flow and webhook types, and the [FlowEngine] class (validation,
    node dispatch, condition evaluation, action dispatch, sub-flow calls,
    interpolation of placeholders).  It also covers the two string
    conversions of the case converter and the methods of [WebhookService]
    that call the engine.

    Conventions of the embedding.
    - A JavaScript string is a [string] of bytes (UTF-8).  Equality, prefix,
      substring search and splitting on an ASCII character agree with the
      UTF-16 operations of the source on well-formed text.
    - A JavaScript number is a value of an abstract type [Num]
      (class [Runtime]): the engine only converts, prints and compares
      numbers, and every theorem holds for any implementation of them.
    - A payload is JSON: its objects and arrays have the prototypes
      [Object.prototype] and [Array.prototype], and their own properties
      are never functions.  Reading a key that an object does not have
      gives what its prototype has under this key; the function properties
      of the two prototypes are the tables of the class [Runtime].
      [String(v)] and [Number(v)] throw a [TypeError] on an object that has
      an own property [toString].
    - The mutable [ExecutionContext] object is threaded as explicit state,
      together with the state of the outside world (HTTP endpoints, the flow
      repository, the execution-log repository), class [Collaborators].
    - [throw]/[try]/[catch] are modelled by the [Thrown] outcome of the
      monad [M]; the writes made before a throw are kept, as in JavaScript.
    - Flows, events and contexts have the shape of their TypeScript types
      ([nodes] and [edges] are arrays, every node has a [data] object); the
      fields that the engine tests for presence are optional.
    - Calls to [logger] write to the console only and are left out.
    - [Promise.all] over the branches of a Condition node is modelled with
      the branches run one after the other (see [promise_all]); the
      properties below are about which nodes are executed and which errors
      are recorded, and none of them is about the order among the branches. *)

From Stdlib Require Import String Ascii List Bool Arith Lia PeanoNat DecimalString.
Import ListNotations.
Open Scope string_scope.

Set Implicit Arguments.
Set Warnings "-register-all".

(* ================================================================== *)
(** ** JavaScript string operations used by the engine *)

Module Js.

(** The double-quote character, as a one-character string. *)
Definition dq : string := String (ascii_of_nat 34) EmptyString.

Definition bytes (l : list nat) : string :=
  fold_right (fun n acc => String (ascii_of_nat n) acc) EmptyString l.

(** [String(n)] for a natural number such as [array.length]. *)
Definition nat_to_string (n : nat) : string :=
  NilEmpty.string_of_uint (Nat.to_uint n).

(** [s.startsWith(p)] *)
Definition startsWith (s p : string) : bool := String.prefix p s.

(** [s.substring(n)] *)
Fixpoint substring_from (n : nat) (s : string) : string :=
  match n, s with
  | 0, _ => s
  | S k, EmptyString => EmptyString
  | S k, String _ r => substring_from k r
  end.

(** [s.includes(sub)] *)
Fixpoint includes (s sub : string) : bool :=
  if String.prefix sub s then true
  else match s with
       | EmptyString => false
       | String _ r => includes r sub
       end.

(** [s.split(c)] for a one-character separator. *)
Fixpoint split (c : ascii) (s : string) : list string :=
  match s with
  | EmptyString => [EmptyString]
  | String a r =>
      if Ascii.eqb a c then EmptyString :: split c r
      else match split c r with
           | h :: t => String a h :: t
           | [] => [String a EmptyString]
           end
  end.

(** [l.join(sep)] *)
Definition join (sep : string) (l : list string) : string :=
  String.concat sep l.

Definition rev_string (s : string) : string :=
  string_of_list_ascii (rev (list_ascii_of_string s)).

(** The code points that [trim] removes (WhiteSpace and LineTerminator of
    ECMAScript), in their UTF-8 encoding. *)
Definition whitespace : list string :=
  map bytes
    ([ [9]; [10]; [11]; [12]; [13]; [32];
       [194; 160]; [225; 154; 128] ]
     ++ map (fun k => [226; 128; 128 + k]) (seq 0 11)
     ++ [ [226; 128; 168]; [226; 128; 169]; [226; 128; 175];
          [226; 129; 159]; [227; 128; 128]; [239; 187; 191] ]).

Definition strip_one (pats : list string) (s : string) : option string :=
  match find (fun p => String.prefix p s) pats with
  | Some p => Some (substring_from (String.length p) s)
  | None => None
  end.

Fixpoint strip_all (n : nat) (pats : list string) (s : string) : string :=
  match n with
  | 0 => s
  | S k => match strip_one pats s with
           | Some r => strip_all k pats r
           | None => s
           end
  end.

Definition trimStart (s : string) : string :=
  strip_all (String.length s) whitespace s.

Definition trimEnd (s : string) : string :=
  rev_string
    (strip_all (String.length s) (map rev_string whitespace) (rev_string s)).

(** [s.trim()] *)
Definition trim (s : string) : string := trimEnd (trimStart s).

Definition is_empty (s : string) : bool :=
  match s with EmptyString => true | _ => false end.

(** Truthiness of an optional string: [undefined] and the empty string are
    falsy. *)
Definition truthy (o : option string) : bool :=
  match o with
  | Some s => negb (is_empty s)
  | None => false
  end.

(** [`${o}`] for an optional string. *)
Definition show (o : option string) : string :=
  match o with Some s => s | None => "undefined" end.

(** [a === b] on optional strings. *)
Definition opt_eqb (a b : option string) : bool :=
  match a, b with
  | Some x, Some y => String.eqb x y
  | None, None => true
  | _, _ => false
  end.

End Js.

(* ================================================================== *)
(** ** constants.ts *)

Module CONDITION_HANDLES.
Definition YES : string := "yes".
Definition NO : string := "no".
End CONDITION_HANDLES.

Module NODE_TYPES.
Definition TRIGGER : string := "trigger".
Definition CONDITION : string := "condition".
Definition ACTION : string := "action".
Definition END : string := "end".
End NODE_TYPES.

Module ACTION_TYPES.
Definition LOG : string := "LOG".
Definition HTTP_REQUEST : string := "HTTP_REQUEST".
Definition SEND_EMAIL : string := "SEND_EMAIL".
Definition CALL_FLOW : string := "CALL_FLOW".
End ACTION_TYPES.

Module CONDITION_OPERATORS.
Definition EQUALS : string := "EQUALS".
Definition NOT_EQUALS : string := "NOT_EQUALS".
Definition CONTAINS : string := "CONTAINS".
Definition GREATER_THAN : string := "GREATER_THAN".
Definition LESS_THAN : string := "LESS_THAN".
End CONDITION_OPERATORS.

Definition MAX_FLOW_DEPTH : nat := 5.
Definition DATA_PREFIX : string := "data.".
Definition HTTP_TIMEOUT : nat := 30 * 1000.

(* ================================================================== *)
(** ** The JavaScript runtime: numbers and prototypes *)

(** The operations on JavaScript numbers that the engine performs, and the
    function properties of [Object.prototype] and of [Array.prototype]
    (such as [constructor], [toString], [hasOwnProperty], [push]): each
    table gives the name of a property and the text that [String] gives for
    the function.  Which names there are depends on the version of the
    runtime. *)
Class Runtime := {
  Num : Type;
  (** [String(n)] *)
  num_to_string : Num -> string;
  (** [Number(s)] for a string; the result may be NaN *)
  string_to_number : string -> Num;
  (** [Number(b)] for a boolean: 1 and 0 *)
  num_of_bool : bool -> Num;
  (** the number [n] for a length *)
  num_of_nat : nat -> Num;
  (** [NaN], which is [Number(undefined)] *)
  num_NaN : Num;
  (** [isNaN(n)] *)
  isNaN : Num -> bool;
  (** [a > b] and [a < b] on numbers *)
  num_gt : Num -> Num -> bool;
  num_lt : Num -> Num -> bool;
  (** the functions of [Object.prototype] and of [Array.prototype] *)
  object_prototype : list (string * string);
  array_prototype : list (string * string)
}.

(* ================================================================== *)
(** ** errors.ts: what a [throw] can carry *)

Inductive exn : Type :=
| ValidationError (message : string) (field : string)
| Error (name : string) (message : string)
| Raised (shown : string).
(** [Error name message] is an [Error] that is not a [ValidationError];
    [Raised shown] is a thrown value that is not an [Error] (the repositories
    rethrow the error objects of the database client), with [shown] its
    [String(error)]. *)

(** [error instanceof Error ? error.message : String(error)] *)
Definition error_text (error : exn) : string :=
  match error with
  | ValidationError message _ => message
  | Error _ message => message
  | Raised shown => shown
  end.

(** [error instanceof ValidationError] *)
Definition is_ValidationError (error : exn) : bool :=
  match error with
  | ValidationError _ _ => true
  | _ => false
  end.

(** [error instanceof Error && error.name === 'AbortError'] *)
Definition is_AbortError (error : exn) : bool :=
  match error with
  | Error name _ => String.eqb name "AbortError"
  | _ => false
  end.

(** The [TypeError] of a conversion to a primitive value that finds neither
    a [toString] nor a [valueOf] that it can call. *)
Definition not_primitive : exn :=
  Error "TypeError" "Cannot convert object to primitive value".

(** A call that returns or throws, followed by what is done with its
    result. *)
Definition and_then {A B} (r : exn + A) (k : A -> exn + B) : exn + B :=
  match r with
  | inl error => inl error
  | inr a => k a
  end.

(* ================================================================== *)
(** ** Payload values and the path resolver *)

Section Values.
Context `{Runtime}.

(** The two prototypes of the objects of a payload. *)
Inductive prototype : Type :=
| ObjectPrototype
| ArrayPrototype.

(** A value that the engine finds in a webhook payload or through it
    ([unknown] in the source).  The first seven are the values of a payload;
    [VFun text] is a function of a prototype, with [text] what [String]
    gives for it, and [VProto p] is the prototype object itself: the
    resolver comes to them through the keys that an object inherits. *)
Inductive value : Type :=
| VUndefined
| VNull
| VBool (b : bool)
| VNum (n : Num)
| VStr (s : string)
| VArr (items : list value)
| VObj (fields : list (string * value))
| VFun (text : string)
| VProto (p : prototype).

(** [Record<string, unknown>]: the own properties of an object.  The first
    binding of a key is the one that counts. *)
Definition record : Type := list (string * value).

(** The own property [key] of an object, when it has one. *)
Fixpoint own (fields : record) (key : string) : option value :=
  match fields with
  | [] => None
  | (k, v) :: rest => if String.eqb k key then Some v else own rest key
  end.

(** [{...a, ...b}]: the properties of [b] win. *)
Definition spread (a b : record) : record := (b ++ a)%list.

(** The element of an array at an index written in decimal, when the array
    has it. *)
Fixpoint index_from (i : nat) (items : list value) (key : string) : option value :=
  match items with
  | [] => None
  | v :: rest =>
      if String.eqb (Js.nat_to_string i) key then Some v
      else index_from (S i) rest key
  end.

(** The function that a table has under [key]. *)
Fixpoint method (table : list (string * string)) (key : string) : option value :=
  match table with
  | [] => None
  | (name, text) :: rest =>
      if String.eqb name key then Some (VFun text) else method rest key
  end.

(** [Object.prototype[key]] and [Array.prototype[key]] for a key other than
    [__proto__]: the functions of the prototype, the [length] of
    [Array.prototype] (which is an empty array), and for [Array.prototype]
    what it inherits from [Object.prototype]. *)
Definition object_member (key : string) : value :=
  match method object_prototype key with
  | Some f => f
  | None => VUndefined
  end.

Definition array_member (key : string) : value :=
  if String.eqb key "length" then VNum (num_of_nat 0)
  else match method array_prototype key with
       | Some f => f
       | None => object_member key
       end.

(** [(current as Record<string, unknown>)[key]] for a [current] whose
    [typeof] is ['object']: the own property when there is one, and
    otherwise what the prototype chain has.  [__proto__] is the accessor of
    [Object.prototype], which gives the prototype of the object that is
    read. *)
Definition get (current : value) (key : string) : value :=
  match current with
  | VObj fields =>
      match own fields key with
      | Some v => v
      | None =>
          if String.eqb key "__proto__" then VProto ObjectPrototype
          else object_member key
      end
  | VArr items =>
      if String.eqb key "length" then VNum (num_of_nat (List.length items))
      else match index_from 0 items key with
           | Some v => v
           | None =>
               if String.eqb key "__proto__" then VProto ArrayPrototype
               else array_member key
           end
  | VProto ObjectPrototype =>
      if String.eqb key "__proto__" then VNull else object_member key
  | VProto ArrayPrototype =>
      if String.eqb key "__proto__" then VProto ObjectPrototype
      else array_member key
  | _ => VUndefined
  end.

(** [String(v)].  An array is joined with commas, [undefined] and [null]
    elements giving the empty string.  An object that has an own property
    [toString] cannot be converted: the property of a payload is not a
    function, and the [valueOf] that is tried next gives no primitive
    value. *)
Fixpoint to_String (v : value) : exn + string :=
  match v with
  | VUndefined => inr "undefined"
  | VNull => inr "null"
  | VBool true => inr "true"
  | VBool false => inr "false"
  | VNum n => inr (num_to_string n)
  | VStr s => inr s
  | VArr items =>
      and_then
        ((fix elements (items : list value) : exn + list string :=
            match items with
            | [] => inr []
            | x :: rest =>
                and_then
                  (match x with
                   | VUndefined | VNull => inr EmptyString
                   | _ => to_String x
                   end)
                  (fun text =>
                     and_then (elements rest) (fun texts => inr (text :: texts)))
            end) items)
        (fun texts => inr (Js.join "," texts))
  | VObj fields =>
      match own fields "toString" with
      | Some _ => inl not_primitive
      | None => inr "[object Object]"
      end
  | VFun text => inr text
  | VProto ObjectPrototype => inr "[object Object]"
  | VProto ArrayPrototype => inr EmptyString
  end.

(** [Number(v)]; an object, an array and a function are converted to a
    string first. *)
Definition to_Number (v : value) : exn + Num :=
  match v with
  | VUndefined => inr num_NaN
  | VNull => inr (num_of_bool false)
  | VBool b => inr (num_of_bool b)
  | VNum n => inr n
  | VStr s => inr (string_to_number s)
  | VArr _ | VObj _ | VFun _ | VProto _ =>
      and_then (to_String v) (fun text => inr (string_to_number text))
  end.

(** The loop of [getNestedValue]: it goes on through the values whose
    [typeof] is ['object']. *)
Fixpoint walk (current : value) (keys : list string) : value :=
  match keys with
  | [] => current
  | key :: rest =>
      match current with
      | VUndefined | VNull => VUndefined
      | VArr _ | VObj _ | VProto _ => walk (get current key) rest
      | _ => VUndefined
      end
  end.

(** [getNestedValue(obj, path)].  [obj] is an object, so [!obj] is false;
    nothing in the [try] block throws: reading a property of a payload
    value calls no code of the payload. *)
Definition getNestedValue (obj : record) (path : string) : value :=
  if Js.is_empty path then VUndefined
  else walk (VObj obj) (Js.split "." path).

(** The literal of a condition: [string | number]. *)
Inductive literal : Type :=
| LStr (s : string)
| LNum (n : Num).

Definition literal_value (l : option literal) : value :=
  match l with
  | Some (LStr s) => VStr s
  | Some (LNum n) => VNum n
  | None => VUndefined
  end.

(** [ConditionNodeData], the fields read by the engine. *)
Record ConditionNodeData : Type := {
  cond_field : option string;
  cond_operator : option string;
  cond_value : option literal
}.

(** [!condition.field || condition.field.trim() === ''] *)
Definition field_blank (field : option string) : bool :=
  match field with
  | Some f => Js.is_empty f || Js.is_empty (Js.trim f)
  | None => true
  end.

(** The path that [evaluateCondition] resolves: the trimmed field without
    its leading [data.]. *)
Definition fieldPath_of (field : string) : string :=
  let fieldPath := Js.trim field in
  if Js.startsWith fieldPath DATA_PREFIX
  then Js.substring_from (String.length DATA_PREFIX) fieldPath
  else fieldPath.

Definition is_nullish (v : value) : bool :=
  match v with
  | VUndefined | VNull => true
  | _ => false
  end.

(** The [switch] of [evaluateCondition]; the two conversions of a case are
    made from left to right. *)
Definition apply_operator (operator : option string)
           (fieldValue conditionValue : value) : exn + bool :=
  if Js.opt_eqb operator (Some CONDITION_OPERATORS.EQUALS) then
    and_then (to_String fieldValue) (fun a =>
    and_then (to_String conditionValue) (fun b =>
    inr (String.eqb a b)))
  else if Js.opt_eqb operator (Some CONDITION_OPERATORS.NOT_EQUALS) then
    and_then (to_String fieldValue) (fun a =>
    and_then (to_String conditionValue) (fun b =>
    inr (negb (String.eqb a b))))
  else if Js.opt_eqb operator (Some CONDITION_OPERATORS.CONTAINS) then
    and_then (to_String fieldValue) (fun a =>
    and_then (to_String conditionValue) (fun b =>
    inr (Js.includes a b)))
  else if Js.opt_eqb operator (Some CONDITION_OPERATORS.GREATER_THAN) then
    and_then (to_Number fieldValue) (fun numValue =>
    and_then (to_Number conditionValue) (fun numCondition =>
    inr (negb (isNaN numValue) && negb (isNaN numCondition)
         && num_gt numValue numCondition)))
  else if Js.opt_eqb operator (Some CONDITION_OPERATORS.LESS_THAN) then
    and_then (to_Number fieldValue) (fun numValue =>
    and_then (to_Number conditionValue) (fun numCondition =>
    inr (negb (isNaN numValue) && negb (isNaN numCondition)
         && num_lt numValue numCondition)))
  else inr false.

(** [evaluateCondition(condition, data)]: it returns a boolean, or throws
    what a conversion throws. *)
Definition evaluateCondition (condition : ConditionNodeData)
           (data : record) : exn + bool :=
  match cond_field condition with
  | None => inr false
  | Some field =>
      if field_blank (Some field) then inr false
      else
        let fieldPath := fieldPath_of field in
        let fieldValue := getNestedValue data fieldPath in
        let conditionValue := literal_value (cond_value condition) in
        if is_nullish fieldValue then inr false
        else apply_operator (cond_operator condition) fieldValue conditionValue
  end.

End Values.

(* ================================================================== *)
(** ** The data model: flows, webhook events, contexts, results *)

Section DataModel.
Context `{Runtime}.

(** The configuration object of an action; each field is optional at run
    time, whatever the action type. *)
Record ActionConfig : Type := {
  cfg_message : option string;
  cfg_url : option string;
  cfg_method : option string;
  cfg_headers : option (list (string * string));
  cfg_body : option record;
  cfg_email : option string;
  cfg_flowId : option string;
  cfg_data : option record
}.

(** [FlowNodeData]: one object, read through casts to [TriggerNodeData],
    [ConditionNodeData] or [ActionNodeData]. *)
Record FlowNodeData : Type := {
  data_event : option string;
  data_field : option string;
  data_operator : option string;
  data_value : option literal;
  data_type : option string;
  data_config : option ActionConfig
}.

(** [node.data as ConditionNodeData] *)
Definition as_ConditionNodeData (data : FlowNodeData) : ConditionNodeData :=
  {| cond_field := data_field data;
     cond_operator := data_operator data;
     cond_value := data_value data |}.

Record Node : Type := {
  node_id : string;
  node_type : option string;
  node_data : FlowNodeData
}.

Record Edge : Type := {
  edge_id : string;
  edge_source : string;
  edge_target : string;
  edge_sourceHandle : option string
}.

Record Flow : Type := {
  flow_id : string;
  flow_name : string;
  flow_active : bool;
  flow_nodes : list Node;
  flow_edges : list Edge
}.

(** [WebhookEvent]; the fields that the engine never reads ([version],
    [occurredAt], [processed], [createdAt]) are left out. *)
Record WebhookEvent : Type := {
  wh_id : string;
  wh_event : string;
  wh_data : record
}.

(** [ExecutionContext].  [ctx_executedNodes] is the [Set<string>] in
    insertion order. *)
Record ExecutionContext : Type := {
  ctx_webhookData : WebhookEvent;
  ctx_executedNodes : list string;
  ctx_errors : list string;
  ctx_flowCallStack : list string;
  ctx_depth : nat
}.

Record FlowExecutionResult : Type := {
  success : bool;
  executedNodes : list string;
  errors : list string
}.

(** [set.has(x)] and [set.add(x)] on a [Set<string>]. *)
Definition set_has (set : list string) (x : string) : bool :=
  existsb (String.eqb x) set.

Definition set_add (set : list string) (x : string) : list string :=
  if set_has set x then set else (set ++ [x])%list.

(** What [fetch] gives: a response (status and, when it can be read, the
    text of the body) or a rejection. *)
Inductive fetch_result : Type :=
| Response (status : nat) (text : option string)
| Rejected (error : exn).

(** [response.ok] *)
Definition response_ok (status : nat) : bool :=
  Nat.leb 200 status && Nat.leb status 299.

(** The outside world of the engine.  Every call takes the current state of
    the world and gives the next one, so that the same request may be
    answered differently each time.
    - [fetch config body]: the HTTP call of an [HTTP_REQUEST] action; the
      URL, the method and the headers of the request are those of [config],
      and [body] is the text that the engine has computed ([undefined] when
      no body is configured).  A call cancelled by the timeout is rejected
      with an [AbortError].
    - [findById]: [flowRepository.findById], which returns a flow or [null],
      or throws.
    - [createLog flowId webhookEventId]: [flowExecutionLogRepository.create],
      which returns the id of the new record or throws.
    - [updateLog]: [flowExecutionLogRepository.update], which may throw.
    [stringify] is [JSON.stringify] on the body object of a configuration:
    a function of the runtime, which does not read the world and gives a
    text for every such object. *)
Class Collaborators : Type := {
  World : Type;
  stringify : record -> string;
  fetch : ActionConfig -> option string -> World -> fetch_result * World;
  findById : string -> World -> (exn + option Flow) * World;
  createLog : string -> string -> World -> (exn + string) * World;
  updateLog : string -> FlowExecutionResult -> World -> option exn * World
}.

End DataModel.

(* ================================================================== *)
(** ** FlowEngine: interpolateVariables *)

Module VariablePattern.

(** The longest prefix of [s] without a closing brace, and what follows:
    what the group [([^}]+)] of the pattern takes. *)
Fixpoint take_until_brace (s : string) : string * string :=
  match s with
  | EmptyString => (EmptyString, EmptyString)
  | String c r =>
      if Ascii.eqb c "}" then (EmptyString, s)
      else let (run, rest) := take_until_brace r in (String c run, rest)
  end.

(** A match of [VARIABLE_PATTERN] (two opening braces, one or more
    characters that are not a closing brace, two closing braces) at the
    start of [s]: the text of the group and the length of the match.  The
    group cannot give back characters, since none of them is a closing
    brace. *)
Definition match_at (s : string) : option (string * nat) :=
  if String.prefix "{{" s then
    let (run, rest) := take_until_brace (Js.substring_from 2 s) in
    if negb (Js.is_empty run) && String.prefix "}}" rest
    then Some (run, 2 + String.length run + 2)
    else None
  else None.

(** [s.replace(VARIABLE_PATTERN, replacer)]: the matches are taken from
    left to right and do not overlap; [skip] counts the characters of [s]
    that belong to the match before.  The replacer is called on the matches
    in this order, and what it throws ends the call. *)
Fixpoint replace (replacer : string -> string -> exn + string) (skip : nat)
         (s : string) : exn + string :=
  match s with
  | EmptyString => inr EmptyString
  | String c r =>
      match skip with
      | S k => replace replacer k r
      | 0 =>
          match match_at s with
          | Some (path, len) =>
              and_then (replacer ("{{" ++ path ++ "}}") path) (fun text =>
              and_then (replace replacer (len - 1) r) (fun rest =>
              inr (text ++ rest)))
          | None =>
              and_then (replace replacer 0 r) (fun rest => inr (String c rest))
          end
      end
  end.

(** The groups of the matches of [VARIABLE_PATTERN] in [s], from left to
    right: the paths of its placeholders. *)
Fixpoint paths (skip : nat) (s : string) : list string :=
  match s with
  | EmptyString => []
  | String c r =>
      match skip with
      | S k => paths k r
      | 0 =>
          match match_at s with
          | Some (path, len) => path :: paths (len - 1) r
          | None => paths 0 r
          end
      end
  end.

End VariablePattern.

Section Interpolation.
Context {runtime : Runtime}.

(** The function that [interpolateVariables] gives to [replace]. *)
Definition variable_value (data : record) (found path : string) : exn + string :=
  let trimmedPath := Js.trim path in
  let value := getNestedValue data trimmedPath in
  if is_nullish value then inr found else to_String value.

(** [interpolateVariables(template, data)]; an empty template is returned
    as it is. *)
Definition interpolateVariables (template : string) (data : record)
  : exn + string :=
  if Js.is_empty template then inr template
  else VariablePattern.replace (variable_value data) 0 template.

End Interpolation.

(* ================================================================== *)
(** ** The monad of the engine: state, exceptions, fuel *)

(** How a call ends: it returns, it throws, or the model ran out of fuel.
    [OutOfFuel] is no behaviour of the program; no handler catches it, and
    the theorems below show that it never comes out of [executeFlow]. *)
Inductive outcome (A : Type) : Type :=
| Returned (a : A)
| Thrown (error : exn)
| OutOfFuel.
Arguments Thrown {A} error.
Arguments OutOfFuel {A}.

Section Engine.
Context {runtime : Runtime} {collaborators : Collaborators}.

(** The state that a run of one flow reads and writes: the world and the
    [context] object of this invocation. *)
Record state : Type := {
  world : World;
  context : ExecutionContext
}.

Definition M (A : Type) : Type := state -> outcome A * state.

Definition ret {A} (a : A) : M A := fun s => (Returned a, s).

Definition bind {A B} (m : M A) (k : A -> M B) : M B :=
  fun s =>
    match m s with
    | (Returned a, s') => k a s'
    | (Thrown error, s') => (Thrown error, s')
    | (OutOfFuel, s') => (OutOfFuel, s')
    end.

Notation "x <- m ;; k" := (bind m (fun x => k))
  (at level 61, m at next level, right associativity).
Notation "m ;; k" := (bind m (fun _ => k))
  (at level 61, right associativity).

Definition throw {A} (error : exn) : M A := fun s => (Thrown error, s).

Definition out_of_fuel {A} : M A := fun s => (OutOfFuel, s).

(** [try { m } catch (error) { handler error }] *)
Definition try_catch {A} (m : M A) (handler : exn -> M A) : M A :=
  fun s =>
    match m s with
    | (Thrown error, s') => handler error s'
    | other => other
    end.

Definition get_context : M ExecutionContext := fun s => (Returned (context s), s).

(** [context.errors.push(...msgs)] *)
Definition push_errors (msgs : list string) : M unit :=
  fun s =>
    let c := context s in
    (Returned tt,
     {| world := world s;
        context := {| ctx_webhookData := ctx_webhookData c;
                      ctx_executedNodes := ctx_executedNodes c;
                      ctx_errors := (ctx_errors c ++ msgs)%list;
                      ctx_flowCallStack := ctx_flowCallStack c;
                      ctx_depth := ctx_depth c |} |}).

Definition push_error (errorMsg : string) : M unit := push_errors [errorMsg].

(** [context.executedNodes.add(nodeId)] *)
Definition add_executed (nodeId : string) : M unit :=
  fun s =>
    let c := context s in
    (Returned tt,
     {| world := world s;
        context := {| ctx_webhookData := ctx_webhookData c;
                      ctx_executedNodes := set_add (ctx_executedNodes c) nodeId;
                      ctx_errors := ctx_errors c;
                      ctx_flowCallStack := ctx_flowCallStack c;
                      ctx_depth := ctx_depth c |} |}).

(** An awaited call to a collaborator that cannot throw. *)
Definition ask {A} (call : World -> A * World) : M A :=
  fun s =>
    let (a, w) := call (world s) in
    (Returned a, {| world := w; context := context s |}).

(** A call that touches neither the context nor the world, and returns or
    throws. *)
Definition of_sum {A} (r : exn + A) : M A :=
  match r with
  | inl error => throw error
  | inr a => ret a
  end.

(** An awaited call to a collaborator that returns or throws. *)
Definition ask_or_throw {A} (call : World -> (exn + A) * World) : M A :=
  fun s =>
    let (r, w) := call (world s) in
    let s' := {| world := w; context := context s |} in
    match r with
    | inl error => (Thrown error, s')
    | inr a => (Returned a, s')
    end.

(** [for (const x of xs) { await body(x) }] *)
Fixpoint for_each {X} (xs : list X) (body : X -> M unit) : M unit :=
  match xs with
  | [] => ret tt
  | x :: rest => body x ;; for_each rest body
  end.

(** [await Promise.all(branches)], the branches being the promises of async
    closures that [map] has started in list order.  Every branch runs to its
    end whatever happens to the others, and the whole rejects when a branch
    has.  In JavaScript a branch runs until its first [await] and the next
    branch starts then, so that the branches are interleaved at their
    [await]s; the test and the update of [executedNodes] at the start of
    [executeNode] have no [await] between them.  The model does not
    interleave: each branch runs to its end before the next one starts.
    With more than one branch, the order in which the nodes come into
    [executedNodes] and the messages into [errors] is therefore the order
    of the model and may differ from the one of a run; the properties that
    are proved of a fan-out are about membership only. *)
Fixpoint promise_all (branches : list (M unit)) : M unit :=
  match branches with
  | [] => ret tt
  | branch :: rest =>
      fun s =>
        match branch s with
        | (OutOfFuel, s1) => (OutOfFuel, s1)
        | (first, s1) =>
            match promise_all rest s1 with
            | (OutOfFuel, s2) => (OutOfFuel, s2)
            | (others, s2) =>
                (match first with
                 | Thrown error => Thrown error
                 | _ => others
                 end, s2)
            end
        end
  end.

(* ================================================================== *)
(** ** FlowEngine: pure helpers *)

(** [formatResult(context)] *)
Definition formatResult (context : ExecutionContext) : FlowExecutionResult :=
  {| success := Nat.eqb (List.length (ctx_errors context)) 0;
     executedNodes := ctx_executedNodes context;
     errors := ctx_errors context |}.

(** [getNextNodes(nodeId, flow)] *)
Definition getNextNodes (nodeId : string) (flow : Flow) : list string :=
  let edges :=
    filter (fun edge => String.eqb (edge_source edge) nodeId) (flow_edges flow) in
  filter (fun target => negb (Js.is_empty target)) (map edge_target edges).

Definition has_type (type : string) (n : Node) : bool :=
  Js.opt_eqb (node_type n) (Some type).

(** The body of the loop of [validateFlow] over the condition nodes: the
    issues of one condition node. *)
Definition condition_issues (flow : Flow) (conditionNode : Node) : list string :=
  let conditionEdges :=
    filter (fun e => String.eqb (edge_source e) (node_id conditionNode))
           (flow_edges flow) in
  let edgesWithoutHandle :=
    filter (fun e => negb (Js.truthy (edge_sourceHandle e))) conditionEdges in
  if Nat.ltb 0 (List.length edgesWithoutHandle) then
    [ "Condition node " ++ node_id conditionNode ++ " tem "
      ++ Js.nat_to_string (List.length edgesWithoutHandle)
      ++ " edge(s) sem sourceHandle. "
      ++ "Todas as edges de condition nodes devem ter sourceHandle 'yes' ou 'no'" ]
  else [].

(** [validateFlow(flow)] *)
Definition validateFlow (flow : Flow) : list string :=
  if Nat.eqb (List.length (flow_nodes flow)) 0 then [ "Flow não possui nós" ]
  else
    let triggerNodes := filter (has_type NODE_TYPES.TRIGGER) (flow_nodes flow) in
    let errors1 :=
      if Nat.eqb (List.length triggerNodes) 0
      then [ "Flow deve ter pelo menos um nó Trigger" ]
      else if Nat.ltb 1 (List.length triggerNodes)
           then [ "Flow não deve ter mais de um nó Trigger" ]
           else [] in
    let conditionNodes := filter (has_type NODE_TYPES.CONDITION) (flow_nodes flow) in
    (errors1 ++ flat_map (condition_issues flow) conditionNodes)%list.

(** [flow.nodes.find((n) => n.id === nodeId)] *)
Definition find_node (flow : Flow) (nodeId : string) : option Node :=
  find (fun n => String.eqb (node_id n) nodeId) (flow_nodes flow).

(* ================================================================== *)
(** ** FlowEngine: the action dispatcher *)

(** [executeLogAction]: it only writes to the console. *)
Definition executeLogAction (actionData : FlowNodeData) (nodeId : string) : M unit :=
  ret tt.

(** The body of the request of an HTTP_REQUEST action: when the
    configuration has a body, its JSON text with the placeholders replaced
    from the payload. *)
Definition request_body (config : ActionConfig) (data : record)
  : exn + option string :=
  match cfg_body config with
  | Some body =>
      and_then (interpolateVariables (stringify body) data)
               (fun text => inr (Some text))
  | None => inr None
  end.

(** [executeHttpRequestAction(actionData, nodeId, context)].  The body is
    computed before the [try] block around [fetch]: what the interpolation
    throws leaves the function as it is, and no request is made. *)
Definition executeHttpRequestAction (actionData : FlowNodeData)
           (nodeId : string) : M unit :=
  match data_config actionData with
  | None =>
      throw (ValidationError
               ("Nó de ação " ++ nodeId ++ ": URL não configurada para HTTP_REQUEST")
               "url")
  | Some config =>
      if negb (Js.truthy (cfg_url config)) then
        throw (ValidationError
                 ("Nó de ação " ++ nodeId ++ ": URL não configurada para HTTP_REQUEST")
                 "url")
      else
        context <- get_context ;;
        body <- of_sum (request_body config (wh_data (ctx_webhookData context))) ;;
        try_catch
          (response <- ask (fetch config body) ;;
           match response with
           | Rejected error => throw error
           | Response status text =>
               if negb (response_ok status) then
                 let errorText :=
                   match text with
                   | Some t => t
                   | None => "Erro desconhecido"
                   end in
                 throw (Error "Error"
                          ("HTTP " ++ Js.nat_to_string status ++ ": " ++ errorText))
               else ret tt
           end)
          (fun error =>
             if is_AbortError error then
               throw (Error "Error"
                        ("Timeout ao executar HTTP_REQUEST ("
                         ++ Js.nat_to_string HTTP_TIMEOUT ++ "ms)"))
             else throw error)
  end.

(** [executeEmailAction(actionData, nodeId)] *)
Definition executeEmailAction (actionData : FlowNodeData) (nodeId : string) : M unit :=
  let email :=
    match data_config actionData with
    | Some config => cfg_email config
    | None => None
    end in
  if negb (Js.truthy email) then
    throw (ValidationError
             ("Nó de ação " ++ nodeId ++ ": Email não configurado para SEND_EMAIL")
             "email")
  else ret tt.

(** The type of [executeFlow], as [executeCallFlowAction] calls it: the
    target flow, the event and the context of the caller; it runs on the
    world and leaves the context of the caller alone. *)
Definition flow_runner : Type :=
  Flow -> WebhookEvent -> option ExecutionContext ->
  World -> outcome FlowExecutionResult * World.

(** [await this.executeFlow(targetFlow, syntheticWebhookEvent, context)] *)
Definition call_executeFlow (executeFlow : flow_runner) (targetFlow : Flow)
           (webhookEvent : WebhookEvent) : M FlowExecutionResult :=
  fun s =>
    let (r, w) := executeFlow targetFlow webhookEvent (Some (context s)) (world s) in
    (r, {| world := w; context := context s |}).

(** [config?.flowId] *)
Definition config_flowId (actionData : FlowNodeData) : option string :=
  match data_config actionData with
  | Some config => cfg_flowId config
  | None => None
  end.

(** The [try] block of [executeCallFlowAction]. *)
Definition callFlow_try (executeFlow : flow_runner) (nodeId flowId : string)
           (extraData : option record) : M unit :=
  targetFlow <- ask_or_throw (findById flowId) ;;
  match targetFlow with
  | None =>
      throw (ValidationError
               ("Nó de ação " ++ nodeId ++ ": Flow " ++ flowId ++ " não encontrado")
               "flowId")
  | Some targetFlow =>
      if negb (flow_active targetFlow) then ret tt
      else
        context <- get_context ;;
        let mergedData :=
          spread (wh_data (ctx_webhookData context))
                 (match extraData with Some d => d | None => [] end) in
        let syntheticWebhookEvent :=
          {| wh_id := wh_id (ctx_webhookData context);
             wh_event := wh_event (ctx_webhookData context);
             wh_data := mergedData |} in
        callFlowLogId <-
          try_catch
            (id <- ask_or_throw
                     (createLog (flow_id targetFlow)
                                (wh_id (ctx_webhookData context))) ;;
             ret (Some id))
            (fun logError => ret None) ;;
        result <- call_executeFlow executeFlow targetFlow syntheticWebhookEvent ;;
        (if Js.truthy callFlowLogId then
           match callFlowLogId with
           | Some id =>
               try_catch
                 (r <- ask (updateLog id result) ;;
                  match r with
                  | Some updateError => throw updateError
                  | None => ret tt
                  end)
                 (fun updateError => ret tt)
           | None => ret tt
           end
         else ret tt)
  end.

(** [executeCallFlowAction(actionData, nodeId, context)] *)
Definition executeCallFlowAction (executeFlow : flow_runner)
           (actionData : FlowNodeData) (nodeId : string) : M unit :=
  match config_flowId actionData with
  | Some flowId =>
      if negb (Js.truthy (Some flowId)) then
        throw (ValidationError
                 ("Nó de ação " ++ nodeId ++ ": FlowId não configurado para CALL_FLOW")
                 "flowId")
      else
        let extraData :=
          match data_config actionData with
          | Some config => cfg_data config
          | None => None
          end in
        try_catch
          (callFlow_try executeFlow nodeId flowId extraData)
          (fun error =>
             if is_ValidationError error then throw error
             else
               throw (Error "Error"
                        ("Erro ao chamar flow " ++ flowId ++ ": " ++ error_text error)))
  | None =>
      throw (ValidationError
               ("Nó de ação " ++ nodeId ++ ": FlowId não configurado para CALL_FLOW")
               "flowId")
  end.

(** The [switch (actionData.type)] of [executeAction]. *)
Definition dispatch_action (executeFlow : flow_runner)
           (actionData : FlowNodeData) (nodeId : string) : M unit :=
  let type := data_type actionData in
  if Js.opt_eqb type (Some ACTION_TYPES.LOG) then
    executeLogAction actionData nodeId
  else if Js.opt_eqb type (Some ACTION_TYPES.HTTP_REQUEST) then
    executeHttpRequestAction actionData nodeId
  else if Js.opt_eqb type (Some ACTION_TYPES.SEND_EMAIL) then
    executeEmailAction actionData nodeId
  else if Js.opt_eqb type (Some ACTION_TYPES.CALL_FLOW) then
    executeCallFlowAction executeFlow actionData nodeId
  else
    push_error ("Nó de ação " ++ nodeId ++ ": Tipo de ação desconhecido: "
                ++ Js.show type).

(** [executeAction(node, flow, context)]; [executeNode] is the function that
    it calls for the next nodes. *)
Definition executeAction (executeFlow : flow_runner)
           (executeNode : string -> M unit) (node : Node) (flow : Flow) : M unit :=
  let actionData := node_data node in
  if negb (Js.truthy (data_type actionData)) then
    push_error ("Nó de ação " ++ node_id node
                ++ ": Dados da ação inválidos ou não configurados") ;;
    for_each (getNextNodes (node_id node) flow) executeNode
  else
    try_catch
      (dispatch_action executeFlow actionData (node_id node))
      (fun error =>
         push_error ("Erro inesperado ao executar ação " ++ node_id node ++ ": "
                     ++ error_text error)) ;;
    for_each (getNextNodes (node_id node) flow) executeNode.

(* ================================================================== *)
(** ** FlowEngine: node dispatch *)

(** [executeTrigger(node, flow, context)] *)
Definition executeTrigger (executeNode : string -> M unit)
           (node : Node) (flow : Flow) : M unit :=
  let nextNodes := getNextNodes (node_id node) flow in
  if Nat.eqb (List.length nextNodes) 0 then ret tt
  else for_each nextNodes executeNode.

(** [conditionMet ? CONDITION_HANDLES.YES : CONDITION_HANDLES.NO] *)
Definition expectedHandle (conditionMet : bool) : string :=
  if conditionMet then CONDITION_HANDLES.YES else CONDITION_HANDLES.NO.

(** The edges that [executeCondition] follows: those that leave the node
    and carry exactly the expected handle. *)
Definition targetEdges (node : Node) (flow : Flow) (conditionMet : bool) : list Edge :=
  let edges :=
    filter (fun edge => String.eqb (edge_source edge) (node_id node))
           (flow_edges flow) in
  filter (fun edge =>
            Js.opt_eqb (edge_sourceHandle edge) (Some (expectedHandle conditionMet)))
         edges.

(** The async closure that [executeCondition] maps over the target edges. *)
Definition condition_branch (executeNode : string -> M unit)
           (node : Node) (flow : Flow) (targetEdge : Edge) : M unit :=
  match find_node flow (edge_target targetEdge) with
  | Some targetNode =>
      if Js.truthy (node_type targetNode) then executeNode (edge_target targetEdge)
      else
        push_error ("Nó de condição " ++ node_id node ++ ": Nó de destino "
                    ++ edge_target targetEdge ++ " não encontrado no flow")
  | None =>
      push_error ("Nó de condição " ++ node_id node ++ ": Nó de destino "
                  ++ edge_target targetEdge ++ " não encontrado no flow")
  end.

(** [executeCondition(node, flow, context)]; what [evaluateCondition] throws
    leaves it as it is. *)
Definition executeCondition (executeNode : string -> M unit)
           (node : Node) (flow : Flow) : M unit :=
  let conditionData := as_ConditionNodeData (node_data node) in
  if field_blank (cond_field conditionData) then
    push_error ("Nó de condição " ++ node_id node
                ++ ": Campo do payload não configurado. Configure o campo no editor do nó.")
  else
    context <- get_context ;;
    conditionMet <-
      of_sum (evaluateCondition conditionData (wh_data (ctx_webhookData context))) ;;
    let targetEdges := targetEdges node flow conditionMet in
    if Nat.eqb (List.length targetEdges) 0 then ret tt
    else promise_all (map (condition_branch executeNode node flow) targetEdges).

(** The [switch (node.type)] of [executeNode]. *)
Definition dispatch_node (executeFlow : flow_runner)
           (executeNode : string -> M unit) (nodeId : string)
           (node : Node) (flow : Flow) : M unit :=
  if has_type NODE_TYPES.TRIGGER node then executeTrigger executeNode node flow
  else if has_type NODE_TYPES.CONDITION node then executeCondition executeNode node flow
  else if has_type NODE_TYPES.ACTION node then
         executeAction executeFlow executeNode node flow
  else if has_type NODE_TYPES.END node then ret tt
  else
    push_error ("Tipo de nó desconhecido: " ++ Js.show (node_type node)
                ++ " no nó " ++ nodeId).

(** The [catch] block of [executeNode]. *)
Definition node_catch (executeNode : string -> M unit) (nodeId : string)
           (node : Node) (flow : Flow) (error : exn) : M unit :=
  push_error ("Erro ao executar nó " ++ nodeId ++ ": " ++ error_text error) ;;
  if has_type NODE_TYPES.CONDITION node then ret tt
  else if negb (has_type NODE_TYPES.ACTION node)
          && negb (has_type NODE_TYPES.CONDITION node)
       then for_each (getNextNodes nodeId flow) executeNode
       else ret tt.

(** [executeNode(nodeId, flow, context)].  The recursion of the source is
    bounded by the number of nodes that are not yet in
    [context.executedNodes]; [fuel] bounds its depth in the model. *)
Fixpoint executeNode (executeFlow : flow_runner) (fuel : nat)
         (flow : Flow) (nodeId : string) : M unit :=
  match fuel with
  | 0 => out_of_fuel
  | S fuel' =>
      context <- get_context ;;
      if set_has (ctx_executedNodes context) nodeId then ret tt
      else
        match find_node flow nodeId with
        | None => push_error ("Nó " ++ nodeId ++ " não encontrado no flow")
        | Some node =>
            add_executed nodeId ;;
            try_catch
              (dispatch_node executeFlow (executeNode executeFlow fuel' flow)
                             nodeId node flow)
              (node_catch (executeNode executeFlow fuel' flow) nodeId node flow)
        end
  end.

(** Fuel for a traversal that starts with no node executed. *)
Definition node_fuel (flow : Flow) : nat := S (List.length (flow_nodes flow)).

(* ================================================================== *)
(** ** FlowEngine: executeFlow *)

(** The context that [executeFlow] builds on entry. *)
Definition new_context (flow : Flow) (webhookEvent : WebhookEvent)
           (parentContext : option ExecutionContext) : ExecutionContext :=
  match parentContext with
  | Some parent =>
      {| ctx_webhookData := webhookEvent;
         ctx_executedNodes := [];
         ctx_errors := [];
         ctx_flowCallStack := (ctx_flowCallStack parent ++ [flow_id flow])%list;
         ctx_depth := ctx_depth parent + 1 |}
  | None =>
      {| ctx_webhookData := webhookEvent;
         ctx_executedNodes := [];
         ctx_errors := [];
         ctx_flowCallStack := [flow_id flow];
         ctx_depth := 0 |}
  end.

Definition depth_message (context : ExecutionContext) : string :=
  "Limite de profundidade de chamadas atingido ("
  ++ Js.nat_to_string MAX_FLOW_DEPTH ++ "). Stack: "
  ++ Js.join " → " (ctx_flowCallStack context).

Definition loop_message (flow : Flow) (context : ExecutionContext) : string :=
  "Loop detectado: Flow " ++ flow_id flow
  ++ " já foi chamado nesta cadeia. Stack: "
  ++ Js.join " → " (ctx_flowCallStack context).

Definition event_message (triggerEvent : option string) (received : string) : string :=
  "Evento não corresponde: esperado " ++ Js.dq ++ Js.show triggerEvent ++ Js.dq
  ++ ", recebido " ++ Js.dq ++ received ++ Js.dq.

(** [return this.formatResult(context)] *)
Definition return_result : M FlowExecutionResult :=
  context <- get_context ;; ret (formatResult context).

(** The body of [executeFlow], once [context] is built. *)
Definition executeFlow_body (executeFlow : flow_runner)
           (flow : Flow) (webhookEvent : WebhookEvent) : M FlowExecutionResult :=
  context <- get_context ;;
  if Nat.leb MAX_FLOW_DEPTH (ctx_depth context) then
    push_error (depth_message context) ;; return_result
  else
    let flowCallCount :=
      List.length (filter (fun id => String.eqb id (flow_id flow))
                          (ctx_flowCallStack context)) in
    if Nat.ltb 1 flowCallCount then
      push_error (loop_message flow context) ;; return_result
    else
      let validationErrors := validateFlow flow in
      if Nat.ltb 0 (List.length validationErrors) then
        push_errors validationErrors ;; return_result
      else
        match find (has_type NODE_TYPES.TRIGGER) (flow_nodes flow) with
        | None =>
            push_error "Flow deve começar com um nó Trigger" ;; return_result
        | Some triggerNode =>
            let triggerData := node_data triggerNode in
            if Nat.eqb (ctx_depth context) 0
               && negb (Js.opt_eqb (data_event triggerData)
                                   (Some (wh_event webhookEvent)))
            then
              push_error (event_message (data_event triggerData)
                                        (wh_event webhookEvent)) ;;
              return_result
            else
              try_catch
                (executeNode executeFlow (node_fuel flow) flow (node_id triggerNode))
                (fun error =>
                   push_error ("Erro fatal ao executar flow: " ++ error_text error)) ;;
              return_result
        end.

(** [executeFlow] with a bound [gas] on the depth of the sub-flow calls that
    the model follows. *)
Fixpoint executeFlow_gas (gas : nat) (flow : Flow) (webhookEvent : WebhookEvent)
         (parentContext : option ExecutionContext) (w : World)
  : outcome FlowExecutionResult * World :=
  match gas with
  | 0 => (OutOfFuel, w)
  | S gas' =>
      let (r, s) :=
        executeFlow_body (executeFlow_gas gas') flow webhookEvent
          {| world := w; context := new_context flow webhookEvent parentContext |} in
      (r, world s)
  end.

(** [executeFlow(flow, webhookEvent, parentContext?)].  A call chain stops
    at depth [MAX_FLOW_DEPTH], so [MAX_FLOW_DEPTH + 1] nested calls are all
    that a run can make. *)
Definition executeFlow : flow_runner := executeFlow_gas (S MAX_FLOW_DEPTH).

End Engine.

(* ================================================================== *)
(** ** case-converter: toSnakeCase and toCamelCase *)

Module CaseConverter.

(** The classes [[A-Z]] and [[a-z]] of the two patterns. *)
Definition is_upper (c : ascii) : bool :=
  Nat.leb 65 (nat_of_ascii c) && Nat.leb (nat_of_ascii c) 90.

Definition is_lower (c : ascii) : bool :=
  Nat.leb 97 (nat_of_ascii c) && Nat.leb (nat_of_ascii c) 122.

(** [letter.toLowerCase()] and [letter.toUpperCase()] on a letter of these
    classes. *)
Definition toLowerCase (c : ascii) : ascii :=
  if is_upper c then ascii_of_nat (nat_of_ascii c + 32) else c.

Definition toUpperCase (c : ascii) : ascii :=
  if is_lower c then ascii_of_nat (nat_of_ascii c - 32) else c.

(** [toSnakeCase(str)]: every capital letter becomes an underscore and the
    small letter. *)
Fixpoint toSnakeCase (str : string) : string :=
  match str with
  | EmptyString => EmptyString
  | String c r =>
      if is_upper c then String "_" (String (toLowerCase c) (toSnakeCase r))
      else String c (toSnakeCase r)
  end.

(** [toCamelCase(str)]: every underscore followed by a small letter becomes
    the capital letter. *)
Fixpoint toCamelCase (str : string) : string :=
  match str with
  | EmptyString => EmptyString
  | String c r =>
      if Ascii.eqb c "_" then
        match r with
        | String l r' =>
            if is_lower l then String (toUpperCase l) (toCamelCase r')
            else String c (toCamelCase r)
        | EmptyString => String c EmptyString
        end
      else String c (toCamelCase r)
  end.

(** [str] has an underscore followed by a small letter; [str] has a capital
    letter. *)
Fixpoint has_snake_pair (str : string) : bool :=
  match str with
  | EmptyString => false
  | String c r =>
      match r with
      | String l _ => (Ascii.eqb c "_" && is_lower l) || has_snake_pair r
      | EmptyString => false
      end
  end.

Fixpoint has_upper (str : string) : bool :=
  match str with
  | EmptyString => false
  | String c r => is_upper c || has_upper r
  end.

End CaseConverter.

(* ================================================================== *)
(** ** WebhookService: the caller of the engine *)

Section Service.
Context {runtime : Runtime} {collaborators : Collaborators}.

(** What the service asks of the repositories, beside the two calls to the
    execution-log repository that the engine makes too.
    - [findActive]: [flowRepository.findActive], the active flows, or it
      throws.
    - [markAsProcessed id]: [webhookRepository.markAsProcessed], which may
      throw.
    - [failLog logId error]: [flowExecutionLogRepository.update] with the
      status [error] and the message [error], which may throw. *)
Class ServiceCollaborators : Type := {
  findActive : World -> (exn + list Flow) * World;
  markAsProcessed : string -> World -> option exn * World;
  failLog : string -> string -> World -> option exn * World
}.

Context {service : ServiceCollaborators}.

(** A method of the service: it runs on the world, and returns or throws. *)
Definition IO (A : Type) : Type := World -> outcome A * World.

Definition io_ret {A} (a : A) : IO A := fun w => (Returned a, w).

Definition io_bind {A B} (m : IO A) (k : A -> IO B) : IO B :=
  fun w =>
    match m w with
    | (Returned a, w') => k a w'
    | (Thrown error, w') => (Thrown error, w')
    | (OutOfFuel, w') => (OutOfFuel, w')
    end.

Definition io_throw {A} (error : exn) : IO A := fun w => (Thrown error, w).

Definition io_try {A} (m : IO A) (handler : exn -> IO A) : IO A :=
  fun w =>
    match m w with
    | (Thrown error, w') => handler error w'
    | other => other
    end.

(** A call that returns or throws, and one that returns nothing or
    throws. *)
Definition io_call {A} (call : World -> (exn + A) * World) : IO A :=
  fun w =>
    match call w with
    | (inl error, w') => (Thrown error, w')
    | (inr a, w') => (Returned a, w')
    end.

Definition io_do (call : World -> option exn * World) : IO unit :=
  fun w =>
    match call w with
    | (Some error, w') => (Thrown error, w')
    | (None, w') => (Returned tt, w')
    end.

Fixpoint io_for_each {X} (xs : list X) (body : X -> IO unit) : IO unit :=
  match xs with
  | [] => io_ret tt
  | x :: rest => io_bind (body x) (fun _ => io_for_each rest body)
  end.

(** The filter of [processWebhookFlows]: the first Trigger node of the flow
    is configured with the event of the webhook. *)
Definition listens_to (webhookEvent : WebhookEvent) (flow : Flow) : bool :=
  match find (has_type NODE_TYPES.TRIGGER) (flow_nodes flow) with
  | None => false
  | Some triggerNode =>
      Js.opt_eqb (data_event (node_data triggerNode)) (Some (wh_event webhookEvent))
  end.

(** [executeFlowForWebhook(flow, webhookEvent)].  [logId] is set once the
    log record is created; the [catch] block updates the record only then. *)
Definition executeFlowForWebhook (flow : Flow) (webhookEvent : WebhookEvent)
  : IO unit :=
  io_try
    (io_bind (io_call (createLog (flow_id flow) (wh_id webhookEvent)))
       (fun logId =>
          io_try
            (io_bind (executeFlow flow webhookEvent None)
               (fun result => io_do (updateLog logId result)))
            (fun error =>
               if Js.truthy (Some logId) then
                 io_try (io_do (failLog logId (error_text error)))
                        (fun updateError => io_ret tt)
               else io_ret tt)))
    (fun error => io_ret tt).

(** [processWebhookFlows(webhookEvent)]; its [catch] block throws the error
    again. *)
Definition processWebhookFlows (webhookEvent : WebhookEvent) : IO unit :=
  io_try
    (io_bind (io_call findActive)
       (fun flows =>
          let relevantFlows := filter (listens_to webhookEvent) flows in
          io_bind
            (io_for_each relevantFlows
               (fun flow => executeFlowForWebhook flow webhookEvent))
            (fun _ => io_do (markAsProcessed (wh_id webhookEvent)))))
    (fun error => io_throw error).

End Service.

(* ================================================================== *)
(** ** Vocabulary of the specification *)

Section Vocabulary.
Context {runtime : Runtime} {collaborators : Collaborators}.

(** The measure of a traversal: the nodes of the flow not yet executed. *)
Definition unvisited (flow : Flow) (s : state) : nat :=
  List.length
    (filter (fun n => negb (set_has (ctx_executedNodes (context s)) (node_id n)))
            (flow_nodes flow)).

(** [extends s s']: from [s] to [s'] the context kept its event, call stack
    and depth, and its executed nodes and its errors only grew at the end. *)
Record extends (s s' : state) : Prop := {
  ext_webhookData :
    ctx_webhookData (context s') = ctx_webhookData (context s);
  ext_flowCallStack :
    ctx_flowCallStack (context s') = ctx_flowCallStack (context s);
  ext_depth : ctx_depth (context s') = ctx_depth (context s);
  ext_executedNodes :
    exists more,
      ctx_executedNodes (context s') = (ctx_executedNodes (context s) ++ more)%list;
  ext_errors :
    exists more, ctx_errors (context s') = (ctx_errors (context s) ++ more)%list;
  ext_NoDup :
    NoDup (ctx_executedNodes (context s)) -> NoDup (ctx_executedNodes (context s'))
}.

(** A flow runner that the model never cuts short when the caller is at
    depth [d]. *)
Definition runner_ok (d : nat) (executeFlow : flow_runner) : Prop :=
  forall flow webhookEvent parent w,
    ctx_depth parent = d ->
    fst (executeFlow flow webhookEvent (Some parent) w) <> OutOfFuel.

(** A computation that returns, and only extends the context, from every
    state at depth [d] with fewer than [k] nodes left to execute. *)
Definition body_ok (flow : Flow) (d k : nat) (m : M unit) : Prop :=
  forall s,
    ctx_depth (context s) = d -> unvisited flow s < k ->
    exists s', m s = (Returned tt, s') /\ extends s s'.

(** A computation that returns or throws, and only extends the context,
    from every such state. *)
Definition attempt_ok (flow : Flow) (d k : nat) (m : M unit) : Prop :=
  forall s,
    ctx_depth (context s) = d -> unvisited flow s < k ->
    exists r s', m s = (r, s') /\ r <> OutOfFuel /\ extends s s'.

(** The same for a node dispatcher, which moreover leaves the node executed
    when the flow has it. *)
Definition node_ok (flow : Flow) (d k : nat) (self : string -> M unit) : Prop :=
  forall nodeId s,
    ctx_depth (context s) = d -> unvisited flow s < k ->
    exists s',
      self nodeId s = (Returned tt, s') /\ extends s s'
      /\ (find_node flow nodeId <> None ->
          In nodeId (ctx_executedNodes (context s'))).

(** A computation that leaves the context as it is (it may change the
    world), and that the model never cuts short at depth [d]. *)
Definition quiet (d : nat) {A} (m : M A) : Prop :=
  forall s,
    ctx_depth (context s) = d ->
    exists r w,
      m s = (r, {| world := w; context := context s |}) /\ r <> OutOfFuel.

(** The state after [context.errors.push(msg)] and after
    [context.executedNodes.add(nodeId)]. *)
Definition record_error (msg : string) (s : state) : state :=
  snd (push_error msg s).

Definition mark_executed (nodeId : string) (s : state) : state :=
  snd (add_executed nodeId s).

(** The number of times that [id] occurs in a call stack. *)
Definition occurrences (id : string) (stack : list string) : nat :=
  List.length (filter (fun x => String.eqb x id) stack).

(** What [executeFlow] returns when a guard stops it with [msgs]. *)
Definition stopped (msgs : list string) : FlowExecutionResult :=
  {| success := Nat.eqb (List.length msgs) 0; executedNodes := []; errors := msgs |}.

(** [m'] does what [m] does wherever the model did not cut [m] short: the
    relation between a computation and the same one with more fuel. *)
Definition fuel_le {A} (m m' : M A) : Prop :=
  forall s, fst (m s) <> OutOfFuel -> m' s = m s.

(** The same relation on flow runners. *)
Definition gas_le (run run' : flow_runner) : Prop :=
  forall flow webhookEvent parentContext w,
    fst (run flow webhookEvent parentContext w) <> OutOfFuel ->
    run' flow webhookEvent parentContext w = run flow webhookEvent parentContext w.

(** Enough gas for a call of [executeFlow_gas] that enters at depth [d]. *)
Definition enough_gas (gas d : nat) : Prop :=
  1 <= gas /\ MAX_FLOW_DEPTH < gas + d.

End Vocabulary.

(* ================================================================== *)
(** ** Vocabulary of the traversal *)

Section Reachability.
Context {runtime : Runtime} {collaborators : Collaborators}.

(** [condition_branch] calls [executeNode] on the target of the edge: the
    flow has a node with this id, and the node has a type. *)
Definition typed_target (flow : Flow) (e : Edge) : bool :=
  match find_node flow (edge_target e) with
  | Some targetNode => Js.truthy (node_type targetNode)
  | None => false
  end.

(** The node ids that the body of a node hands to [executeNode], on the
    payload [data]: all the next nodes for a Trigger and for an Action, the
    targets of the edges of the chosen handle for a Condition whose field is
    configured and whose evaluation returns, none for a Condition whose
    evaluation throws and for the other nodes. *)
Definition successors (flow : Flow) (data : record) (node : Node) : list string :=
  if has_type NODE_TYPES.TRIGGER node then getNextNodes (node_id node) flow
  else if has_type NODE_TYPES.CONDITION node then
    if field_blank (data_field (node_data node)) then []
    else
      match evaluateCondition (as_ConditionNodeData (node_data node)) data with
      | inr conditionMet =>
          map edge_target
            (filter (typed_target flow) (targetEdges node flow conditionMet))
      | inl _ => []
      end
  else if has_type NODE_TYPES.ACTION node then getNextNodes (node_id node) flow
  else [].

(** The nodes of the flow that the traversal can come to from [start]. *)
Inductive reach (flow : Flow) (data : record) (start : string) : string -> Prop :=
| reach_start :
    find_node flow start <> None -> reach flow data start start
| reach_step (x y : string) (node : Node) :
    reach flow data start x ->
    find_node flow x = Some node ->
    In y (successors flow data node) ->
    find_node flow y <> None ->
    reach flow data start y.

(** The payload of the run. *)
Definition payload (s : state) : record := wh_data (ctx_webhookData (context s)).

(** In the state [s] the successors of the node [x] that the flow has are
    executed. *)
Definition closed (flow : Flow) (s : state) (x : string) : Prop :=
  forall node y,
    find_node flow x = Some node ->
    In y (successors flow (payload s) node) ->
    find_node flow y <> None ->
    In y (ctx_executedNodes (context s)).

(** A node dispatcher that returns from every state at depth [d] with fewer
    than [k] nodes left in which [Pre] holds of the node id, leaves the node
    executed and establishes [Post] between the two states. *)
Definition node_spec (flow : Flow) (d k : nat)
           (Pre : string -> state -> Prop) (Post : state -> state -> Prop)
           (self : string -> M unit) : Prop :=
  forall nodeId s,
    ctx_depth (context s) = d -> unvisited flow s < k -> Pre nodeId s ->
    exists s',
      self nodeId s = (Returned tt, s') /\ extends s s' /\ Post s s'
      /\ (find_node flow nodeId <> None ->
          In nodeId (ctx_executedNodes (context s'))).

(** [executeFlow] went past its guards and to the traversal from the node
    [triggerNode]: the depth is under the limit, the flow is not in the call
    stack of the caller, validation found no issue, and the event is the one
    of the Trigger when there is no caller. *)
Definition starts (flow : Flow) (webhookEvent : WebhookEvent)
           (parentContext : option ExecutionContext) (triggerNode : Node) : Prop :=
  ctx_depth (new_context flow webhookEvent parentContext) < MAX_FLOW_DEPTH
  /\ occurrences (flow_id flow)
       (ctx_flowCallStack (new_context flow webhookEvent parentContext)) <= 1
  /\ validateFlow flow = []
  /\ find (has_type NODE_TYPES.TRIGGER) (flow_nodes flow) = Some triggerNode
  /\ (parentContext = None ->
      data_event (node_data triggerNode) = Some (wh_event webhookEvent)).

End Reachability.

(* ================================================================== *)
(** ** A sample runtime, sample collaborators and sample flows *)

Module Sample.

(** The text of a built-in function. *)
Definition native (name : string) : string :=
  "function " ++ name ++ "() { [native code] }".

Definition functions (constructor : string) (names : list string)
  : list (string * string) :=
  ("constructor", native constructor) :: map (fun name => (name, native name)) names.

(** Natural numbers and NaN ([None]), printed and read in decimal, and the
    functions of the two prototypes in a recent runtime. *)
#[export] Instance runtime : Runtime := {|
  Num := option nat;
  num_to_string := fun n =>
    match n with Some k => Js.nat_to_string k | None => "NaN" end;
  string_to_number := fun s =>
    match NilEmpty.uint_of_string s with
    | Some u => Some (Nat.of_uint u)
    | None => None
    end;
  num_of_bool := fun b => Some (if b then 1 else 0);
  num_of_nat := fun n => Some n;
  num_NaN := None;
  isNaN := fun n => match n with Some _ => false | None => true end;
  num_gt := fun a b =>
    match a, b with Some x, Some y => Nat.ltb y x | _, _ => false end;
  num_lt := fun a b =>
    match a, b with Some x, Some y => Nat.ltb x y | _, _ => false end;
  object_prototype :=
    functions "Object"
      [ "__defineGetter__"; "__defineSetter__"; "hasOwnProperty";
        "__lookupGetter__"; "__lookupSetter__"; "isPrototypeOf";
        "propertyIsEnumerable"; "toString"; "valueOf"; "toLocaleString" ];
  array_prototype :=
    functions "Array"
      [ "at"; "concat"; "copyWithin"; "fill"; "find"; "findIndex"; "findLast";
        "findLastIndex"; "lastIndexOf"; "pop"; "push"; "reverse"; "shift";
        "unshift"; "slice"; "sort"; "splice"; "includes"; "indexOf"; "join";
        "keys"; "entries"; "values"; "forEach"; "filter"; "flat"; "flatMap";
        "map"; "every"; "some"; "reduce"; "reduceRight"; "toLocaleString";
        "toString"; "toReversed"; "toSorted"; "toSpliced"; "with" ]
|}.

(** [JSON.stringify] for the bodies of the samples: objects whose values are
    strings without a character to escape, numbers, booleans or null. *)
Definition json_member (member : string * value) : string :=
  Js.dq ++ fst member ++ Js.dq ++ ":"
  ++ match snd member with
     | VStr text => Js.dq ++ text ++ Js.dq
     | VNum n => num_to_string n
     | VBool true => "true"
     | VBool false => "false"
     | _ => "null"
     end.

Definition json_object (fields : record) : string :=
  "{" ++ Js.join "," (map json_member fields) ++ "}".

(** A world that is the list of the execution-log updates made so far.  The
    repository holds [flows]; every HTTP call is answered by [answer]. *)
Definition collaborators_of (flows : list Flow) (answer : fetch_result)
  : Collaborators := {|
  World := list (string * FlowExecutionResult);
  stringify := json_object;
  fetch := fun _ _ w => (answer, w);
  findById := fun id w =>
    (inr (find (fun f => String.eqb (flow_id f) id) flows), w);
  createLog := fun flowId _ w => (inr ("log-" ++ flowId), w);
  updateLog := fun id result w => (None, (w ++ [(id, result)])%list)
|}.

Definition no_config : ActionConfig :=
  {| cfg_message := None; cfg_url := None; cfg_method := None;
     cfg_headers := None; cfg_body := None; cfg_email := None;
     cfg_flowId := None; cfg_data := None |}.

Definition no_data : FlowNodeData :=
  {| data_event := None; data_field := None; data_operator := None;
     data_value := None; data_type := None; data_config := None |}.

Definition trigger (id event : string) : Node :=
  {| node_id := id; node_type := Some NODE_TYPES.TRIGGER;
     node_data := {| data_event := Some event; data_field := None;
                     data_operator := None; data_value := None;
                     data_type := None; data_config := None |} |}.

Definition condition (id : string) (field : option string) (operator : string)
           (value : literal) : Node :=
  {| node_id := id; node_type := Some NODE_TYPES.CONDITION;
     node_data := {| data_event := None; data_field := field;
                     data_operator := Some operator; data_value := Some value;
                     data_type := None; data_config := None |} |}.

Definition action (id type : string) (config : ActionConfig) : Node :=
  {| node_id := id; node_type := Some NODE_TYPES.ACTION;
     node_data := {| data_event := None; data_field := None;
                     data_operator := None; data_value := None;
                     data_type := Some type; data_config := Some config |} |}.

Definition end_node (id : string) : Node :=
  {| node_id := id; node_type := Some NODE_TYPES.END; node_data := no_data |}.

Definition edge (source target : string) (handle : option string) : Edge :=
  {| edge_id := source ++ "-" ++ target; edge_source := source;
     edge_target := target; edge_sourceHandle := handle |}.

Definition http_config (url : string) : ActionConfig :=
  {| cfg_message := None; cfg_url := Some url; cfg_method := None;
     cfg_headers := None; cfg_body := None; cfg_email := None;
     cfg_flowId := None; cfg_data := None |}.

Definition call_config (flowId : option string) : ActionConfig :=
  {| cfg_message := None; cfg_url := None; cfg_method := None;
     cfg_headers := None; cfg_body := None; cfg_email := None;
     cfg_flowId := flowId; cfg_data := None |}.

(** The lead flow: trigger, condition on the source of the lead, an HTTP
    call on the yes branch, end.  There is no edge for the no branch. *)
Definition lead_flow : Flow :=
  {| flow_id := "lead"; flow_name := "Lead"; flow_active := true;
     flow_nodes :=
       [ trigger "trigger" "lead.converted";
         condition "condition" (Some "data.lead.source")
                   CONDITION_OPERATORS.EQUALS (LStr "whatsapp");
         action "action" ACTION_TYPES.HTTP_REQUEST (http_config "https://example.com/hook");
         end_node "end" ];
     flow_edges :=
       [ edge "trigger" "condition" None;
         edge "condition" "action" (Some CONDITION_HANDLES.YES);
         edge "action" "end" None ] |}.

Definition lead_event (source : string) : WebhookEvent :=
  {| wh_id := "evt-1"; wh_event := "lead.converted";
     wh_data := [ ("lead", VObj [ ("source", VStr source); ("score", VNull) ]) ] |}.

(** A lead whose source is an object with a property [toString]. *)
Definition opaque_event : WebhookEvent :=
  {| wh_id := "evt-3"; wh_event := "lead.converted";
     wh_data :=
       [ ("lead", VObj [ ("source", VObj [ ("toString", VStr "whatsapp") ]) ]) ] |}.

(** The same flow with a condition whose field was never configured. *)
Definition blank_flow : Flow :=
  {| flow_id := "blank"; flow_name := "Blank"; flow_active := true;
     flow_nodes :=
       [ trigger "trigger" "lead.converted";
         condition "condition" (Some "  ")
                   CONDITION_OPERATORS.EQUALS (LStr "whatsapp");
         end_node "end" ];
     flow_edges :=
       [ edge "trigger" "condition" None;
         edge "condition" "end" (Some CONDITION_HANDLES.NO) ] |}.

(** A flow whose condition has an edge with a handle that is neither yes nor
    no. *)
Definition maybe_flow : Flow :=
  {| flow_id := "maybe"; flow_name := "Maybe"; flow_active := true;
     flow_nodes :=
       [ trigger "trigger" "lead.converted";
         condition "condition" (Some "data.lead.source")
                   CONDITION_OPERATORS.EQUALS (LStr "whatsapp");
         end_node "end" ];
     flow_edges :=
       [ edge "trigger" "condition" None;
         edge "condition" "end" (Some "maybe") ] |}.

(** A flow whose condition has an edge without handle. *)
Definition unhandled_flow : Flow :=
  {| flow_id := "unhandled"; flow_name := "Unhandled"; flow_active := true;
     flow_nodes :=
       [ trigger "trigger" "lead.converted";
         condition "condition" (Some "data.lead.source")
                   CONDITION_OPERATORS.EQUALS (LStr "whatsapp");
         end_node "end" ];
     flow_edges :=
       [ edge "trigger" "condition" None;
         edge "condition" "end" None ] |}.

(** A flow with a CALL_FLOW action that names [target], followed by an end
    node. *)
Definition calling_flow (id : string) (target : option string) : Flow :=
  {| flow_id := id; flow_name := id; flow_active := true;
     flow_nodes :=
       [ trigger "trigger" "lead.converted";
         action "call" ACTION_TYPES.CALL_FLOW (call_config target);
         end_node "end" ];
     flow_edges :=
       [ edge "trigger" "call" None;
         edge "call" "end" None ] |}.

Definition log_config (message : string) : ActionConfig :=
  {| cfg_message := Some message; cfg_url := None; cfg_method := None;
     cfg_headers := None; cfg_body := None; cfg_email := None;
     cfg_flowId := None; cfg_data := None |}.

(** A flow whose graph has a cycle (first -> second -> first) and a node
    with two edges that lead to it (second). *)
Definition cyclic_flow : Flow :=
  {| flow_id := "cyclic"; flow_name := "Cyclic"; flow_active := true;
     flow_nodes :=
       [ trigger "trigger" "lead.converted";
         action "first" ACTION_TYPES.LOG (log_config "first");
         action "second" ACTION_TYPES.LOG (log_config "second") ];
     flow_edges :=
       [ edge "trigger" "first" None;
         edge "trigger" "second" None;
         edge "first" "second" None;
         edge "second" "first" None ] |}.

(** Two flows that call each other. *)
Definition flow_A : Flow := calling_flow "A" (Some "B").
Definition flow_B : Flow := calling_flow "B" (Some "A").

Definition ok_answer : fetch_result := Response 200 (Some "ok").

(** A repository with the two flows that call each other. *)
Definition collaborators : Collaborators :=
  collaborators_of [flow_A; flow_B] ok_answer.

(** The world of [collaborators_of flows answer] in which no execution log
    was updated yet. *)
Definition fresh_world (flows : list Flow) (answer : fetch_result)
  : @World runtime (collaborators_of flows answer) :=
  @nil (string * FlowExecutionResult).

(** An endpoint that does not answer before the timeout, and a flow that is
    not active. *)
Definition timeout_answer : fetch_result :=
  Rejected (Error "AbortError" "This operation was aborted").

Definition inactive_flow : Flow :=
  {| flow_id := "B"; flow_name := "B"; flow_active := false;
     flow_nodes := []; flow_edges := [] |}.

(** The world in which no execution log was updated yet, and a world with
    the given updates. *)
Definition no_log : @World runtime collaborators :=
  @nil (string * FlowExecutionResult).

Definition log_of (entries : list (string * FlowExecutionResult))
  : @World runtime collaborators := entries.

(** A context as [executeFlow] builds them, at depth [length stack - 1]. *)
Definition context_at (webhookEvent : WebhookEvent) (stack : list string)
  : ExecutionContext :=
  {| ctx_webhookData := webhookEvent;
     ctx_executedNodes := [];
     ctx_errors := [];
     ctx_flowCallStack := stack;
     ctx_depth := List.length stack - 1 |}.

(** The state of a top-level run of the flow [id] on the lead event, once
    the nodes [executed] are executed. *)
Definition running (id source : string) (executed : list string)
  : @state runtime collaborators :=
  {| world := no_log;
     context :=
       {| ctx_webhookData := lead_event source;
          ctx_executedNodes := executed;
          ctx_errors := [];
          ctx_flowCallStack := [id];
          ctx_depth := 0 |} |}.

(** A run of the lead flow in which the trigger is executed. *)
Definition after_trigger : @state runtime collaborators :=
  running "lead" "whatsapp" ["trigger"].

(** The condition node of the lead flow, the one of the blank flow, and the
    CALL_FLOW node of a calling flow. *)
Definition lead_condition : Node :=
  condition "condition" (Some "data.lead.source")
            CONDITION_OPERATORS.EQUALS (LStr "whatsapp").

Definition blank_condition : Node :=
  condition "condition" (Some "  ") CONDITION_OPERATORS.EQUALS (LStr "whatsapp").

Definition call_node (target : option string) : Node :=
  action "call" ACTION_TYPES.CALL_FLOW (call_config target).

(** The node dispatcher of the engine, with fuel for four nodes. *)
Definition dispatcher (flow : Flow) : string -> @M runtime collaborators unit :=
  executeNode (executeFlow_gas MAX_FLOW_DEPTH) 4 flow.

(** The HTTP_REQUEST node of the lead flow and the first LOG node of the
    cyclic flow. *)
Definition http_node : Node :=
  action "action" ACTION_TYPES.HTTP_REQUEST (http_config "https://example.com/hook").

Definition log_node : Node :=
  action "first" ACTION_TYPES.LOG (log_config "first").

(** An HTTP_REQUEST node with a body that has a placeholder. *)
Definition notify_config : ActionConfig :=
  {| cfg_message := None; cfg_url := Some "https://example.com/hook";
     cfg_method := None; cfg_headers := None;
     cfg_body := Some [ ("text", VStr "Lead from {{lead.source}}") ];
     cfg_email := None; cfg_flowId := None; cfg_data := None |}.

Definition notify_node : Node :=
  action "action" ACTION_TYPES.HTTP_REQUEST notify_config.

(** A run of the lead flow on the lead whose source is an object, once its
    three first nodes are executed. *)
Definition opaque_run : @state runtime collaborators :=
  {| world := no_log;
     context :=
       {| ctx_webhookData := opaque_event;
          ctx_executedNodes := ["trigger"; "condition"; "action"];
          ctx_errors := [];
          ctx_flowCallStack := ["lead"];
          ctx_depth := 0 |} |}.

(** Repositories that cannot be reached: every call to them throws. *)
Definition offline : exn := Raised "connection refused".

Definition broken_repository : Collaborators := {|
  World := list (string * FlowExecutionResult);
  stringify := json_object;
  fetch := fun _ _ w => (ok_answer, w);
  findById := fun _ w => (inl offline, w);
  createLog := fun _ _ w => (inl offline, w);
  updateLog := fun _ _ w => (Some offline, w)
|}.

Definition broken_world : @World runtime broken_repository :=
  @nil (string * FlowExecutionResult).

(** A run of flow A with these repositories, once its Trigger node and its
    CALL_FLOW node are executed. *)
Definition broken_run : @state runtime broken_repository :=
  {| world := broken_world;
     context :=
       {| ctx_webhookData := lead_event "whatsapp";
          ctx_executedNodes := ["trigger"; "call"];
          ctx_errors := [];
          ctx_flowCallStack := ["A"];
          ctx_depth := 0 |} |}.

(** The rest of what the service asks for: [active] is what [findActive]
    answers; the two updates succeed. *)
Definition service_of (collaborators : Collaborators) (active : exn + list Flow)
  : @ServiceCollaborators runtime collaborators := {|
  findActive := fun w => (active, w);
  markAsProcessed := fun _ w => (None, w);
  failLog := fun _ _ w => (None, w)
|}.

(** An event that the lead flow does not listen to. *)
Definition signup_event : WebhookEvent :=
  {| wh_id := "evt-2"; wh_event := "user.signup"; wh_data := [] |}.

End Sample.

(* ================================================================== *)
(** * Properties *)

(** ** Lists used as sets *)

Lemma set_has_In (set : list string) (x : string) :
  set_has set x = true <-> In x set.
Proof.
  unfold set_has. rewrite existsb_exists. split.
  - intros [y [Hy Heq]]. apply String.eqb_eq in Heq. now subst.
  - intros Hin. exists x. split; [assumption | apply String.eqb_refl].
Qed.

Lemma set_has_false (set : list string) (x : string) :
  set_has set x = false <-> ~ In x set.
Proof.
  rewrite <- set_has_In. destruct (set_has set x); split; intros; congruence.
Qed.

Lemma set_add_In (set : list string) (x : string) : In x (set_add set x).
Proof.
  unfold set_add. destruct (set_has set x) eqn:E.
  - now apply set_has_In.
  - apply in_or_app. right. now left.
Qed.

Lemma set_add_extends (set : list string) (x : string) :
  exists more, set_add set x = (set ++ more)%list.
Proof.
  unfold set_add. destruct (set_has set x).
  - exists []. now rewrite app_nil_r.
  - now exists [x].
Qed.

Lemma set_add_NoDup (set : list string) (x : string) :
  NoDup set -> NoDup (set_add set x).
Proof.
  intros Hnd. unfold set_add. destruct (set_has set x) eqn:E; [assumption|].
  apply set_has_false in E.
  apply NoDup_rev in Hnd. rewrite <- (rev_involutive (set ++ [x])).
  apply NoDup_rev. rewrite rev_app_distr. simpl. constructor.
  - now rewrite <- in_rev.
  - assumption.
Qed.

Lemma filter_mono_length_le {X} (p q : X -> bool) (l : list X) :
  (forall x, In x l -> q x = true -> p x = true) ->
  List.length (filter q l) <= List.length (filter p l).
Proof.
  induction l as [|a l IH]; intros Himp; simpl; [lia|].
  assert (IH' : List.length (filter q l) <= List.length (filter p l)).
  { apply IH. intros x Hx. apply Himp. now right. }
  destruct (q a) eqn:Eq.
  - rewrite (Himp a (or_introl eq_refl) Eq). simpl. lia.
  - destruct (p a); simpl; lia.
Qed.

Lemma filter_mono_length_lt {X} (p q : X -> bool) (l : list X) (a : X) :
  (forall x, In x l -> q x = true -> p x = true) ->
  In a l -> p a = true -> q a = false ->
  List.length (filter q l) < List.length (filter p l).
Proof.
  induction l as [|b l IH]; intros Himp Hin Hp Hq; simpl; [contradiction|].
  assert (Hle : List.length (filter q l) <= List.length (filter p l)).
  { apply filter_mono_length_le. intros x Hx. apply Himp. now right. }
  destruct Hin as [-> | Hin].
  - rewrite Hp, Hq. simpl. lia.
  - assert (Hlt : List.length (filter q l) < List.length (filter p l)).
    { apply IH; try assumption. intros x Hx. apply Himp. now right. }
    destruct (q b) eqn:Eq.
    + rewrite (Himp b (or_introl eq_refl) Eq). simpl. lia.
    + destruct (p b); simpl; lia.
Qed.

Lemma flat_map_all_nil {X Y} (f : X -> list Y) (l : list X) :
  (forall x, In x l -> f x = []) -> flat_map f l = [].
Proof.
  induction l as [|a l IH]; intros Hall; simpl; [reflexivity|].
  rewrite (Hall a (or_introl eq_refl)). simpl. apply IH.
  intros x Hx. apply Hall. now right.
Qed.

Lemma filter_all_false {X} (p : X -> bool) (l : list X) :
  (forall x, In x l -> p x = false) -> filter p l = [].
Proof.
  induction l as [|a l IH]; intros Hall; simpl; [reflexivity|].
  rewrite (Hall a (or_introl eq_refl)). apply IH.
  intros x Hx. apply Hall. now right.
Qed.

Section EngineFacts.
Context {runtime : Runtime} {collaborators : Collaborators}.

Notation "x <- m ;; k" := (bind m (fun x => k))
  (at level 61, m at next level, right associativity).
Notation "m ;; k" := (bind m (fun _ => k))
  (at level 61, right associativity).

(** ** The measure of a traversal *)

Lemma unvisited_le_nodes (flow : Flow) (s : state) :
  unvisited flow s <= List.length (flow_nodes flow).
Proof. unfold unvisited. apply List.filter_length_le. Qed.

Lemma find_node_Some (flow : Flow) (nodeId : string) (node : Node) :
  find_node flow nodeId = Some node ->
  In node (flow_nodes flow) /\ node_id node = nodeId.
Proof.
  unfold find_node. intros Hf. apply find_some in Hf. destruct Hf as [Hin Heq].
  apply String.eqb_eq in Heq. now split.
Qed.

(** ** What a step of the traversal may change in the state *)

Lemma extends_refl (s : state) : extends s s.
Proof.
  constructor; try reflexivity; try (exists []; now rewrite app_nil_r); auto.
Qed.

Lemma extends_trans (s1 s2 s3 : state) :
  extends s1 s2 -> extends s2 s3 -> extends s1 s3.
Proof.
  intros [a1 b1 c1 [m1 d1] [e1 f1] g1] [a2 b2 c2 [m2 d2] [e2 f2] g2].
  constructor; try congruence; auto.
  - exists (m1 ++ m2)%list. rewrite d2, d1. now rewrite app_assoc.
  - exists (e1 ++ e2)%list. rewrite f2, f1. now rewrite app_assoc.
Qed.

Lemma extends_same_context (s : state) (w : World) :
  extends s {| world := w; context := context s |}.
Proof.
  constructor; simpl; try reflexivity; try (exists []; now rewrite app_nil_r); auto.
Qed.

Lemma extends_In (s s' : state) (x : string) :
  extends s s' ->
  In x (ctx_executedNodes (context s)) -> In x (ctx_executedNodes (context s')).
Proof.
  intros [_ _ _ [more E] _ _] Hin. rewrite E. apply in_or_app. now left.
Qed.

Lemma extends_unvisited (flow : Flow) (s s' : state) :
  extends s s' -> unvisited flow s' <= unvisited flow s.
Proof.
  intros Hext. unfold unvisited. apply filter_mono_length_le.
  intros n _ Hq. apply negb_true_iff in Hq. apply negb_true_iff.
  apply set_has_false in Hq. apply set_has_false.
  intros Hin. apply Hq. eapply extends_In; eassumption.
Qed.

Lemma push_errors_extends (msgs : list string) (s : state) :
  exists s', push_errors msgs s = (Returned tt, s') /\ extends s s'
             /\ world s' = world s
             /\ ctx_executedNodes (context s') = ctx_executedNodes (context s)
             /\ ctx_errors (context s') = (ctx_errors (context s) ++ msgs)%list.
Proof.
  eexists. split; [reflexivity|]. repeat split; simpl; auto.
  - exists []. now rewrite app_nil_r.
  - now exists msgs.
Qed.

Lemma add_executed_extends (flow : Flow) (nodeId : string) (node : Node) (s : state) :
  find_node flow nodeId = Some node ->
  set_has (ctx_executedNodes (context s)) nodeId = false ->
  exists s', add_executed nodeId s = (Returned tt, s') /\ extends s s'
             /\ In nodeId (ctx_executedNodes (context s'))
             /\ unvisited flow s' < unvisited flow s.
Proof.
  intros Hfind Hnot. eexists. split; [reflexivity|]. split; [|split].
  - constructor; simpl; auto.
    + apply set_add_extends.
    + exists []. now rewrite app_nil_r.
    + apply set_add_NoDup.
  - simpl. apply set_add_In.
  - apply find_node_Some in Hfind. destruct Hfind as [Hin Hid].
    unfold unvisited. simpl. apply filter_mono_length_lt with (a := node).
    + intros n _ Hq. apply negb_true_iff in Hq. apply negb_true_iff.
      apply set_has_false in Hq. apply set_has_false.
      intros Hn. apply Hq. destruct (set_add_extends (ctx_executedNodes (context s)) nodeId)
        as [more E]. rewrite E. apply in_or_app. now left.
    + assumption.
    + rewrite Hid, Hnot. reflexivity.
    + rewrite Hid. apply negb_false_iff. apply set_has_In. apply set_add_In.
Qed.

(** ** Computations that leave the context alone *)

Lemma state_eta (s : state) : {| world := world s; context := context s |} = s.
Proof. now destruct s. Qed.

Lemma quiet_ret (d : nat) {A} (a : A) : quiet d (ret a).
Proof.
  intros s _. exists (Returned a), (world s). unfold ret.
  rewrite state_eta. split; [reflexivity | discriminate].
Qed.

Lemma quiet_throw (d : nat) {A} (error : exn) : quiet d (@throw _ _ A error).
Proof.
  intros s _. exists (Thrown error), (world s). unfold throw.
  rewrite state_eta. split; [reflexivity | discriminate].
Qed.

Lemma quiet_get_context (d : nat) : quiet d get_context.
Proof.
  intros s _. exists (Returned (context s)), (world s). unfold get_context.
  rewrite state_eta. split; [reflexivity | discriminate].
Qed.

Lemma quiet_bind (d : nat) {A B} (m : M A) (k : A -> M B) :
  quiet d m -> (forall a, quiet d (k a)) -> quiet d (bind m k).
Proof.
  intros Hm Hk s Hd. destruct (Hm s Hd) as (r & w & E & Hr).
  unfold bind. rewrite E. destruct r as [a| error |].
  - destruct (Hk a {| world := w; context := context s |} Hd) as (r' & w' & E' & Hr').
    exists r', w'. now split.
  - exists (Thrown error), w. split; [reflexivity | discriminate].
  - contradiction.
Qed.

Lemma quiet_try_catch (d : nat) {A} (m : M A) (handler : exn -> M A) :
  quiet d m -> (forall error, quiet d (handler error)) -> quiet d (try_catch m handler).
Proof.
  intros Hm Hh s Hd. destruct (Hm s Hd) as (r & w & E & Hr).
  unfold try_catch. rewrite E. destruct r as [a| error |].
  - exists (Returned a), w. split; [reflexivity | discriminate].
  - destruct (Hh error {| world := w; context := context s |} Hd)
      as (r' & w' & E' & Hr').
    exists r', w'. now split.
  - contradiction.
Qed.

Lemma quiet_ask (d : nat) {A} (call : World -> A * World) : quiet d (ask call).
Proof.
  intros s _. unfold ask. destruct (call (world s)) as [a w].
  exists (Returned a), w. split; [reflexivity | discriminate].
Qed.

Lemma quiet_ask_or_throw (d : nat) {A} (call : World -> (exn + A) * World) :
  quiet d (ask_or_throw call).
Proof.
  intros s _. unfold ask_or_throw. destruct (call (world s)) as [[error|a] w].
  - exists (Thrown error), w. split; [reflexivity | discriminate].
  - exists (Returned a), w. split; [reflexivity | discriminate].
Qed.

Lemma quiet_of_sum (d : nat) {A} (r : exn + A) : quiet d (of_sum r).
Proof. destruct r; [apply quiet_throw | apply quiet_ret]. Qed.

Lemma quiet_call_executeFlow (d : nat) (executeFlow : flow_runner)
      (targetFlow : Flow) (webhookEvent : WebhookEvent) :
  runner_ok d executeFlow ->
  quiet d (call_executeFlow executeFlow targetFlow webhookEvent).
Proof.
  intros Hrun s Hd. unfold call_executeFlow.
  specialize (Hrun targetFlow webhookEvent (context s) (world s) Hd).
  destruct (executeFlow targetFlow webhookEvent (Some (context s)) (world s))
    as [r w]. exists r, w. now split.
Qed.

Create HintDb quiet.
#[local] Hint Resolve quiet_ret quiet_throw quiet_get_context quiet_ask
  quiet_ask_or_throw quiet_of_sum quiet_call_executeFlow : quiet.

Ltac quiet_step :=
  match goal with
  | |- quiet _ (bind _ _) => apply quiet_bind; [| intros ?]
  | |- quiet _ (try_catch _ _) => apply quiet_try_catch; [| intros ?]
  | |- quiet _ (if ?b then _ else _) => destruct b
  | |- quiet _ (match ?x with _ => _ end) => destruct x
  | |- quiet _ _ => solve [auto with quiet]
  end.

Lemma quiet_executeLogAction (d : nat) (actionData : FlowNodeData) (nodeId : string) :
  quiet d (executeLogAction actionData nodeId).
Proof. unfold executeLogAction. auto with quiet. Qed.

Lemma quiet_executeHttpRequestAction (d : nat) (actionData : FlowNodeData)
      (nodeId : string) :
  quiet d (executeHttpRequestAction actionData nodeId).
Proof. unfold executeHttpRequestAction. repeat quiet_step. Qed.

Lemma quiet_executeEmailAction (d : nat) (actionData : FlowNodeData)
      (nodeId : string) :
  quiet d (executeEmailAction actionData nodeId).
Proof. unfold executeEmailAction. repeat quiet_step. Qed.

Lemma quiet_callFlow_try (d : nat) (executeFlow : flow_runner)
      (nodeId flowId : string) (extraData : option record) :
  runner_ok d executeFlow ->
  quiet d (callFlow_try executeFlow nodeId flowId extraData).
Proof. intros Hrun. unfold callFlow_try. repeat quiet_step. Qed.

Lemma quiet_executeCallFlowAction (d : nat) (executeFlow : flow_runner)
      (actionData : FlowNodeData) (nodeId : string) :
  runner_ok d executeFlow ->
  quiet d (executeCallFlowAction executeFlow actionData nodeId).
Proof.
  intros Hrun. unfold executeCallFlowAction.
  destruct (config_flowId actionData) as [flowId|]; [|auto with quiet].
  destruct (negb (Js.truthy (Some flowId))); [auto with quiet|].
  apply quiet_try_catch.
  - now apply quiet_callFlow_try.
  - intros error. destruct (is_ValidationError error); auto with quiet.
Qed.

(** ** The traversal returns and only extends the context *)

Section Traversal.
Variable flow : Flow.
Variable d : nat.

Lemma body_ok_ret (k : nat) : body_ok flow d k (ret tt).
Proof. intros s _ _. exists s. split; [reflexivity | apply extends_refl]. Qed.

Lemma body_ok_push_error (k : nat) (msg : string) :
  body_ok flow d k (push_error msg).
Proof.
  intros s _ _. destruct (push_errors_extends [msg] s) as (s' & E & Hext & _).
  exists s'. now split.
Qed.

Lemma body_ok_bind (k : nat) (m1 m2 : M unit) :
  body_ok flow d k m1 -> body_ok flow d k m2 -> body_ok flow d k (m1 ;; m2).
Proof.
  intros H1 H2 s Hd Hk. destruct (H1 s Hd Hk) as (s1 & E1 & X1).
  destruct (H2 s1) as (s2 & E2 & X2).
  - rewrite (ext_depth X1). assumption.
  - pose proof (extends_unvisited flow X1). lia.
  - exists s2. split.
    + unfold bind. rewrite E1. exact E2.
    + eapply extends_trans; eassumption.
Qed.

Lemma attempt_ok_body (k : nat) (m : M unit) :
  body_ok flow d k m -> attempt_ok flow d k m.
Proof.
  intros Hm s Hd Hk. destruct (Hm s Hd Hk) as (s' & E & X).
  exists (Returned tt), s'. split; [exact E|]. split; [discriminate | exact X].
Qed.

(** A [try] block that may throw, with a [catch] block that returns. *)
Lemma body_ok_try_catch (k : nat) (m : M unit) (handler : exn -> M unit) :
  attempt_ok flow d k m -> (forall error, body_ok flow d k (handler error)) ->
  body_ok flow d k (try_catch m handler).
Proof.
  intros Hm Hh s Hd Hk. destruct (Hm s Hd Hk) as (r & s1 & E & Hr & X1).
  unfold try_catch. rewrite E. destruct r as [[]| error |].
  - exists s1. now split.
  - destruct (Hh error s1) as (s2 & E2 & X2).
    + now rewrite (ext_depth X1).
    + pose proof (extends_unvisited flow X1). lia.
    + exists s2. split; [exact E2 | eapply extends_trans; eassumption].
  - contradiction.
Qed.

Lemma node_ok_body (k : nat) (self : string -> M unit) (nodeId : string) :
  node_ok flow d k self -> body_ok flow d k (self nodeId).
Proof.
  intros Hself s Hd Hk. destruct (Hself nodeId s Hd Hk) as (s' & E & X & _).
  exists s'. now split.
Qed.

Lemma body_ok_for_each (k : nat) (self : string -> M unit) (xs : list string) :
  node_ok flow d k self -> body_ok flow d k (for_each xs self).
Proof.
  intros Hself. induction xs as [|x xs IH]; simpl.
  - apply body_ok_ret.
  - apply body_ok_bind; [now apply node_ok_body | exact IH].
Qed.

Lemma body_ok_promise_all (k : nat) (branches : list (M unit)) :
  (forall m, In m branches -> body_ok flow d k m) ->
  body_ok flow d k (promise_all branches).
Proof.
  induction branches as [|m ms IH]; intros Hall; simpl.
  - apply body_ok_ret.
  - intros s Hd Hk.
    destruct (Hall m (or_introl eq_refl) s Hd Hk) as (s1 & E1 & X1).
    destruct (IH (fun m' Hm' => Hall m' (or_intror Hm')) s1) as (s2 & E2 & X2).
    + rewrite (ext_depth X1). assumption.
    + pose proof (extends_unvisited flow X1). lia.
    + exists s2. split.
      * rewrite E1, E2. reflexivity.
      * eapply extends_trans; eassumption.
Qed.

Lemma body_ok_executeTrigger (k : nat) (self : string -> M unit) (node : Node) :
  node_ok flow d k self -> body_ok flow d k (executeTrigger self node flow).
Proof.
  intros Hself. unfold executeTrigger.
  destruct (Nat.eqb _ 0); [apply body_ok_ret | now apply body_ok_for_each].
Qed.

Lemma body_ok_condition_branch (k : nat) (self : string -> M unit)
      (node : Node) (targetEdge : Edge) :
  node_ok flow d k self ->
  body_ok flow d k (condition_branch self node flow targetEdge).
Proof.
  intros Hself. unfold condition_branch.
  destruct (find_node flow (edge_target targetEdge)) as [targetNode|].
  - destruct (Js.truthy (node_type targetNode)).
    + now apply node_ok_body.
    + apply body_ok_push_error.
  - apply body_ok_push_error.
Qed.

(** [executeCondition] returns, or throws what the evaluation of the
    condition throws. *)
Lemma attempt_ok_executeCondition (k : nat) (self : string -> M unit) (node : Node) :
  node_ok flow d k self -> attempt_ok flow d k (executeCondition self node flow).
Proof.
  intros Hself. unfold executeCondition.
  destruct (field_blank _); [apply attempt_ok_body, body_ok_push_error|].
  intros s Hd Hk. unfold bind at 1. unfold get_context. unfold bind at 1.
  destruct (evaluateCondition _ _) as [error | conditionMet]; cbn [of_sum].
  - exists (Thrown error), s. split; [reflexivity|].
    split; [discriminate | apply extends_refl].
  - unfold ret at 1. destruct (Nat.eqb _ 0).
    + exists (Returned tt), s. split; [reflexivity|].
      split; [discriminate | apply extends_refl].
    + refine (@attempt_ok_body k _ _ s Hd Hk). apply body_ok_promise_all.
      intros m Hm. apply in_map_iff in Hm. destruct Hm as (e & <- & _).
      now apply body_ok_condition_branch.
Qed.

Lemma dispatch_action_extends (executeFlow : flow_runner)
      (actionData : FlowNodeData) (nodeId : string) (s : state) :
  runner_ok d executeFlow ->
  ctx_depth (context s) = d ->
  exists r s',
    dispatch_action executeFlow actionData nodeId s = (r, s')
    /\ r <> OutOfFuel /\ extends s s'.
Proof.
  intros Hrun Hd.
  assert (Hq : forall m : M unit, quiet d m ->
               exists r s', m s = (r, s') /\ r <> OutOfFuel /\ extends s s').
  { intros m Hm. destruct (Hm s Hd) as (r & w & E & Hr).
    exists r, {| world := w; context := context s |}.
    split; [assumption|]. split; [assumption|]. apply extends_same_context. }
  unfold dispatch_action.
  destruct (Js.opt_eqb _ (Some ACTION_TYPES.LOG));
    [apply Hq, quiet_executeLogAction|].
  destruct (Js.opt_eqb _ (Some ACTION_TYPES.HTTP_REQUEST));
    [apply Hq, quiet_executeHttpRequestAction|].
  destruct (Js.opt_eqb _ (Some ACTION_TYPES.SEND_EMAIL));
    [apply Hq, quiet_executeEmailAction|].
  destruct (Js.opt_eqb _ (Some ACTION_TYPES.CALL_FLOW));
    [now apply Hq, quiet_executeCallFlowAction|].
  destruct (push_errors_extends
              ["Nó de ação " ++ nodeId ++ ": Tipo de ação desconhecido: "
               ++ Js.show (data_type actionData)] s) as (s' & E & X & _).
  exists (Returned tt), s'. split; [assumption|]. split; [discriminate | assumption].
Qed.

(** The [try]/[catch] of [executeAction] turns every failure of an action
    into an entry of [context.errors]. *)
Lemma body_ok_action_try (k : nat) (executeFlow : flow_runner)
      (actionData : FlowNodeData) (nodeId : string) :
  runner_ok d executeFlow ->
  body_ok flow d k
    (try_catch (dispatch_action executeFlow actionData nodeId)
       (fun error =>
          push_error ("Erro inesperado ao executar ação " ++ nodeId ++ ": "
                      ++ error_text error))).
Proof.
  intros Hrun s Hd Hk.
  destruct (dispatch_action_extends actionData nodeId s Hrun Hd)
    as (r & s1 & E & Hr & X).
  unfold try_catch. rewrite E. destruct r as [[]| error |].
  - exists s1. now split.
  - destruct (push_errors_extends
                ["Erro inesperado ao executar ação " ++ nodeId ++ ": "
                 ++ error_text error] s1) as (s2 & E2 & X2 & _).
    exists s2. split; [exact E2 | eapply extends_trans; eassumption].
  - contradiction.
Qed.

Lemma body_ok_executeAction (k : nat) (executeFlow : flow_runner)
      (self : string -> M unit) (node : Node) :
  runner_ok d executeFlow -> node_ok flow d k self ->
  body_ok flow d k (executeAction executeFlow self node flow).
Proof.
  intros Hrun Hself. unfold executeAction.
  destruct (negb (Js.truthy (data_type (node_data node)))).
  - apply body_ok_bind; [apply body_ok_push_error | now apply body_ok_for_each].
  - apply body_ok_bind; [now apply body_ok_action_try | now apply body_ok_for_each].
Qed.

Lemma attempt_ok_dispatch_node (k : nat) (executeFlow : flow_runner)
      (self : string -> M unit) (nodeId : string) (node : Node) :
  runner_ok d executeFlow -> node_ok flow d k self ->
  attempt_ok flow d k (dispatch_node executeFlow self nodeId node flow).
Proof.
  intros Hrun Hself. unfold dispatch_node.
  destruct (has_type NODE_TYPES.TRIGGER node);
    [now apply attempt_ok_body, body_ok_executeTrigger|].
  destruct (has_type NODE_TYPES.CONDITION node);
    [now apply attempt_ok_executeCondition|].
  destruct (has_type NODE_TYPES.ACTION node);
    [now apply attempt_ok_body, body_ok_executeAction|].
  destruct (has_type NODE_TYPES.END node); [apply attempt_ok_body, body_ok_ret|].
  apply attempt_ok_body, body_ok_push_error.
Qed.

(** The [catch] block of [executeNode] records the error and returns. *)
Lemma body_ok_node_catch (k : nat) (self : string -> M unit) (nodeId : string)
      (node : Node) (error : exn) :
  node_ok flow d k self -> body_ok flow d k (node_catch self nodeId node flow error).
Proof.
  intros Hself. unfold node_catch.
  apply body_ok_bind; [apply body_ok_push_error|].
  destruct (has_type NODE_TYPES.CONDITION node); [apply body_ok_ret|].
  destruct (_ && _); [now apply body_ok_for_each | apply body_ok_ret].
Qed.

(** The body of [executeNode] after the node is marked: it returns. *)
Lemma body_ok_node_body (k : nat) (executeFlow : flow_runner)
      (self : string -> M unit) (nodeId : string) (node : Node) :
  runner_ok d executeFlow -> node_ok flow d k self ->
  body_ok flow d k
    (try_catch (dispatch_node executeFlow self nodeId node flow)
               (node_catch self nodeId node flow)).
Proof.
  intros Hrun Hself. apply body_ok_try_catch.
  - now apply attempt_ok_dispatch_node.
  - intros error. now apply body_ok_node_catch.
Qed.

(** [executeNode] unfolded once. *)
Lemma executeNode_unfold (executeFlow : flow_runner) (fuel : nat)
      (nodeId : string) (s : state) :
  executeNode executeFlow (S fuel) flow nodeId s =
  if set_has (ctx_executedNodes (context s)) nodeId then (Returned tt, s)
  else match find_node flow nodeId with
       | None => push_error ("Nó " ++ nodeId ++ " não encontrado no flow") s
       | Some node =>
           (add_executed nodeId ;;
            try_catch
              (dispatch_node executeFlow (executeNode executeFlow fuel flow)
                             nodeId node flow)
              (node_catch (executeNode executeFlow fuel flow) nodeId node flow)) s
       end.
Proof.
  simpl. unfold bind at 1. unfold get_context.
  destruct (set_has _ nodeId); [reflexivity|].
  destruct (find_node flow nodeId); reflexivity.
Qed.

Lemma node_ok_executeNode (executeFlow : flow_runner) (fuel : nat) :
  runner_ok d executeFlow ->
  node_ok flow d fuel (executeNode executeFlow fuel flow).
Proof.
  intros Hrun. induction fuel as [|fuel IH]; intros nodeId s Hd Hk; [lia|].
  rewrite executeNode_unfold.
  destruct (set_has (ctx_executedNodes (context s)) nodeId) eqn:Ehas.
  - exists s. split; [reflexivity|]. split; [apply extends_refl|].
    intros _. now apply set_has_In.
  - destruct (find_node flow nodeId) as [node|] eqn:Efind.
    + destruct (add_executed_extends flow nodeId s Efind Ehas)
        as (s1 & E1 & X1 & Hin1 & Hlt).
      assert (Hbody : body_ok flow d fuel
                (try_catch
                   (dispatch_node executeFlow (executeNode executeFlow fuel flow)
                                  nodeId node flow)
                   (node_catch (executeNode executeFlow fuel flow) nodeId node flow))).
      { now apply body_ok_node_body. }
      destruct (Hbody s1) as (s2 & E2 & X2).
      * rewrite (ext_depth X1). assumption.
      * lia.
      * exists s2. split; [|split].
        -- unfold bind. rewrite E1. exact E2.
        -- eapply extends_trans; eassumption.
        -- intros _. eapply extends_In; eassumption.
    + destruct (push_errors_extends
                  ["Nó " ++ nodeId ++ " não encontrado no flow"] s)
        as (s' & E & X & _).
      exists s'. split; [exact E|]. split; [assumption|].
      intros Hne. now contradiction Hne.
Qed.

End Traversal.

(** ** executeFlow returns a formatted context *)

Lemma formatResult_success (c : ExecutionContext) :
  success (formatResult c) = true <-> errors (formatResult c) = [].
Proof.
  unfold formatResult. simpl. rewrite Nat.eqb_eq. apply length_zero_iff_nil.
Qed.

Lemma return_after (m : M unit) (s s' : state) :
  m s = (Returned tt, s') ->
  (m ;; return_result) s = (Returned (formatResult (context s')), s').
Proof. intros E. unfold bind at 1. rewrite E. reflexivity. Qed.

Lemma push_return (msgs : list string) (s : state) :
  exists s',
    (push_errors msgs ;; return_result) s = (Returned (formatResult (context s')), s')
    /\ extends s s'
    /\ world s' = world s
    /\ ctx_executedNodes (context s') = ctx_executedNodes (context s)
    /\ ctx_errors (context s') = (ctx_errors (context s) ++ msgs)%list.
Proof.
  destruct (push_errors_extends msgs s) as (s' & E & X).
  exists s'. split; [now apply return_after | exact X].
Qed.

Lemma executeFlow_body_returns (executeFlow : flow_runner) (flow : Flow)
      (webhookEvent : WebhookEvent) (s : state) :
  (ctx_depth (context s) < MAX_FLOW_DEPTH ->
   runner_ok (ctx_depth (context s)) executeFlow) ->
  exists s',
    executeFlow_body executeFlow flow webhookEvent s
    = (Returned (formatResult (context s')), s')
    /\ extends s s'.
Proof.
  intros Hrun. unfold executeFlow_body. unfold bind at 1. unfold get_context.
  destruct (Nat.leb MAX_FLOW_DEPTH (ctx_depth (context s))) eqn:Edepth.
  { destruct (push_return [depth_message (context s)] s) as (s' & E & X & _).
    exists s'. now split. }
  apply Nat.leb_gt in Edepth. specialize (Hrun Edepth).
  destruct (Nat.ltb 1 _).
  { destruct (push_return [loop_message flow (context s)] s) as (s' & E & X & _).
    exists s'. now split. }
  destruct (Nat.ltb 0 _).
  { destruct (push_return (validateFlow flow) s) as (s' & E & X & _).
    exists s'. now split. }
  destruct (find (has_type NODE_TYPES.TRIGGER) (flow_nodes flow)) as [triggerNode|].
  2:{ destruct (push_return ["Flow deve começar com um nó Trigger"] s)
        as (s' & E & X & _).
      exists s'. now split. }
  destruct (_ && _).
  { destruct (push_return
                [event_message (data_event (node_data triggerNode))
                               (wh_event webhookEvent)] s) as (s' & E & X & _).
    exists s'. now split. }
  destruct (@node_ok_executeNode flow (ctx_depth (context s)) executeFlow
              (node_fuel flow) Hrun (node_id triggerNode) s eq_refl)
    as (s' & E & X & _).
  { unfold node_fuel. pose proof (unvisited_le_nodes flow s). lia. }
  exists s'. split; [|assumption].
  apply return_after. unfold try_catch. now rewrite E.
Qed.

Lemma executeFlow_gas_returns (gas : nat) :
  forall flow webhookEvent parentContext w,
    enough_gas gas (ctx_depth (new_context flow webhookEvent parentContext)) ->
    exists final w',
      executeFlow_gas gas flow webhookEvent parentContext w
      = (Returned (formatResult final), w')
      /\ extends {| world := w;
                    context := new_context flow webhookEvent parentContext |}
                 {| world := w'; context := final |}.
Proof.
  induction gas as [|gas IH]; intros flow webhookEvent parentContext w [Hpos Hgas];
    [lia|].
  simpl.
  destruct (@executeFlow_body_returns (executeFlow_gas gas) flow webhookEvent
              {| world := w;
                 context := new_context flow webhookEvent parentContext |})
    as (s' & E & X).
  - simpl. intros Hlt f e parent w0 Hparent.
    destruct (IH f e (Some parent) w0) as (final & w' & E & _).
    + simpl. rewrite Hparent. split; lia.
    + rewrite E. simpl. discriminate.
  - rewrite E. exists (context s'), (world s'). split; [reflexivity|].
    now rewrite state_eta.
Qed.

Lemma enough_gas_executeFlow (d : nat) : enough_gas (S MAX_FLOW_DEPTH) d.
Proof. unfold enough_gas. lia. Qed.

Lemma new_context_fresh (flow : Flow) (webhookEvent : WebhookEvent)
      (parentContext : option ExecutionContext) :
  ctx_executedNodes (new_context flow webhookEvent parentContext) = []
  /\ ctx_errors (new_context flow webhookEvent parentContext) = [].
Proof. destruct parentContext; now split. Qed.

Lemma runner_ok_executeFlow_gas (d : nat) :
  runner_ok d (executeFlow_gas MAX_FLOW_DEPTH).
Proof.
  intros flow webhookEvent parent w Hd.
  destruct (@executeFlow_gas_returns MAX_FLOW_DEPTH flow webhookEvent (Some parent) w)
    as (final & w' & E & _).
  - unfold enough_gas, MAX_FLOW_DEPTH. simpl. lia.
  - rewrite E. simpl. discriminate.
Qed.

Lemma executeFlow_unfold (flow : Flow) (webhookEvent : WebhookEvent)
      (parentContext : option ExecutionContext) (w : World) :
  executeFlow flow webhookEvent parentContext w =
  let (r, s) :=
    executeFlow_body (executeFlow_gas MAX_FLOW_DEPTH) flow webhookEvent
      {| world := w; context := new_context flow webhookEvent parentContext |} in
  (r, world s).
Proof. reflexivity. Qed.

(** ** The guards of executeFlow *)

Lemma occurrences_app (id : string) (a b : list string) :
  occurrences id (a ++ b) = occurrences id a + occurrences id b.
Proof. unfold occurrences. now rewrite filter_app, length_app. Qed.

Lemma occurrences_self (id : string) : occurrences id [id] = 1.
Proof. unfold occurrences. simpl. now rewrite String.eqb_refl. Qed.

Lemma occurrences_In (id : string) (stack : list string) :
  In id stack <-> 0 < occurrences id stack.
Proof.
  unfold occurrences. induction stack as [|x stack IH]; simpl.
  - split; [contradiction | lia].
  - destruct (String.eqb x id) eqn:E; simpl.
    + apply String.eqb_eq in E. split; [lia | now left].
    + apply String.eqb_neq in E. rewrite <- IH. split; [|now right].
      intros [Hx | Hin]; [contradiction | assumption].
Qed.

Lemma opt_eqb_eq (a b : option string) : Js.opt_eqb a b = true <-> a = b.
Proof.
  destruct a as [x|], b as [y|]; simpl; try (split; congruence).
  rewrite String.eqb_eq. split; congruence.
Qed.

Lemma opt_eqb_neq (a b : option string) : Js.opt_eqb a b = false <-> a <> b.
Proof.
  rewrite <- opt_eqb_eq. destruct (Js.opt_eqb a b); split; congruence.
Qed.

Lemma stopped_at_entry (msgs : list string) (flow : Flow)
      (webhookEvent : WebhookEvent) (parentContext : option ExecutionContext)
      (w : World) :
  let s := {| world := w; context := new_context flow webhookEvent parentContext |} in
  (let (r, s') := (push_errors msgs ;; return_result) s in (r, world s'))
  = (Returned (stopped msgs), w).
Proof. destruct parentContext; reflexivity. Qed.

Lemma depth_guard (flow : Flow) (webhookEvent : WebhookEvent)
      (parentContext : option ExecutionContext) (w : World) :
  let c := new_context flow webhookEvent parentContext in
  MAX_FLOW_DEPTH <= ctx_depth c ->
  executeFlow flow webhookEvent parentContext w
  = (Returned (stopped [depth_message c]), w).
Proof.
  intros c Hdepth. rewrite executeFlow_unfold. unfold executeFlow_body.
  unfold bind at 1. unfold get_context. cbn [context].
  fold c. apply Nat.leb_le in Hdepth. rewrite Hdepth.
  apply (stopped_at_entry [depth_message c]).
Qed.

Lemma loop_guard (flow : Flow) (webhookEvent : WebhookEvent)
      (parentContext : option ExecutionContext) (w : World) :
  let c := new_context flow webhookEvent parentContext in
  ctx_depth c < MAX_FLOW_DEPTH ->
  1 < occurrences (flow_id flow) (ctx_flowCallStack c) ->
  executeFlow flow webhookEvent parentContext w
  = (Returned (stopped [loop_message flow c]), w).
Proof.
  intros c Hdepth Hloop. rewrite executeFlow_unfold. unfold executeFlow_body.
  unfold bind at 1. unfold get_context. cbn [context].
  fold c. apply Nat.leb_gt in Hdepth. rewrite Hdepth.
  unfold occurrences in Hloop. apply Nat.ltb_lt in Hloop. rewrite Hloop.
  apply (stopped_at_entry [loop_message flow c]).
Qed.

(** Past the two recursion guards, [executeFlow] is the rest of its body. *)
Lemma past_guards (flow : Flow) (webhookEvent : WebhookEvent)
      (parentContext : option ExecutionContext) (w : World) :
  let c := new_context flow webhookEvent parentContext in
  ctx_depth c < MAX_FLOW_DEPTH ->
  occurrences (flow_id flow) (ctx_flowCallStack c) <= 1 ->
  executeFlow flow webhookEvent parentContext w =
  let (r, s') :=
    (let validationErrors := validateFlow flow in
     if Nat.ltb 0 (List.length validationErrors) then
       push_errors validationErrors ;; return_result
     else
       match find (has_type NODE_TYPES.TRIGGER) (flow_nodes flow) with
       | None => push_error "Flow deve começar com um nó Trigger" ;; return_result
       | Some triggerNode =>
           let triggerData := node_data triggerNode in
           if Nat.eqb (ctx_depth c) 0
              && negb (Js.opt_eqb (data_event triggerData)
                                  (Some (wh_event webhookEvent)))
           then
             push_error (event_message (data_event triggerData)
                                       (wh_event webhookEvent)) ;;
             return_result
           else
             try_catch
               (executeNode (executeFlow_gas MAX_FLOW_DEPTH) (node_fuel flow) flow
                            (node_id triggerNode))
               (fun error =>
                  push_error ("Erro fatal ao executar flow: " ++ error_text error)) ;;
             return_result
       end) {| world := w; context := c |} in
  (r, world s').
Proof.
  intros c Hdepth Hloop. rewrite executeFlow_unfold. unfold executeFlow_body.
  unfold bind at 1. unfold get_context. cbn [context].
  fold c. apply Nat.leb_gt in Hdepth. rewrite Hdepth.
  unfold occurrences in Hloop. apply Nat.ltb_ge in Hloop. rewrite Hloop.
  reflexivity.
Qed.

Lemma new_context_depth_top (flow : Flow) (webhookEvent : WebhookEvent) :
  ctx_depth (new_context flow webhookEvent None) = 0
  /\ occurrences (flow_id flow)
       (ctx_flowCallStack (new_context flow webhookEvent None)) = 1.
Proof. split; [reflexivity | apply occurrences_self]. Qed.

(** ** The first node of a traversal *)

Lemma executeNode_marks (flow : Flow) (executeFlow : flow_runner) (fuel : nat)
      (nodeId : string) (node : Node) (s : state) :
  runner_ok (ctx_depth (context s)) executeFlow ->
  unvisited flow s < S fuel ->
  set_has (ctx_executedNodes (context s)) nodeId = false ->
  find_node flow nodeId = Some node ->
  exists s' rest,
    executeNode executeFlow (S fuel) flow nodeId s = (Returned tt, s')
    /\ extends s s'
    /\ ctx_executedNodes (context s')
       = (ctx_executedNodes (context s) ++ nodeId :: rest)%list.
Proof.
  intros Hrun Hk Ehas Efind. rewrite executeNode_unfold, Ehas, Efind.
  destruct (add_executed_extends flow nodeId s Efind Ehas)
    as (s1 & E1 & X1 & Hin1 & Hlt).
  assert (Hexec1 : ctx_executedNodes (context s1)
                   = (ctx_executedNodes (context s) ++ [nodeId])%list).
  { unfold add_executed in E1. injection E1 as <-. simpl.
    unfold set_add. now rewrite Ehas. }
  assert (Hbody : body_ok flow (ctx_depth (context s)) fuel
            (try_catch
               (dispatch_node executeFlow (executeNode executeFlow fuel flow)
                              nodeId node flow)
               (node_catch (executeNode executeFlow fuel flow) nodeId node flow))).
  { apply body_ok_node_body; [assumption|]. now apply node_ok_executeNode. }
  destruct (Hbody s1) as (s2 & E2 & X2).
  - apply (ext_depth X1).
  - lia.
  - destruct (ext_executedNodes X2) as [more Hmore].
    exists s2, more. split; [|split].
    + unfold bind. rewrite E1. exact E2.
    + eapply extends_trans; eassumption.
    + rewrite Hmore, Hexec1, <- app_assoc. reflexivity.
Qed.

Lemma find_node_of_member (flow : Flow) (node : Node) :
  In node (flow_nodes flow) -> find_node flow (node_id node) <> None.
Proof.
  intros Hin Hnone. unfold find_node in Hnone.
  pose proof (find_none _ _ Hnone node Hin) as Hfalse. simpl in Hfalse.
  now rewrite String.eqb_refl in Hfalse.
Qed.

Lemma targetEdges_In (node : Node) (flow : Flow) (conditionMet : bool) (e : Edge) :
  In e (targetEdges node flow conditionMet) <->
  In e (flow_edges flow)
  /\ edge_source e = node_id node
  /\ edge_sourceHandle e = Some (expectedHandle conditionMet).
Proof.
  unfold targetEdges. rewrite !filter_In, String.eqb_eq, opt_eqb_eq. tauto.
Qed.

(** After the fan-out of a condition every target that is a typed node of
    the flow is executed. *)
Lemma promise_all_visits (flow : Flow) (d k : nat) (self : string -> M unit)
      (node : Node) (edges : list Edge) :
  node_ok flow d k self ->
  forall s,
    ctx_depth (context s) = d -> unvisited flow s < k ->
    exists s',
      promise_all (map (condition_branch self node flow) edges) s = (Returned tt, s')
      /\ extends s s'
      /\ (forall e targetNode,
             In e edges ->
             find_node flow (edge_target e) = Some targetNode ->
             Js.truthy (node_type targetNode) = true ->
             In (edge_target e) (ctx_executedNodes (context s'))).
Proof.
  intros Hself. induction edges as [|e edges IH]; intros s Hd Hk.
  - exists s. split; [reflexivity|]. split; [apply extends_refl|].
    intros e targetNode [].
  - assert (Hfirst : exists s1,
               condition_branch self node flow e s = (Returned tt, s1)
               /\ extends s s1
               /\ (forall targetNode,
                      find_node flow (edge_target e) = Some targetNode ->
                      Js.truthy (node_type targetNode) = true ->
                      In (edge_target e) (ctx_executedNodes (context s1)))).
    { unfold condition_branch.
      destruct (find_node flow (edge_target e)) as [targetNode|] eqn:Efind.
      - destruct (Js.truthy (node_type targetNode)) eqn:Etype.
        + destruct (Hself (edge_target e) s Hd Hk) as (s1 & E1 & X1 & Hin1).
          exists s1. split; [exact E1|]. split; [exact X1|].
          intros _ _ _. apply Hin1. now rewrite Efind.
        + destruct (@body_ok_push_error flow d k
                      ("Nó de condição " ++ node_id node ++ ": Nó de destino "
                       ++ edge_target e ++ " não encontrado no flow") s Hd Hk)
            as (s1 & E1 & X1).
          exists s1. split; [exact E1|]. split; [exact X1|].
          intros targetNode' Heq. injection Heq as <-. congruence.
      - destruct (@body_ok_push_error flow d k
                    ("Nó de condição " ++ node_id node ++ ": Nó de destino "
                     ++ edge_target e ++ " não encontrado no flow") s Hd Hk)
          as (s1 & E1 & X1).
        exists s1. split; [exact E1|]. split; [exact X1|]. discriminate. }
    destruct Hfirst as (s1 & E1 & X1 & Hin1).
    destruct (IH s1) as (s2 & E2 & X2 & Hin2).
    + now rewrite (ext_depth X1).
    + pose proof (extends_unvisited flow X1). lia.
    + exists s2. split; [|split].
      * simpl. rewrite E1, E2. reflexivity.
      * eapply extends_trans; eassumption.
      * intros e' targetNode [<- | Hin] Hfind Htype.
        -- eapply extends_In; [exact X2|]. eapply Hin1; eassumption.
        -- eapply Hin2; eassumption.
Qed.

(** ** More fuel does not change a result *)

Lemma fuel_le_refl {A} (m : M A) : fuel_le m m.
Proof. intros s _. reflexivity. Qed.

Lemma fuel_le_bind {A B} (m m' : M A) (k k' : A -> M B) :
  fuel_le m m' -> (forall a, fuel_le (k a) (k' a)) ->
  fuel_le (bind m k) (bind m' k').
Proof.
  intros Hm Hk s Hs. unfold bind in *.
  destruct (m s) as [r s1] eqn:E.
  assert (Hr : r <> OutOfFuel).
  { intros ->. now apply Hs. }
  rewrite (Hm s); [| now rewrite E]. rewrite E.
  destruct r as [a| error |]; [| reflexivity | contradiction].
  now apply Hk.
Qed.

Lemma fuel_le_try_catch {A} (m m' : M A) (h h' : exn -> M A) :
  fuel_le m m' -> (forall error, fuel_le (h error) (h' error)) ->
  fuel_le (try_catch m h) (try_catch m' h').
Proof.
  intros Hm Hh s Hs. unfold try_catch in *.
  destruct (m s) as [r s1] eqn:E.
  assert (Hr : r <> OutOfFuel).
  { intros ->. now apply Hs. }
  rewrite (Hm s); [| now rewrite E]. rewrite E.
  destruct r as [a| error |]; [reflexivity | | contradiction].
  now apply Hh.
Qed.

Lemma fuel_le_for_each {X} (xs : list X) (f f' : X -> M unit) :
  (forall x, fuel_le (f x) (f' x)) -> fuel_le (for_each xs f) (for_each xs f').
Proof.
  intros Hf. induction xs as [|x xs IH]; simpl.
  - apply fuel_le_refl.
  - apply fuel_le_bind; [apply Hf | intros _; exact IH].
Qed.

Lemma fuel_le_promise_all {X} (xs : list X) (f f' : X -> M unit) :
  (forall x, fuel_le (f x) (f' x)) ->
  fuel_le (promise_all (map f xs)) (promise_all (map f' xs)).
Proof.
  intros Hf. induction xs as [|x xs IH]; simpl.
  - apply fuel_le_refl.
  - intros s Hs.
    destruct (f x s) as [r s1] eqn:E.
    assert (Hr : r <> OutOfFuel).
    { intros ->. now apply Hs. }
    rewrite (Hf x s); [| now rewrite E]. rewrite E.
    destruct (promise_all (map f xs) s1) as [r2 s2] eqn:E2.
    assert (Hr2 : r2 <> OutOfFuel).
    { intros ->. destruct r; simpl in Hs; now apply Hs. }
    rewrite (IH s1); [| now rewrite E2]. rewrite E2. reflexivity.
Qed.

Section MoreFuel.
Variables (run run' : flow_runner) (self self' : string -> M unit).
Hypothesis Hrun : gas_le run run'.
Hypothesis Hself : forall nodeId, fuel_le (self nodeId) (self' nodeId).

Lemma fuel_le_call_executeFlow (targetFlow : Flow) (webhookEvent : WebhookEvent) :
  fuel_le (call_executeFlow run targetFlow webhookEvent)
          (call_executeFlow run' targetFlow webhookEvent).
Proof.
  intros s Hs. unfold call_executeFlow in *.
  destruct (run targetFlow webhookEvent (Some (context s)) (world s)) as [r w] eqn:E.
  rewrite Hrun; [| now rewrite E]. now rewrite E.
Qed.

Lemma fuel_le_callFlow_try (nodeId flowId : string) (extraData : option record) :
  fuel_le (callFlow_try run nodeId flowId extraData)
          (callFlow_try run' nodeId flowId extraData).
Proof.
  unfold callFlow_try. apply fuel_le_bind; [apply fuel_le_refl|].
  intros [targetFlow|]; [| apply fuel_le_refl].
  destruct (negb (flow_active targetFlow)); [apply fuel_le_refl|].
  apply fuel_le_bind; [apply fuel_le_refl|]. intros c.
  apply fuel_le_bind; [apply fuel_le_refl|]. intros callFlowLogId.
  apply fuel_le_bind; [apply fuel_le_call_executeFlow|]. intros result.
  apply fuel_le_refl.
Qed.

Lemma fuel_le_dispatch_action (actionData : FlowNodeData) (nodeId : string) :
  fuel_le (dispatch_action run actionData nodeId)
          (dispatch_action run' actionData nodeId).
Proof.
  unfold dispatch_action.
  repeat (destruct (Js.opt_eqb _ _); [apply fuel_le_refl|]).
  destruct (Js.opt_eqb _ _); [| apply fuel_le_refl].
  unfold executeCallFlowAction.
  destruct (config_flowId actionData) as [flowId|]; [| apply fuel_le_refl].
  destruct (negb _); [apply fuel_le_refl|].
  apply fuel_le_try_catch; [apply fuel_le_callFlow_try | intros error; apply fuel_le_refl].
Qed.

Lemma fuel_le_executeAction (node : Node) (flow : Flow) :
  fuel_le (executeAction run self node flow) (executeAction run' self' node flow).
Proof.
  unfold executeAction. destruct (negb _).
  - apply fuel_le_bind; [apply fuel_le_refl|]. intros _. now apply fuel_le_for_each.
  - apply fuel_le_bind.
    + apply fuel_le_try_catch; [apply fuel_le_dispatch_action|].
      intros error. apply fuel_le_refl.
    + intros _. now apply fuel_le_for_each.
Qed.

Lemma fuel_le_executeCondition (node : Node) (flow : Flow) :
  fuel_le (executeCondition self node flow) (executeCondition self' node flow).
Proof.
  unfold executeCondition. destruct (field_blank _); [apply fuel_le_refl|].
  apply fuel_le_bind; [apply fuel_le_refl|]. intros c.
  apply fuel_le_bind; [apply fuel_le_refl|]. intros conditionMet.
  destruct (Nat.eqb _ 0); [apply fuel_le_refl|].
  apply fuel_le_promise_all. intros e. unfold condition_branch.
  destruct (find_node flow (edge_target e)) as [targetNode|]; [| apply fuel_le_refl].
  destruct (Js.truthy _); [apply Hself | apply fuel_le_refl].
Qed.

Lemma fuel_le_node_body (nodeId : string) (node : Node) (flow : Flow) :
  fuel_le
    (try_catch (dispatch_node run self nodeId node flow)
               (node_catch self nodeId node flow))
    (try_catch (dispatch_node run' self' nodeId node flow)
               (node_catch self' nodeId node flow)).
Proof.
  apply fuel_le_try_catch.
  - unfold dispatch_node.
    destruct (has_type NODE_TYPES.TRIGGER node).
    { unfold executeTrigger. destruct (Nat.eqb _ 0); [apply fuel_le_refl|].
      now apply fuel_le_for_each. }
    destruct (has_type NODE_TYPES.CONDITION node); [apply fuel_le_executeCondition|].
    destruct (has_type NODE_TYPES.ACTION node); [apply fuel_le_executeAction|].
    apply fuel_le_refl.
  - intros error. unfold node_catch.
    apply fuel_le_bind; [apply fuel_le_refl|]. intros _.
    destruct (has_type NODE_TYPES.CONDITION node); [apply fuel_le_refl|].
    destruct (_ && _); [now apply fuel_le_for_each | apply fuel_le_refl].
Qed.

End MoreFuel.

Lemma fuel_le_executeNode (run run' : flow_runner) (flow : Flow) :
  gas_le run run' ->
  forall fuel fuel' nodeId,
    fuel <= fuel' ->
    fuel_le (executeNode run fuel flow nodeId) (executeNode run' fuel' flow nodeId).
Proof.
  intros Hrun. induction fuel as [|fuel IH]; intros fuel' nodeId Hle s Hs.
  - simpl in Hs. now contradiction Hs.
  - destruct fuel' as [|fuel']; [lia|].
    rewrite executeNode_unfold in Hs. rewrite !executeNode_unfold.
    destruct (set_has _ nodeId); [reflexivity|].
    destruct (find_node flow nodeId) as [node|]; [| reflexivity].
    revert s Hs. apply fuel_le_bind; [apply fuel_le_refl|]. intros _.
    apply fuel_le_node_body; [assumption|].
    intros nodeId'. apply IH. lia.
Qed.

Lemma gas_le_executeFlow_gas (gas gas' : nat) :
  gas <= gas' -> gas_le (executeFlow_gas gas) (executeFlow_gas gas').
Proof.
  revert gas'. induction gas as [|gas IH];
    intros gas' Hle flow webhookEvent parentContext w Hs.
  - simpl in Hs. now contradiction Hs.
  - destruct gas' as [|gas']; [lia|]. simpl in *.
    set (s0 := {| world := w;
                  context := new_context flow webhookEvent parentContext |}) in *.
    assert (Hbody : fuel_le (executeFlow_body (executeFlow_gas gas) flow webhookEvent)
                            (executeFlow_body (executeFlow_gas gas') flow webhookEvent)).
    { unfold executeFlow_body. apply fuel_le_bind; [apply fuel_le_refl|]. intros c.
      destruct (Nat.leb _ _); [apply fuel_le_refl|].
      destruct (Nat.ltb 1 _); [apply fuel_le_refl|].
      destruct (Nat.ltb 0 _); [apply fuel_le_refl|].
      destruct (find _ _) as [triggerNode|]; [| apply fuel_le_refl].
      destruct (_ && _); [apply fuel_le_refl|].
      apply fuel_le_bind; [| intros _; apply fuel_le_refl].
      apply fuel_le_try_catch; [| intros error; apply fuel_le_refl].
      apply fuel_le_executeNode; [apply IH; lia | lia]. }
    rewrite (Hbody s0); [reflexivity|].
    destruct (executeFlow_body (executeFlow_gas gas) flow webhookEvent s0) as [r s1].
    exact Hs.
Qed.

(** With more gas than [executeFlow] takes, the result is the same. *)
Lemma executeFlow_gas_irrelevant (gas : nat) (flow : Flow)
      (webhookEvent : WebhookEvent) (parentContext : option ExecutionContext)
      (w : World) :
  S MAX_FLOW_DEPTH <= gas ->
  executeFlow_gas gas flow webhookEvent parentContext w
  = executeFlow flow webhookEvent parentContext w.
Proof.
  intros Hle. apply (gas_le_executeFlow_gas Hle).
  destruct (@executeFlow_gas_returns (S MAX_FLOW_DEPTH) flow webhookEvent
              parentContext w (enough_gas_executeFlow _)) as (final & w' & E & _).
  unfold executeFlow. rewrite E. simpl. discriminate.
Qed.

(** With more fuel than the nodes left to execute, the traversal is the
    same. *)
Lemma executeNode_fuel_irrelevant (flow : Flow) (fuel fuel' : nat)
      (nodeId : string) (s : state) :
  unvisited flow s < fuel -> fuel <= fuel' ->
  executeNode (executeFlow_gas MAX_FLOW_DEPTH) fuel' flow nodeId s
  = executeNode (executeFlow_gas MAX_FLOW_DEPTH) fuel flow nodeId s.
Proof.
  intros Hk Hle.
  apply (@fuel_le_executeNode (executeFlow_gas MAX_FLOW_DEPTH)
           (executeFlow_gas MAX_FLOW_DEPTH) flow
           (gas_le_executeFlow_gas (Nat.le_refl _)) fuel fuel' nodeId Hle).
  destruct (@node_ok_executeNode flow (ctx_depth (context s))
              (executeFlow_gas MAX_FLOW_DEPTH) fuel
              (@runner_ok_executeFlow_gas (ctx_depth (context s)))
              nodeId s eq_refl Hk) as (s' & E & _).
  rewrite E. simpl. discriminate.
Qed.

End EngineFacts.

(** ** A scheme for properties of a traversal *)

Section TraversalSpec.
Context {runtime : Runtime} {collaborators : Collaborators}.

Notation "x <- m ;; k" := (bind m (fun x => k))
  (at level 61, m at next level, right associativity).
Notation "m ;; k" := (bind m (fun _ => k))
  (at level 61, right associativity).

Ltac conj :=
  repeat match goal with |- _ /\ _ => split end; try assumption; try reflexivity.

Variable flow : Flow.
Variable d : nat.
Variable Pre : string -> state -> Prop.
Variable Post : state -> state -> Prop.

Hypothesis Post_same :
  forall s s',
    extends s s' ->
    ctx_executedNodes (context s') = ctx_executedNodes (context s) ->
    Post s s'.
Hypothesis Post_trans :
  forall s1 s2 s3,
    extends s1 s2 -> extends s2 s3 -> Post s1 s2 -> Post s2 s3 -> Post s1 s3.
Hypothesis Pre_mono :
  forall nodeId s s', extends s s' -> Pre nodeId s -> Pre nodeId s'.
Hypothesis Pre_successors :
  forall nodeId node s y,
    Pre nodeId s ->
    find_node flow nodeId = Some node ->
    set_has (ctx_executedNodes (context s)) nodeId = false ->
    In y (successors flow (payload s) node) ->
    Pre y (mark_executed nodeId s).
Hypothesis Post_node :
  forall nodeId node s s2,
    Pre nodeId s ->
    find_node flow nodeId = Some node ->
    set_has (ctx_executedNodes (context s)) nodeId = false ->
    extends (mark_executed nodeId s) s2 ->
    Post (mark_executed nodeId s) s2 ->
    (forall y, In y (successors flow (payload s) node) ->
               find_node flow y <> None ->
               In y (ctx_executedNodes (context s2))) ->
    Post s s2.

Lemma extends_payload (s s' : state) : extends s s' -> payload s' = payload s.
Proof. intros X. unfold payload. now rewrite (ext_webhookData X). Qed.

Lemma spec_for_each (k : nat) (self : string -> M unit) (xs : list string) :
  node_spec flow d k Pre Post self ->
  forall s,
    ctx_depth (context s) = d -> unvisited flow s < k ->
    (forall x, In x xs -> Pre x s) ->
    exists s',
      for_each xs self s = (Returned tt, s') /\ extends s s' /\ Post s s'
      /\ (forall x, In x xs -> find_node flow x <> None ->
                    In x (ctx_executedNodes (context s'))).
Proof.
  intros Hself. induction xs as [|x xs IH]; intros s Hd Hk Hpre.
  - exists s. split; [reflexivity|]. split; [apply extends_refl|].
    split; [apply Post_same; [apply extends_refl | reflexivity]|].
    intros x [].
  - destruct (Hself x s Hd Hk (Hpre x (or_introl eq_refl)))
      as (s1 & E1 & X1 & P1 & Hin1).
    destruct (IH s1) as (s2 & E2 & X2 & P2 & Hin2).
    + now rewrite (ext_depth X1).
    + pose proof (extends_unvisited flow X1). lia.
    + intros y Hy. apply (Pre_mono X1). apply Hpre. now right.
    + exists s2. split; [|split; [|split]].
      * simpl. unfold bind. rewrite E1. exact E2.
      * eapply extends_trans; eassumption.
      * eapply Post_trans; eassumption.
      * intros y [<- | Hy] Hfound.
        -- eapply extends_In; [exact X2|]. now apply Hin1.
        -- now apply Hin2.
Qed.

Lemma spec_branches (k : nat) (self : string -> M unit) (node : Node)
      (edges : list Edge) :
  node_spec flow d k Pre Post self ->
  forall s,
    ctx_depth (context s) = d -> unvisited flow s < k ->
    (forall e, In e edges -> typed_target flow e = true -> Pre (edge_target e) s) ->
    exists s',
      promise_all (map (condition_branch self node flow) edges) s = (Returned tt, s')
      /\ extends s s' /\ Post s s'
      /\ (forall e, In e edges -> typed_target flow e = true ->
                    In (edge_target e) (ctx_executedNodes (context s'))).
Proof.
  intros Hself. induction edges as [|e edges IH]; intros s Hd Hk Hpre.
  - exists s. split; [reflexivity|]. split; [apply extends_refl|].
    split; [apply Post_same; [apply extends_refl | reflexivity]|].
    intros e [].
  - assert (Hfirst : exists s1,
               condition_branch self node flow e s = (Returned tt, s1)
               /\ extends s s1 /\ Post s s1
               /\ (typed_target flow e = true ->
                   In (edge_target e) (ctx_executedNodes (context s1)))).
    { unfold condition_branch, typed_target in *.
      destruct (find_node flow (edge_target e)) as [targetNode|] eqn:Efind.
      - destruct (Js.truthy (node_type targetNode)) eqn:Etype.
        + destruct (Hself (edge_target e) s Hd Hk) as (s1 & E1 & X1 & P1 & Hin1).
          { apply Hpre; [now left|]. unfold typed_target. now rewrite Efind. }
          exists s1. split; [assumption|]. split; [assumption|]. split; [assumption|].
          intros _. apply Hin1. now rewrite Efind.
        + destruct (push_errors_extends
                      ["Nó de condição " ++ node_id node ++ ": Nó de destino "
                       ++ edge_target e ++ " não encontrado no flow"] s)
            as (s1 & E1 & X1 & _ & Hsame & _).
          exists s1. split; [exact E1|]. split; [exact X1|].
          split; [now apply Post_same | discriminate].
      - destruct (push_errors_extends
                    ["Nó de condição " ++ node_id node ++ ": Nó de destino "
                     ++ edge_target e ++ " não encontrado no flow"] s)
          as (s1 & E1 & X1 & _ & Hsame & _).
        exists s1. split; [exact E1|]. split; [exact X1|].
        split; [now apply Post_same | discriminate]. }
    destruct Hfirst as (s1 & E1 & X1 & P1 & Hin1).
    destruct (IH s1) as (s2 & E2 & X2 & P2 & Hin2).
    + now rewrite (ext_depth X1).
    + pose proof (extends_unvisited flow X1). lia.
    + intros e' He' Ht. apply (Pre_mono X1). apply Hpre; [now right | assumption].
    + exists s2. split; [|split; [|split]].
      * simpl. rewrite E1, E2. reflexivity.
      * eapply extends_trans; eassumption.
      * eapply Post_trans; eassumption.
      * intros e' [<- | He'] Ht.
        -- eapply extends_In; [exact X2|]. now apply Hin1.
        -- now apply Hin2.
Qed.

(** The [try]/[catch] around the actions changes neither the executed nodes
    nor anything but the world and the errors. *)
Lemma action_try_keeps_executed (actionData : FlowNodeData) (nodeId : string)
      (s : state) :
  exists s',
    try_catch (dispatch_action (executeFlow_gas MAX_FLOW_DEPTH) actionData nodeId)
      (fun error =>
         push_error ("Erro inesperado ao executar ação " ++ nodeId ++ ": "
                     ++ error_text error)) s
    = (Returned tt, s')
    /\ extends s s'
    /\ ctx_executedNodes (context s') = ctx_executedNodes (context s).
Proof.
  assert (Hstep : exists r s1,
             dispatch_action (executeFlow_gas MAX_FLOW_DEPTH) actionData nodeId s
             = (r, s1)
             /\ r <> OutOfFuel /\ extends s s1
             /\ ctx_executedNodes (context s1) = ctx_executedNodes (context s)).
  { assert (Hq : forall m : M unit, quiet (ctx_depth (context s)) m ->
                 exists r s1, m s = (r, s1) /\ r <> OutOfFuel /\ extends s s1
                   /\ ctx_executedNodes (context s1) = ctx_executedNodes (context s)).
    { intros m Hm. destruct (Hm s eq_refl) as (r & w & E & Hr).
      exists r, {| world := w; context := context s |}.
      split; [assumption|]. split; [assumption|].
      split; [apply extends_same_context | reflexivity]. }
    unfold dispatch_action.
    destruct (Js.opt_eqb _ (Some ACTION_TYPES.LOG));
      [apply Hq, quiet_executeLogAction|].
    destruct (Js.opt_eqb _ (Some ACTION_TYPES.HTTP_REQUEST));
      [apply Hq, quiet_executeHttpRequestAction|].
    destruct (Js.opt_eqb _ (Some ACTION_TYPES.SEND_EMAIL));
      [apply Hq, quiet_executeEmailAction|].
    destruct (Js.opt_eqb _ (Some ACTION_TYPES.CALL_FLOW)).
    { apply Hq, quiet_executeCallFlowAction, runner_ok_executeFlow_gas. }
    destruct (push_errors_extends
                ["Nó de ação " ++ nodeId ++ ": Tipo de ação desconhecido: "
                 ++ Js.show (data_type actionData)] s) as (s1 & E & X & _ & Hsame & _).
    exists (Returned tt), s1. split; [assumption|].
    split; [discriminate|]. now split. }
  destruct Hstep as (r & s1 & E & Hr & X & Hsame).
  unfold try_catch. rewrite E. destruct r as [[]| error |].
  - exists s1. conj.
  - destruct (push_errors_extends
                ["Erro inesperado ao executar ação " ++ nodeId ++ ": "
                 ++ error_text error] s1) as (s2 & E2 & X2 & _ & Hsame2 & _).
    exists s2. split; [exact E2|]. split; [eapply extends_trans; eassumption|].
    congruence.
  - contradiction.
Qed.

Lemma spec_body (k : nat) (self : string -> M unit) (nodeId : string) (node : Node) :
  node_spec flow d k Pre Post self ->
  forall s,
    ctx_depth (context s) = d -> unvisited flow s < k ->
    (forall y, In y (successors flow (payload s) node) -> Pre y s) ->
    exists s',
      try_catch
        (dispatch_node (executeFlow_gas MAX_FLOW_DEPTH) self nodeId node flow)
        (node_catch self nodeId node flow) s
      = (Returned tt, s')
      /\ extends s s' /\ Post s s'
      /\ (forall y, In y (successors flow (payload s) node) ->
                    find_node flow y <> None ->
                    In y (ctx_executedNodes (context s'))).
Proof.
  intros Hself s Hd Hk Hpre.
  assert (Hsame : forall msg,
             exists s', push_error msg s = (Returned tt, s') /\ extends s s'
                        /\ Post s s').
  { intros msg. destruct (push_errors_extends [msg] s) as (s1 & E & X & _ & Hs & _).
    exists s1. split; [exact E|]. split; [exact X | now apply Post_same]. }
  assert (Hgoal : exists r s',
             dispatch_node (executeFlow_gas MAX_FLOW_DEPTH) self nodeId node flow s
             = (r, s')
             /\ extends s s' /\ Post s s'
             /\ (forall y, In y (successors flow (payload s) node) ->
                           find_node flow y <> None ->
                           In y (ctx_executedNodes (context s')))
             /\ (r = Returned tt
                 \/ exists error,
                      r = Thrown error
                      /\ has_type NODE_TYPES.CONDITION node = true
                      /\ s' = s)).
  { unfold dispatch_node, successors in *.
    destruct (has_type NODE_TYPES.TRIGGER node).
    { unfold executeTrigger.
      destruct (spec_for_each (getNextNodes (node_id node) flow) Hself Hd Hk Hpre)
        as (s' & E & X & P & Hin).
      exists (Returned tt), s'. split; [|conj; now left].
      destruct (getNextNodes (node_id node) flow); [exact E | exact E]. }
    destruct (has_type NODE_TYPES.CONDITION node).
    { unfold executeCondition. cbn [as_ConditionNodeData cond_field].
      destruct (field_blank (data_field (node_data node))).
      - destruct (Hsame ("Nó de condição " ++ node_id node
                   ++ ": Campo do payload não configurado. Configure o campo no editor do nó."))
          as (s' & E & X & P).
        exists (Returned tt), s'. split; [exact E|]. split; [exact X|].
        split; [exact P|]. split; [intros y [] | now left].
      - unfold bind at 1. unfold get_context. unfold bind at 1. fold (payload s).
        destruct (evaluateCondition (as_ConditionNodeData (node_data node))
                                    (payload s)) as [error | conditionMet];
          cbn [of_sum].
        + exists (Thrown error), s. split; [reflexivity|].
          split; [apply extends_refl|].
          split; [apply Post_same; [apply extends_refl | reflexivity]|].
          split; [intros y [] |]. right. exists error. conj.
        + unfold ret at 1.
          set (chosen := targetEdges node flow conditionMet) in *.
          destruct (@spec_branches k self node chosen Hself s Hd Hk)
            as (s' & E & X & P & Hin).
          { intros e He Ht. apply Hpre. apply in_map. apply filter_In. now split. }
          exists (Returned tt), s'.
          split; [|split; [exact X|split; [exact P|split; [|now left]]]].
          * destruct chosen; [exact E | exact E].
          * intros y Hy _. apply in_map_iff in Hy. destruct Hy as (e & <- & He).
            apply filter_In in He. destruct He as [He Ht]. now apply Hin. }
    destruct (has_type NODE_TYPES.ACTION node).
    { unfold executeAction.
      assert (Hfirst : exists s1,
                 (if negb (Js.truthy (data_type (node_data node)))
                  then push_error ("Nó de ação " ++ node_id node
                                   ++ ": Dados da ação inválidos ou não configurados")
                  else try_catch
                         (dispatch_action (executeFlow_gas MAX_FLOW_DEPTH)
                                          (node_data node) (node_id node))
                         (fun error =>
                            push_error ("Erro inesperado ao executar ação "
                                        ++ node_id node ++ ": " ++ error_text error))) s
                 = (Returned tt, s1)
                 /\ extends s s1
                 /\ ctx_executedNodes (context s1) = ctx_executedNodes (context s)).
      { destruct (negb _).
        - destruct (push_errors_extends
                      ["Nó de ação " ++ node_id node
                       ++ ": Dados da ação inválidos ou não configurados"] s)
            as (s1 & E & X & _ & Hs & _).
          exists s1. conj.
        - apply action_try_keeps_executed. }
      destruct Hfirst as (s1 & E1 & X1 & Hs1).
      destruct (@spec_for_each k self (getNextNodes (node_id node) flow) Hself s1)
        as (s2 & E2 & X2 & P2 & Hin2).
      - now rewrite (ext_depth X1).
      - pose proof (extends_unvisited flow X1). lia.
      - intros y Hy. apply (Pre_mono X1). now apply Hpre.
      - exists (Returned tt), s2. split; [|split; [|split; [|split]]].
        + destruct (negb _); unfold bind; rewrite E1; exact E2.
        + eapply extends_trans; eassumption.
        + eapply Post_trans; try eassumption. now apply Post_same.
        + exact Hin2.
        + now left. }
    destruct (has_type NODE_TYPES.END node).
    { exists (Returned tt), s. split; [reflexivity|]. split; [apply extends_refl|].
      split; [apply Post_same; [apply extends_refl | reflexivity]|].
      split; [intros y [] | now left]. }
    destruct (Hsame ("Tipo de nó desconhecido: " ++ Js.show (node_type node)
                     ++ " no nó " ++ nodeId)) as (s' & E & X & P).
    exists (Returned tt), s'. split; [exact E|]. split; [exact X|].
    split; [exact P|]. split; [intros y [] | now left]. }
  destruct Hgoal as (r & s' & E & X & P & Hin & [-> | (error & -> & Htype & ->)]).
  - exists s'. split; [|conj]. unfold try_catch. now rewrite E.
  - destruct (Hsame ("Erro ao executar nó " ++ nodeId ++ ": " ++ error_text error))
      as (s2 & E2 & X2 & P2).
    exists s2. split; [|split; [exact X2|split; [exact P2|]]].
    + unfold try_catch. rewrite E. unfold node_catch, bind. rewrite E2, Htype.
      reflexivity.
    + intros y Hy Hfound. eapply extends_In; [exact X2|]. now apply Hin.
Qed.

Theorem spec_executeNode (fuel : nat) :
  node_spec flow d fuel Pre Post
    (executeNode (executeFlow_gas MAX_FLOW_DEPTH) fuel flow).
Proof.
  induction fuel as [|fuel IH]; intros nodeId s Hd Hk Hpre; [lia|].
  rewrite executeNode_unfold.
  destruct (set_has (ctx_executedNodes (context s)) nodeId) eqn:Ehas.
  - exists s. split; [reflexivity|]. split; [apply extends_refl|].
    split; [apply Post_same; [apply extends_refl | reflexivity]|].
    intros _. now apply set_has_In.
  - destruct (find_node flow nodeId) as [node|] eqn:Efind.
    + destruct (add_executed_extends flow nodeId s Efind Ehas)
        as (s1 & E1 & X1 & Hin1 & Hlt).
      assert (Hs1 : s1 = mark_executed nodeId s).
      { unfold mark_executed. now rewrite E1. }
      subst s1.
      destruct (@spec_body fuel _ nodeId node IH (mark_executed nodeId s))
        as (s2 & E2 & X2 & P2 & Hin2).
      * now rewrite (ext_depth X1).
      * lia.
      * intros y Hy. rewrite (extends_payload X1) in Hy.
        eapply Pre_successors; eassumption.
      * exists s2. split; [|split; [|split]].
        -- unfold bind. rewrite E1. exact E2.
        -- eapply extends_trans; eassumption.
        -- eapply Post_node; eassumption.
        -- intros _. eapply extends_In; eassumption.
    + destruct (push_errors_extends
                  ["Nó " ++ nodeId ++ " não encontrado no flow"] s)
        as (s' & E & X & _ & Hsame & _).
      exists s'. split; [exact E|]. split; [assumption|].
      split; [now apply Post_same|].
      intros Hne. now contradiction Hne.
Qed.

End TraversalSpec.

(** ** Which nodes a run executes *)

Section ExecutedNodes.
Context {runtime : Runtime} {collaborators : Collaborators}.

Lemma closed_extends (flow : Flow) (s s' : state) (x : string) :
  extends s s' -> closed flow s x -> closed flow s' x.
Proof.
  intros X Hc node y Hfind Hy Hfound.
  eapply extends_In; [exact X|].
  apply (Hc node y Hfind); [|assumption].
  unfold payload in *. now rewrite <- (ext_webhookData X).
Qed.

Lemma mark_executed_In (nodeId x : string) (s : state) :
  In x (ctx_executedNodes (context (mark_executed nodeId s))) ->
  In x (ctx_executedNodes (context s)) \/ x = nodeId.
Proof.
  unfold mark_executed, add_executed. simpl. unfold set_add.
  destruct (set_has _ nodeId); [now left|].
  intros Hin. apply in_app_or in Hin. destruct Hin as [H | [H | []]]; auto.
Qed.

(** Every node that a dispatch adds to [executedNodes] has its successors
    executed when the dispatch returns. *)
Lemma executeNode_closes (flow : Flow) (fuel : nat) (nodeId : string) (s : state) :
  unvisited flow s < fuel ->
  exists s',
    executeNode (executeFlow_gas MAX_FLOW_DEPTH) fuel flow nodeId s = (Returned tt, s')
    /\ extends s s'
    /\ (forall x, In x (ctx_executedNodes (context s')) ->
                  ~ In x (ctx_executedNodes (context s)) -> closed flow s' x)
    /\ (find_node flow nodeId <> None -> In nodeId (ctx_executedNodes (context s'))).
Proof.
  intros Hk.
  assert (Hspec :
            node_spec flow (ctx_depth (context s)) fuel (fun _ _ => True)
              (fun s1 s2 => forall x, In x (ctx_executedNodes (context s2)) ->
                                      ~ In x (ctx_executedNodes (context s1)) ->
                                      closed flow s2 x)
              (executeNode (executeFlow_gas MAX_FLOW_DEPTH) fuel flow)).
  { apply spec_executeNode; auto.
    - intros s1 s2 _ Hsame x Hin Hnot. rewrite Hsame in Hin. contradiction.
    - intros s1 s2 s3 X12 X23 P12 P23 x Hin Hnot.
      destruct (in_dec string_dec x (ctx_executedNodes (context s2))) as [H2 | H2].
      + eapply closed_extends; [exact X23|]. now apply P12.
      + now apply P23.
    - intros id node s1 s2 _ Hfind Hhas X P Hsucc x Hin Hnot.
      destruct (in_dec string_dec x
                  (ctx_executedNodes (context (mark_executed id s1)))) as [H1 | H1].
      + apply mark_executed_In in H1. destruct H1 as [H1 | ->]; [contradiction|].
        intros node' y Hfind' Hy Hfound. rewrite Hfind in Hfind'.
        injection Hfind' as <-. apply Hsucc; [|assumption].
        assert (Hp : payload s2 = payload s1).
        { rewrite (extends_payload X). reflexivity. }
        now rewrite <- Hp.
      + now apply P. }
  destruct (Hspec nodeId s eq_refl Hk I) as (s' & E & X & P & Hin).
  exists s'. now repeat (split; [assumption|]).
Qed.

(** Every node that a dispatch adds to [executedNodes] can be reached from
    [start], when the node dispatched can. *)
Lemma executeNode_reaches (flow : Flow) (start : string) (fuel : nat)
      (nodeId : string) (s : state) :
  unvisited flow s < fuel ->
  (find_node flow nodeId <> None -> reach flow (payload s) start nodeId) ->
  (forall x, In x (ctx_executedNodes (context s)) -> reach flow (payload s) start x) ->
  exists s',
    executeNode (executeFlow_gas MAX_FLOW_DEPTH) fuel flow nodeId s = (Returned tt, s')
    /\ (forall x, In x (ctx_executedNodes (context s')) ->
                  reach flow (payload s) start x).
Proof.
  intros Hk Hstart Hall.
  assert (Hspec :
            node_spec flow (ctx_depth (context s)) fuel
              (fun id s1 => payload s1 = payload s
                            /\ (find_node flow id <> None ->
                                reach flow (payload s) start id))
              (fun s1 s2 =>
                 (forall x, In x (ctx_executedNodes (context s1)) ->
                            reach flow (payload s) start x) ->
                 forall x, In x (ctx_executedNodes (context s2)) ->
                           reach flow (payload s) start x)
              (executeNode (executeFlow_gas MAX_FLOW_DEPTH) fuel flow)).
  { apply spec_executeNode.
    - intros s1 s2 _ Hsame H x Hin. apply H. now rewrite <- Hsame.
    - intros s1 s2 s3 _ _ P12 P23 H. apply P23. now apply P12.
    - intros id s1 s2 X [Hp Hr]. split; [|assumption].
      now rewrite (extends_payload X).
    - intros id node s1 y [Hp Hr] Hfind Hhas Hy. split; [exact Hp|].
      intros Hfound. apply reach_step with (x := id) (node := node); try assumption.
      + apply Hr. now rewrite Hfind.
      + now rewrite <- Hp.
    - intros id node s1 s2 [Hp Hr] Hfind Hhas X P _ H. apply P.
      intros x Hin. apply mark_executed_In in Hin. destruct Hin as [Hin | ->].
      + now apply H.
      + apply Hr. now rewrite Hfind. }
  destruct (Hspec nodeId s eq_refl Hk (conj eq_refl Hstart)) as (s' & E & _ & P & _).
  exists s'. split; [exact E | now apply P].
Qed.

(** The same for the fan-out of a Condition node: every node that it adds
    to [executedNodes] can be reached from the target of one of the edges,
    and the targets that are typed nodes are executed. *)
Lemma fan_out_reaches (flow : Flow) (node : Node) (edges : list Edge)
      (fuel : nat) (s : state) :
  unvisited flow s < fuel ->
  exists s',
    promise_all
      (map (condition_branch
              (executeNode (executeFlow_gas MAX_FLOW_DEPTH) fuel flow) node flow)
           edges) s
    = (Returned tt, s')
    /\ extends s s'
    /\ (forall x, In x (ctx_executedNodes (context s')) ->
                  In x (ctx_executedNodes (context s))
                  \/ exists e, In e edges
                               /\ reach flow (payload s) (edge_target e) x)
    /\ (forall e, In e edges -> typed_target flow e = true ->
                  In (edge_target e) (ctx_executedNodes (context s'))).
Proof.
  intros Hk.
  set (from := fun x => exists e, In e edges
                                  /\ reach flow (payload s) (edge_target e) x).
  set (Pre := fun (id : string) (s1 : state) =>
                payload s1 = payload s /\ (find_node flow id <> None -> from id)).
  set (Post := fun (s1 s2 : state) =>
                 forall x, In x (ctx_executedNodes (context s2)) ->
                           In x (ctx_executedNodes (context s1)) \/ from x).
  assert (Post_same : forall s1 s2,
             extends s1 s2 ->
             ctx_executedNodes (context s2) = ctx_executedNodes (context s1) ->
             Post s1 s2).
  { intros s1 s2 _ Hsame x Hin. left. now rewrite <- Hsame. }
  assert (Post_trans : forall s1 s2 s3,
             extends s1 s2 -> extends s2 s3 -> Post s1 s2 -> Post s2 s3 -> Post s1 s3).
  { intros s1 s2 s3 _ _ P12 P23 x Hin.
    destruct (P23 x Hin) as [H2 | H2]; [now apply P12 | now right]. }
  assert (Pre_mono : forall id s1 s2, extends s1 s2 -> Pre id s1 -> Pre id s2).
  { intros id s1 s2 X [Hp Hr]. split; [|assumption].
    now rewrite (extends_payload X). }
  assert (Hspec : node_spec flow (ctx_depth (context s)) fuel Pre Post
                    (executeNode (executeFlow_gas MAX_FLOW_DEPTH) fuel flow)).
  { apply spec_executeNode; try assumption.
    - intros id nd s1 y [Hp Hr] Hfind Hhas Hy. split; [exact Hp|].
      intros Hfound. destruct Hr as (e & He & Hreach); [now rewrite Hfind|].
      exists e. split; [exact He|].
      apply reach_step with (x := id) (node := nd); try assumption.
      now rewrite <- Hp.
    - intros id nd s1 s2 [Hp Hr] Hfind Hhas X P _ x Hin.
      destruct (P x Hin) as [H1 | H1]; [|now right].
      apply mark_executed_In in H1. destruct H1 as [H1 | ->]; [now left|].
      right. apply Hr. now rewrite Hfind. }
  destruct (@spec_branches _ _ flow (ctx_depth (context s)) Pre Post
              Post_same Post_trans Pre_mono fuel
              (executeNode (executeFlow_gas MAX_FLOW_DEPTH) fuel flow)
              node edges Hspec s eq_refl Hk) as (s' & E & X & P & Hin).
  { intros e He Ht. split; [reflexivity|]. intros Hfound.
    exists e. split; [exact He|]. now apply reach_start. }
  exists s'. split; [exact E|]. split; [exact X|]. split; [exact P | exact Hin].
Qed.

(** Past its guards, [executeFlow] is the traversal from the Trigger node. *)
Lemma executeFlow_traverses (flow : Flow) (webhookEvent : WebhookEvent)
      (parentContext : option ExecutionContext) (w : World) (triggerNode : Node) :
  starts flow webhookEvent parentContext triggerNode ->
  exists s',
    executeNode (executeFlow_gas MAX_FLOW_DEPTH) (node_fuel flow) flow
      (node_id triggerNode)
      {| world := w; context := new_context flow webhookEvent parentContext |}
    = (Returned tt, s')
    /\ executeFlow flow webhookEvent parentContext w
       = (Returned (formatResult (context s')), world s').
Proof.
  intros (Hdepth & Hocc & Hvalid & Htrigger & Hevent).
  set (s0 := {| world := w;
                context := new_context flow webhookEvent parentContext |}).
  destruct (@node_ok_executeNode _ _ flow (ctx_depth (context s0))
              (executeFlow_gas MAX_FLOW_DEPTH) (node_fuel flow)
              (@runner_ok_executeFlow_gas _ _ (ctx_depth (context s0)))
              (node_id triggerNode) s0 eq_refl) as (s' & E & _).
  { unfold node_fuel. pose proof (unvisited_le_nodes flow s0). lia. }
  exists s'. split; [exact E|].
  rewrite past_guards by assumption.
  rewrite Hvalid. cbn [List.length Nat.ltb Nat.leb]. rewrite Htrigger. cbv zeta.
  assert (Hcheck : Nat.eqb (ctx_depth (new_context flow webhookEvent parentContext)) 0
                   && negb (Js.opt_eqb (data_event (node_data triggerNode))
                                       (Some (wh_event webhookEvent))) = false).
  { destruct parentContext as [parent|].
    - simpl. replace (ctx_depth parent + 1) with (S (ctx_depth parent)) by lia.
      reflexivity.
    - rewrite (Hevent eq_refl).
      replace (Js.opt_eqb (Some (wh_event webhookEvent)) (Some (wh_event webhookEvent)))
        with true by (symmetry; now apply opt_eqb_eq).
      apply andb_false_r. }
  rewrite Hcheck. fold s0. unfold bind, try_catch. rewrite E. reflexivity.
Qed.

(** [executeFlow] stops at a guard, with errors and nothing else done, or it
    goes to the traversal. *)
Lemma executeFlow_cases (flow : Flow) (webhookEvent : WebhookEvent)
      (parentContext : option ExecutionContext) (w : World) :
  (exists msg msgs,
      executeFlow flow webhookEvent parentContext w
      = (Returned (stopped (msg :: msgs)), w))
  \/ (exists triggerNode, starts flow webhookEvent parentContext triggerNode).
Proof.
  set (c := new_context flow webhookEvent parentContext).
  destruct (Nat.leb MAX_FLOW_DEPTH (ctx_depth c)) eqn:Edepth.
  { left. apply Nat.leb_le in Edepth. eexists _, _.
    apply (depth_guard flow webhookEvent parentContext w Edepth). }
  apply Nat.leb_gt in Edepth.
  destruct (Nat.ltb 1 (occurrences (flow_id flow) (ctx_flowCallStack c))) eqn:Eloop.
  { left. apply Nat.ltb_lt in Eloop. eexists _, _.
    apply (loop_guard flow webhookEvent parentContext w Edepth Eloop). }
  apply Nat.ltb_ge in Eloop.
  destruct (validateFlow flow) as [|issue issues] eqn:Evalid.
  2:{ left. exists issue, issues. rewrite past_guards by assumption.
      rewrite Evalid. cbn [List.length Nat.ltb Nat.leb].
      apply (stopped_at_entry (issue :: issues)). }
  destruct (find (has_type NODE_TYPES.TRIGGER) (flow_nodes flow))
    as [triggerNode|] eqn:Etrigger.
  2:{ left. eexists _, _. rewrite past_guards by assumption.
      rewrite Evalid. cbn [List.length Nat.ltb Nat.leb]. rewrite Etrigger.
      apply (stopped_at_entry ["Flow deve começar com um nó Trigger"]). }
  destruct (Nat.eqb (ctx_depth c) 0
            && negb (Js.opt_eqb (data_event (node_data triggerNode))
                                (Some (wh_event webhookEvent)))) eqn:Echeck.
  { left. eexists _, _. rewrite past_guards by assumption.
    rewrite Evalid. cbn [List.length Nat.ltb Nat.leb]. rewrite Etrigger. cbv zeta.
    fold c. rewrite Echeck.
    apply (stopped_at_entry
             [event_message (data_event (node_data triggerNode))
                            (wh_event webhookEvent)]). }
  right. exists triggerNode. unfold starts. fold c.
  split; [assumption|]. split; [assumption|]. split; [assumption|].
  split; [assumption|].
  intros ->. simpl in Echeck. apply negb_false_iff in Echeck.
  now apply opt_eqb_eq.
Qed.

End ExecutedNodes.

(* ================================================================== *)
(** * The claims *)

Section Claims.
Context {runtime : Runtime} {collaborators : Collaborators}.

(** C1. For every flow and webhook event, with or without a parent context,
    [executeFlow] does not throw across its boundary: it returns a
    [FlowExecutionResult], in which [success] is true if and only if
    [errors] is empty.  The model is not cut short by its fuel: every larger
    amount of gas gives the same result. *)
Theorem executeFlow_always_returns_a_result :
  forall (flow : Flow) (webhookEvent : WebhookEvent)
         (parentContext : option ExecutionContext) (w : World),
  exists (result : FlowExecutionResult) (w' : World),
    executeFlow flow webhookEvent parentContext w = (Returned result, w')
    /\ (success result = true <-> errors result = [])
    /\ (forall gas,
           S MAX_FLOW_DEPTH <= gas ->
           executeFlow_gas gas flow webhookEvent parentContext w
           = (Returned result, w')).
Proof.
  intros flow webhookEvent parentContext w.
  destruct (@executeFlow_gas_returns _ _ (S MAX_FLOW_DEPTH) flow webhookEvent
              parentContext w (enough_gas_executeFlow _))
    as (final & w' & E & _).
  exists (formatResult final), w'. split; [|split].
  - exact E.
  - apply formatResult_success.
  - intros gas Hgas. rewrite executeFlow_gas_irrelevant by assumption. exact E.
Qed.

(** C2. When [executeFlow] is entered with a parent context that puts the
    new call at depth [MAX_FLOW_DEPTH] (= 5) or more, it returns at once: no
    node is executed, no collaborator is called, and the only error is the
    depth-limit message, which names the call stack. *)
Theorem executeFlow_stops_at_depth_limit :
  forall (flow : Flow) (webhookEvent : WebhookEvent)
         (parent : ExecutionContext) (w : World),
    MAX_FLOW_DEPTH <= ctx_depth parent + 1 ->
    executeFlow flow webhookEvent (Some parent) w
    = (Returned
         {| success := false;
            executedNodes := [];
            errors :=
              [ "Limite de profundidade de chamadas atingido (5). Stack: "
                ++ Js.join " → " (ctx_flowCallStack parent ++ [flow_id flow]) ] |},
       w).
Proof.
  intros flow webhookEvent parent w Hdepth.
  now rewrite (@depth_guard _ _ flow webhookEvent (Some parent) w Hdepth).
Qed.

(** C3. When the id of the flow already occurs in the call stack of the
    parent (a CALL_FLOW cycle such as A -> B -> A) and the depth is still
    under the limit, [executeFlow] returns at once: no node of the flow is
    executed, no collaborator is called, and the only error is the
    loop-detected message. *)
Theorem executeFlow_stops_on_repeated_flow :
  forall (flow : Flow) (webhookEvent : WebhookEvent)
         (parent : ExecutionContext) (w : World),
    ctx_depth parent + 1 < MAX_FLOW_DEPTH ->
    In (flow_id flow) (ctx_flowCallStack parent) ->
    executeFlow flow webhookEvent (Some parent) w
    = (Returned
         {| success := false;
            executedNodes := [];
            errors :=
              [ "Loop detectado: Flow " ++ flow_id flow
                ++ " já foi chamado nesta cadeia. Stack: "
                ++ Js.join " → " (ctx_flowCallStack parent ++ [flow_id flow]) ] |},
       w).
Proof.
  intros flow webhookEvent parent w Hdepth Hin.
  rewrite (@loop_guard _ _ flow webhookEvent (Some parent) w Hdepth).
  - reflexivity.
  - simpl. rewrite occurrences_app, occurrences_self.
    apply occurrences_In in Hin. lia.
Qed.

(** C4. Within one execution context a node is executed at most once, even
    when several edges lead to it or the graph has a cycle: (a) dispatching
    a node id that is already in [executedNodes] returns at once and leaves
    the state as it is; (b) a node that is found and not yet executed is put
    in [executedNodes] first, and its body runs in the state so marked;
    (c) a dispatch returns, whatever the graph, and keeps every executed
    node in [executedNodes], without duplicates; (d) the [executedNodes] of
    the result of [executeFlow] has no duplicates. *)
Theorem node_executed_at_most_once :
  forall (executeFlow' : flow_runner) (flow : Flow),
    (forall fuel nodeId s,
        In nodeId (ctx_executedNodes (context s)) ->
        executeNode executeFlow' (S fuel) flow nodeId s = (Returned tt, s))
    /\ (forall fuel nodeId node s,
           ~ In nodeId (ctx_executedNodes (context s)) ->
           find_node flow nodeId = Some node ->
           In nodeId (ctx_executedNodes (context (mark_executed nodeId s)))
           /\ executeNode executeFlow' (S fuel) flow nodeId s
              = try_catch
                  (dispatch_node executeFlow' (executeNode executeFlow' fuel flow)
                                 nodeId node flow)
                  (node_catch (executeNode executeFlow' fuel flow) nodeId node flow)
                  (mark_executed nodeId s))
    /\ (forall fuel nodeId s,
           unvisited flow s < fuel ->
           exists s',
             executeNode (executeFlow_gas MAX_FLOW_DEPTH) fuel flow nodeId s
             = (Returned tt, s')
             /\ (forall x, In x (ctx_executedNodes (context s)) ->
                           In x (ctx_executedNodes (context s')))
             /\ (NoDup (ctx_executedNodes (context s)) ->
                 NoDup (ctx_executedNodes (context s'))))
    /\ (forall webhookEvent parentContext w,
           exists result w',
             executeFlow flow webhookEvent parentContext w = (Returned result, w')
             /\ NoDup (executedNodes result)).
Proof.
  intros executeFlow' flow. split; [|split; [|split]].
  - intros fuel nodeId s Hin. rewrite executeNode_unfold.
    apply set_has_In in Hin. now rewrite Hin.
  - intros fuel nodeId node s Hnot Hfind. split.
    + unfold mark_executed, add_executed. simpl. apply set_add_In.
    + rewrite executeNode_unfold. apply set_has_false in Hnot.
      rewrite Hnot, Hfind. reflexivity.
  - intros fuel nodeId s Hk.
    destruct (@node_ok_executeNode _ _ flow (ctx_depth (context s))
                (executeFlow_gas MAX_FLOW_DEPTH) fuel
                (@runner_ok_executeFlow_gas _ _ (ctx_depth (context s)))
                nodeId s eq_refl Hk) as (s' & E & X & _).
    exists s'. split; [exact E|]. split.
    + intros x. now apply extends_In.
    + apply (ext_NoDup X).
  - intros webhookEvent parentContext w.
    destruct (@executeFlow_gas_returns _ _ (S MAX_FLOW_DEPTH) flow webhookEvent
                parentContext w (enough_gas_executeFlow _))
      as (final & w' & E & X).
    exists (formatResult final), w'. split; [exact E|].
    simpl. apply (ext_NoDup X). simpl.
    rewrite (proj1 (new_context_fresh flow webhookEvent parentContext)).
    constructor.
Qed.

(** C5. Dispatch of a Condition node whose field is configured and whose
    condition evaluates to [conditionMet].  (1) The edges that are followed
    are exactly the edges of the flow that leave the node and carry the
    handle yes (when [conditionMet] is true) or no (when it is false).  The
    dispatch returns; afterwards every target of these edges that is a
    typed node of the flow is in [executedNodes], and every node that the
    dispatch has added to [executedNodes] is reached from the target of one
    of these edges, so that nothing is executed through an edge of the
    other handle; when no edge carries the chosen handle, the state is left
    as it is, with no error recorded.  (2) A run that ends this way is
    successful: when the trigger leads to such a condition only, the result
    has success true and the two nodes executed. *)
Theorem condition_follows_chosen_handle :
  (forall (flow : Flow) (node : Node) (fuel : nat) (s : state)
          (conditionMet : bool),
      field_blank (data_field (node_data node)) = false ->
      unvisited flow s < fuel ->
      evaluateCondition (as_ConditionNodeData (node_data node))
                        (wh_data (ctx_webhookData (context s)))
      = inr conditionMet ->
      let self := executeNode (executeFlow_gas MAX_FLOW_DEPTH) fuel flow in
      let chosen := targetEdges node flow conditionMet in
      (forall e,
          In e chosen <->
          In e (flow_edges flow)
          /\ edge_source e = node_id node
          /\ edge_sourceHandle e
             = Some (if conditionMet then "yes" else "no"))
      /\ exists s',
           executeCondition self node flow s = (Returned tt, s')
           /\ extends s s'
           /\ (forall e targetNode,
                  In e chosen ->
                  find_node flow (edge_target e) = Some targetNode ->
                  Js.truthy (node_type targetNode) = true ->
                  In (edge_target e) (ctx_executedNodes (context s')))
           /\ (forall x,
                  In x (ctx_executedNodes (context s')) ->
                  In x (ctx_executedNodes (context s))
                  \/ exists e,
                       In e chosen
                       /\ reach flow (wh_data (ctx_webhookData (context s)))
                                 (edge_target e) x)
           /\ (chosen = [] -> s' = s))
  /\ (forall (flow : Flow) (webhookEvent : WebhookEvent) (w : World)
             (triggerNode conditionNode : Node) (conditionMet : bool),
         validateFlow flow = [] ->
         find (has_type NODE_TYPES.TRIGGER) (flow_nodes flow) = Some triggerNode ->
         data_event (node_data triggerNode) = Some (wh_event webhookEvent) ->
         find_node flow (node_id triggerNode) = Some triggerNode ->
         getNextNodes (node_id triggerNode) flow = [node_id conditionNode] ->
         find_node flow (node_id conditionNode) = Some conditionNode ->
         node_type conditionNode = Some NODE_TYPES.CONDITION ->
         node_id conditionNode <> node_id triggerNode ->
         field_blank (data_field (node_data conditionNode)) = false ->
         evaluateCondition (as_ConditionNodeData (node_data conditionNode))
                           (wh_data webhookEvent) = inr conditionMet ->
         targetEdges conditionNode flow conditionMet = [] ->
         executeFlow flow webhookEvent None w
         = (Returned
              {| success := true;
                 executedNodes := [node_id triggerNode; node_id conditionNode];
                 errors := [] |},
            w)).
Proof.
  split.
  - intros flow node fuel s conditionMet Hfield Hk Heval self chosen.
    assert (Hunfold : executeCondition self node flow s
                      = promise_all (map (condition_branch self node flow) chosen) s).
    { unfold executeCondition. simpl. rewrite Hfield.
      unfold bind at 1. unfold get_context. unfold bind at 1. rewrite Heval.
      cbn [of_sum]. unfold ret at 1. fold chosen.
      destruct chosen; reflexivity. }
    split.
    + intros e. unfold chosen. rewrite targetEdges_In.
      unfold expectedHandle, CONDITION_HANDLES.YES, CONDITION_HANDLES.NO. tauto.
    + destruct (@fan_out_reaches _ _ flow node chosen fuel s Hk)
        as (s' & E & X & Hreach & Hin).
      exists s'. rewrite Hunfold. split; [exact E|]. split; [exact X|].
      split; [|split; [exact Hreach|]].
      * intros e targetNode He Hfind Htype. apply Hin; [exact He|].
        unfold typed_target. now rewrite Hfind.
      * intros Hnil. rewrite Hnil in E. simpl in E. unfold ret in E. congruence.
  - intros flow webhookEvent w triggerNode conditionNode conditionMet
           Hvalid Htrigger Hevent HfindT Hnext HfindC HtypeC Hneq Hfield Heval Hnone.
    destruct (new_context_depth_top flow webhookEvent) as [Hd Hocc].
    rewrite past_guards; [| rewrite Hd; unfold MAX_FLOW_DEPTH; lia | rewrite Hocc; lia].
    rewrite Hvalid. cbn [List.length Nat.ltb Nat.leb]. rewrite Htrigger.
    cbv zeta. rewrite Hevent.
    replace (Js.opt_eqb (Some (wh_event webhookEvent)) (Some (wh_event webhookEvent)))
      with true by (symmetry; now apply opt_eqb_eq).
    rewrite andb_false_r.
    apply find_some in Htrigger. destruct Htrigger as [HinT HtypeT].
    unfold node_fuel.
    destruct (flow_nodes flow) as [|n0 nodes] eqn:Enodes; [contradiction|].
    assert (HtypeC' : has_type NODE_TYPES.TRIGGER conditionNode = false
                      /\ has_type NODE_TYPES.CONDITION conditionNode = true).
    { unfold has_type. rewrite HtypeC. split; reflexivity. }
    destruct HtypeC' as [HnotT HisC].
    assert (Hhas : set_has [node_id triggerNode] (node_id conditionNode) = false).
    { apply set_has_false. intros [Heq | []]. now apply Hneq. }
    unfold bind, try_catch, return_result.
    rewrite executeNode_unfold. cbn [context new_context ctx_executedNodes set_has existsb].
    rewrite HfindT. unfold bind, try_catch.
    cbn [add_executed context ctx_executedNodes set_add set_has existsb app world
         ctx_webhookData ctx_errors ctx_flowCallStack ctx_depth].
    unfold dispatch_node. rewrite HtypeT. unfold executeTrigger. rewrite Hnext.
    cbn [List.length Nat.eqb for_each]. unfold bind.
    rewrite executeNode_unfold.
    cbn [context ctx_executedNodes]. rewrite Hhas, HfindC. unfold bind, try_catch.
    cbn [add_executed context ctx_executedNodes set_add world
         ctx_webhookData ctx_errors ctx_flowCallStack ctx_depth].
    unfold set_add. rewrite Hhas. unfold dispatch_node. rewrite HnotT, HisC.
    unfold executeCondition. cbn [as_ConditionNodeData cond_field]. rewrite Hfield.
    unfold bind, get_context. cbn [context ctx_webhookData].
    cbn [as_ConditionNodeData] in Heval. rewrite Heval. cbn [of_sum]. unfold ret.
    rewrite Hnone. reflexivity.
Qed.

(** C6. (a) At depth 0 (no parent context), when the event configured in
    the Trigger node is not the event received, [executeFlow] records one
    error string and returns with no node executed and no collaborator
    called.  (b) At depth > 0 (a parent context is given) the event is not
    compared: whatever event the Trigger is configured with, the result is
    the one of the traversal from the Trigger node, which is the first
    executed node. *)
Theorem trigger_event_checked_at_depth_zero_only :
  (forall (flow : Flow) (webhookEvent : WebhookEvent) (w : World)
          (triggerNode : Node),
      validateFlow flow = [] ->
      find (has_type NODE_TYPES.TRIGGER) (flow_nodes flow) = Some triggerNode ->
      data_event (node_data triggerNode) <> Some (wh_event webhookEvent) ->
      executeFlow flow webhookEvent None w
      = (Returned
           {| success := false;
              executedNodes := [];
              errors :=
                [ "Evento não corresponde: esperado " ++ Js.dq
                  ++ Js.show (data_event (node_data triggerNode)) ++ Js.dq
                  ++ ", recebido " ++ Js.dq ++ wh_event webhookEvent ++ Js.dq ] |},
         w))
  /\ (forall (flow : Flow) (webhookEvent : WebhookEvent)
             (parent : ExecutionContext) (w : World) (triggerNode : Node),
         ctx_depth parent + 1 < MAX_FLOW_DEPTH ->
         ~ In (flow_id flow) (ctx_flowCallStack parent) ->
         validateFlow flow = [] ->
         find (has_type NODE_TYPES.TRIGGER) (flow_nodes flow) = Some triggerNode ->
         exists s' rest,
           executeNode (executeFlow_gas MAX_FLOW_DEPTH) (node_fuel flow) flow
             (node_id triggerNode)
             {| world := w;
                context := new_context flow webhookEvent (Some parent) |}
           = (Returned tt, s')
           /\ executeFlow flow webhookEvent (Some parent) w
              = (Returned (formatResult (context s')), world s')
           /\ executedNodes (formatResult (context s'))
              = node_id triggerNode :: rest).
Proof.
  split.
  - intros flow webhookEvent w triggerNode Hvalid Htrigger Hevent.
    destruct (new_context_depth_top flow webhookEvent) as [Hd Hocc].
    rewrite past_guards; [| rewrite Hd; unfold MAX_FLOW_DEPTH; lia | rewrite Hocc; lia].
    rewrite Hvalid. cbn [List.length Nat.ltb Nat.leb]. rewrite Htrigger.
    cbv zeta. apply opt_eqb_neq in Hevent. rewrite Hevent.
    reflexivity.
  - intros flow webhookEvent parent w triggerNode Hdepth Hnew Hvalid Htrigger.
    rewrite past_guards.
    2:{ simpl. exact Hdepth. }
    2:{ simpl. rewrite occurrences_app, occurrences_self.
        destruct (occurrences (flow_id flow) (ctx_flowCallStack parent)) eqn:E;
          [lia|].
        exfalso. apply Hnew. apply occurrences_In. lia. }
    rewrite Hvalid. cbn [List.length Nat.ltb Nat.leb]. rewrite Htrigger.
    cbv zeta. cbn [new_context ctx_depth].
    replace (ctx_depth parent + 1) with (S (ctx_depth parent)) by lia.
    cbn [Nat.eqb andb].
    apply find_some in Htrigger. destruct Htrigger as [HinT _].
    destruct (find_node flow (node_id triggerNode)) as [node|] eqn:Efind;
      [| now apply find_node_of_member in HinT].
    set (s0 := {| world := w;
                  context :=
                    {| ctx_webhookData := webhookEvent;
                       ctx_executedNodes := [];
                       ctx_errors := [];
                       ctx_flowCallStack :=
                         (ctx_flowCallStack parent ++ [flow_id flow])%list;
                       ctx_depth := S (ctx_depth parent) |} |}).
    destruct (@executeNode_marks _ _ flow (executeFlow_gas MAX_FLOW_DEPTH)
                (List.length (flow_nodes flow)) (node_id triggerNode) node s0)
      as (s' & rest & E & X & Hexec).
    + apply runner_ok_executeFlow_gas.
    + pose proof (unvisited_le_nodes flow s0). lia.
    + reflexivity.
    + exact Efind.
    + exists s', rest. split; [|split].
      * exact E.
      * unfold node_fuel, bind, try_catch. rewrite E. reflexivity.
      * simpl. rewrite Hexec. reflexivity.
Qed.

(** C7, as the code has it.  A CALL_FLOW action whose [flowId] is missing,
    or whose target flow the repository does not have, raises a
    [ValidationError] that leaves [executeCallFlowAction] as it is (it is not
    wrapped in another error).  [executeAction] catches it like every other
    failure of an action: it records the message in [context.errors] and
    goes on to the next nodes.  The error reaches neither the [catch] of
    [executeNode] nor that of [executeFlow]. *)
Theorem call_flow_validation_error_is_recorded :
  (forall (executeFlow' : flow_runner) (self : string -> M unit)
          (node : Node) (flow : Flow) (s : state),
      data_type (node_data node) = Some ACTION_TYPES.CALL_FLOW ->
      Js.truthy (config_flowId (node_data node)) = false ->
      let msg := "Nó de ação " ++ node_id node
                 ++ ": FlowId não configurado para CALL_FLOW" in
      executeCallFlowAction executeFlow' (node_data node) (node_id node) s
      = (Thrown (ValidationError msg "flowId"), s)
      /\ executeAction executeFlow' self node flow s
         = for_each (getNextNodes (node_id node) flow) self
             (record_error
                ("Erro inesperado ao executar ação " ++ node_id node ++ ": " ++ msg)
                s))
  /\ (forall (executeFlow' : flow_runner) (self : string -> M unit)
             (node : Node) (flow : Flow) (s : state) (flowId : string) (w' : World),
         data_type (node_data node) = Some ACTION_TYPES.CALL_FLOW ->
         config_flowId (node_data node) = Some flowId ->
         flowId <> EmptyString ->
         findById flowId (world s) = (inr None, w') ->
         let msg := "Nó de ação " ++ node_id node ++ ": Flow " ++ flowId
                    ++ " não encontrado" in
         let s1 := {| world := w'; context := context s |} in
         executeCallFlowAction executeFlow' (node_data node) (node_id node) s
         = (Thrown (ValidationError msg "flowId"), s1)
         /\ executeAction executeFlow' self node flow s
            = for_each (getNextNodes (node_id node) flow) self
                (record_error
                   ("Erro inesperado ao executar ação " ++ node_id node ++ ": "
                    ++ msg)
                   s1)).
Proof.
  split.
  - intros executeFlow' self node flow s Htype Hmissing msg.
    assert (Hthrow :
              executeCallFlowAction executeFlow' (node_data node) (node_id node) s
              = (Thrown (ValidationError msg "flowId"), s)).
    { unfold executeCallFlowAction.
      destruct (config_flowId (node_data node)) as [flowId|]; [|reflexivity].
      rewrite Hmissing. reflexivity. }
    split; [exact Hthrow|].
    unfold executeAction. rewrite Htype. cbn [Js.truthy ACTION_TYPES.CALL_FLOW
      Js.is_empty negb]. unfold bind at 1. unfold try_catch, dispatch_action.
    rewrite Htype. cbn [Js.opt_eqb]. cbv [ACTION_TYPES.CALL_FLOW ACTION_TYPES.LOG
      ACTION_TYPES.HTTP_REQUEST ACTION_TYPES.SEND_EMAIL]. cbn [String.eqb Ascii.eqb Bool.eqb].
    fold ACTION_TYPES.CALL_FLOW. rewrite Hthrow. reflexivity.
  - intros executeFlow' self node flow s flowId w' Htype Hid Hne Hfind msg s1.
    assert (Htruthy : Js.truthy (Some flowId) = true).
    { destruct flowId; [contradiction | reflexivity]. }
    assert (Hthrow :
              executeCallFlowAction executeFlow' (node_data node) (node_id node) s
              = (Thrown (ValidationError msg "flowId"), s1)).
    { unfold executeCallFlowAction. rewrite Hid, Htruthy. cbn [negb].
      unfold try_catch, callFlow_try. unfold bind at 1. unfold ask_or_throw.
      rewrite Hfind. reflexivity. }
    split; [exact Hthrow|].
    unfold executeAction. rewrite Htype. cbn [Js.truthy ACTION_TYPES.CALL_FLOW
      Js.is_empty negb]. unfold bind at 1. unfold try_catch at 1. unfold dispatch_action.
    rewrite Htype. cbn [Js.opt_eqb]. cbv [ACTION_TYPES.CALL_FLOW ACTION_TYPES.LOG
      ACTION_TYPES.HTTP_REQUEST ACTION_TYPES.SEND_EMAIL]. cbn [String.eqb Ascii.eqb Bool.eqb].
    fold ACTION_TYPES.CALL_FLOW. rewrite Hthrow. reflexivity.
Qed.

(** C8, as the code has it.  (1) For every Condition node of a flow that has
    outgoing edges whose [sourceHandle] is missing or empty, validation
    reports one issue that gives their number.  (2) Any validation issue
    stops the run before a node executes: past the recursion guards the
    result has no executed node and the issues as its errors, and no
    collaborator is called.  (3) A flow with exactly one Trigger in which
    every edge leaving a Condition node carries a non-empty handle has no
    issue, whatever the handles are: a Condition node with a yes edge only
    (or a no edge only) is accepted. *)
Theorem validation_reports_edges_without_handle :
  (forall (flow : Flow) (conditionNode : Node),
      In conditionNode (flow_nodes flow) ->
      node_type conditionNode = Some NODE_TYPES.CONDITION ->
      let edgesWithoutHandle :=
        filter (fun e => negb (Js.truthy (edge_sourceHandle e)))
               (filter (fun e => String.eqb (edge_source e) (node_id conditionNode))
                       (flow_edges flow)) in
      edgesWithoutHandle <> [] ->
      In ("Condition node " ++ node_id conditionNode ++ " tem "
          ++ Js.nat_to_string (List.length edgesWithoutHandle)
          ++ " edge(s) sem sourceHandle. "
          ++ "Todas as edges de condition nodes devem ter sourceHandle 'yes' ou 'no'")
         (validateFlow flow))
  /\ (forall (flow : Flow) (webhookEvent : WebhookEvent)
             (parentContext : option ExecutionContext) (w : World),
         ctx_depth (new_context flow webhookEvent parentContext) < MAX_FLOW_DEPTH ->
         occurrences (flow_id flow)
           (ctx_flowCallStack (new_context flow webhookEvent parentContext)) <= 1 ->
         validateFlow flow <> [] ->
         executeFlow flow webhookEvent parentContext w
         = (Returned
              {| success := false;
                 executedNodes := [];
                 errors := validateFlow flow |},
            w))
  /\ (forall (flow : Flow),
         List.length (filter (has_type NODE_TYPES.TRIGGER) (flow_nodes flow)) = 1 ->
         (forall conditionNode e,
             In conditionNode (flow_nodes flow) ->
             node_type conditionNode = Some NODE_TYPES.CONDITION ->
             In e (flow_edges flow) ->
             edge_source e = node_id conditionNode ->
             Js.truthy (edge_sourceHandle e) = true) ->
         validateFlow flow = []).
Proof.
  split; [|split].
  - intros flow conditionNode Hin Htype edgesWithoutHandle Hsome.
    unfold validateFlow.
    destruct (flow_nodes flow) as [|n0 nodes] eqn:Enodes; [contradiction|].
    cbn [List.length Nat.eqb]. apply in_or_app. right.
    apply in_flat_map. exists conditionNode. split.
    + apply filter_In. split; [assumption|]. unfold has_type. rewrite Htype.
      reflexivity.
    + unfold condition_issues. fold edgesWithoutHandle.
      destruct edgesWithoutHandle as [|e0 rest]; [contradiction|].
      cbn [List.length Nat.ltb Nat.leb]. now left.
  - intros flow webhookEvent parentContext w Hdepth Hocc Hissues.
    rewrite past_guards; [| assumption | assumption].
    destruct (validateFlow flow) as [|issue issues] eqn:Evalid; [contradiction|].
    cbn [List.length Nat.ltb Nat.leb].
    apply (stopped_at_entry (issue :: issues)).
  - intros flow Hone Hedges. unfold validateFlow.
    destruct (flow_nodes flow) as [|n0 nodes] eqn:Enodes; [discriminate|].
    cbn [List.length Nat.eqb]. rewrite Hone. cbn [Nat.eqb Nat.ltb Nat.leb app].
    apply flat_map_all_nil. intros conditionNode Hc.
    apply filter_In in Hc. destruct Hc as [Hin Htype].
    unfold has_type in Htype. apply opt_eqb_eq in Htype.
    unfold condition_issues.
    replace (filter (fun e => negb (Js.truthy (edge_sourceHandle e)))
               (filter (fun e => String.eqb (edge_source e) (node_id conditionNode))
                  (flow_edges flow))) with (@nil Edge); [reflexivity|].
    symmetry. apply filter_all_false. intros e He. apply filter_In in He.
    destruct He as [He Hsrc]. apply String.eqb_eq in Hsrc.
    rewrite (Hedges conditionNode e Hin Htype He Hsrc). reflexivity.
Qed.

(** C9, as the code has it.  For a Condition node whose field is missing or
    blank, [evaluateCondition] gives false; but [executeCondition], which
    dispatches the node, does not come to evaluate it: it records an error in
    [context.errors] and returns without following any edge.  A run in
    which this happened is not successful. *)
Theorem blank_field_is_recorded_as_error :
  forall (self : string -> M unit) (node : Node) (flow : Flow) (s : state)
         (data : record),
    field_blank (data_field (node_data node)) = true ->
    let msg := "Nó de condição " ++ node_id node
               ++ ": Campo do payload não configurado. Configure o campo no editor do nó." in
    evaluateCondition (as_ConditionNodeData (node_data node)) data = inr false
    /\ executeCondition self node flow s = (Returned tt, record_error msg s)
    /\ ctx_executedNodes (context (record_error msg s))
       = ctx_executedNodes (context s)
    /\ (forall s', extends (record_error msg s) s' ->
                   success (formatResult (context s')) = false).
Proof.
  intros self node flow s data Hblank msg. split; [|split; [|split]].
  - unfold evaluateCondition. cbn [as_ConditionNodeData cond_field].
    destruct (data_field (node_data node)) as [field|]; [|reflexivity].
    now rewrite Hblank.
  - unfold executeCondition. cbn [as_ConditionNodeData cond_field].
    rewrite Hblank. reflexivity.
  - reflexivity.
  - intros s' X. destruct (ext_errors X) as [more Hmore].
    unfold formatResult. cbn [success]. rewrite Hmore.
    unfold record_error, push_error, push_errors. cbn [snd context ctx_errors].
    rewrite !length_app. cbn [List.length]. apply Nat.eqb_neq. lia.
Qed.

(** C10. For every payload and literal, when the field path of a condition
    does not resolve ([getNestedValue] gives [undefined] or [null]: a key is
    neither a property of the value that is read nor one that it inherits
    from its prototypes, an intermediate value is not an object, or the
    last value is null), [evaluateCondition] returns false for every
    operator, and converts nothing.  In particular
    EQUALS and NOT_EQUALS are both false there: the second is not the
    negation of the first. *)
Theorem unresolved_field_is_false_for_every_operator :
  forall (field : string) (value : option literal) (data : record),
    is_nullish (getNestedValue data (fieldPath_of field)) = true ->
    (forall operator : option string,
        evaluateCondition
          {| cond_field := Some field; cond_operator := operator;
             cond_value := value |} data = inr false)
    /\ evaluateCondition
         {| cond_field := Some field;
            cond_operator := Some CONDITION_OPERATORS.NOT_EQUALS;
            cond_value := value |} data
       = evaluateCondition
           {| cond_field := Some field;
              cond_operator := Some CONDITION_OPERATORS.EQUALS;
              cond_value := value |} data.
Proof.
  intros field value data Hnull.
  assert (Hall : forall operator : option string,
             evaluateCondition
               {| cond_field := Some field; cond_operator := operator;
                  cond_value := value |} data = inr false).
  { intros operator. unfold evaluateCondition. cbn [cond_field cond_value cond_operator].
    destruct (field_blank (Some field)); [reflexivity|].
    now rewrite Hnull. }
  split; [exact Hall|]. now rewrite !Hall.
Qed.

End Claims.

(* ================================================================== *)
(** * The claims on sample flows *)

#[local] Existing Instance Sample.runtime.
#[local] Existing Instance Sample.collaborators.

(** A run of the lead flow returns a result, with gas 6 as with gas 9. *)
Lemma always_returns_on_sample :
  exists result w',
    executeFlow Sample.lead_flow (Sample.lead_event "whatsapp") None Sample.no_log
    = (Returned result, w')
    /\ (success result = true <-> errors result = [])
    /\ executeFlow_gas 9 Sample.lead_flow (Sample.lead_event "whatsapp") None
         Sample.no_log
       = (Returned result, w').
Proof.
  destruct (executeFlow_always_returns_a_result Sample.lead_flow
              (Sample.lead_event "whatsapp") None Sample.no_log)
    as (result & w' & E & Hsuccess & Hgas).
  exists result, w'. split; [exact E|]. split; [exact Hsuccess|].
  apply Hgas. vm_compute. lia.
Defined.

(** A call at depth 5 of the flow A: it stops at the depth limit. *)
Lemma depth_limit_on_sample :
  MAX_FLOW_DEPTH
  <= ctx_depth (Sample.context_at (Sample.lead_event "website")
                                  ["1"; "2"; "3"; "4"; "5"]) + 1
  /\ executeFlow Sample.flow_A (Sample.lead_event "website")
       (Some (Sample.context_at (Sample.lead_event "website")
                                ["1"; "2"; "3"; "4"; "5"])) Sample.no_log
     = (Returned
          {| success := false;
             executedNodes := [];
             errors :=
               [ "Limite de profundidade de chamadas atingido (5). Stack: 1 → 2 → 3 → 4 → 5 → A" ] |},
        Sample.no_log).
Proof.
  split.
  - vm_compute. lia.
  - apply (executeFlow_stops_at_depth_limit Sample.flow_A (Sample.lead_event "website")
             (Sample.context_at (Sample.lead_event "website")
                                ["1"; "2"; "3"; "4"; "5"]) Sample.no_log).
    vm_compute. lia.
Defined.

(** The flow A called again at the end of the chain A -> B -> A. *)
Lemma repeated_flow_on_sample :
  In (flow_id Sample.flow_A) ["A"; "B"]
  /\ executeFlow Sample.flow_A (Sample.lead_event "website")
       (Some (Sample.context_at (Sample.lead_event "website") ["A"; "B"])) Sample.no_log
     = (Returned
          {| success := false;
             executedNodes := [];
             errors :=
               [ "Loop detectado: Flow A já foi chamado nesta cadeia. Stack: A → B → A" ] |},
        Sample.no_log).
Proof.
  split.
  - simpl. now left.
  - apply (executeFlow_stops_on_repeated_flow Sample.flow_A
             (Sample.lead_event "website")
             (Sample.context_at (Sample.lead_event "website") ["A"; "B"]) Sample.no_log).
    + vm_compute. lia.
    + simpl. now left.
Defined.

(** The whole cycle, from the top: A calls B, B calls A, and the third call
    is the one that the loop guard stops.  Its failure is written to the
    execution log and does not reach the results of B and A. *)
Example cycle_A_B_A :
  executeFlow Sample.flow_A (Sample.lead_event "website") None Sample.no_log
  = (Returned
       {| success := true;
          executedNodes := ["trigger"; "call"; "end"];
          errors := [] |},
     Sample.log_of
     [ ("log-A",
        {| success := false;
           executedNodes := [];
           errors :=
             [ "Loop detectado: Flow A já foi chamado nesta cadeia. Stack: A → B → A" ] |});
       ("log-B",
        {| success := true;
           executedNodes := ["trigger"; "call"; "end"];
           errors := [] |}) ]).
Proof. vm_compute. reflexivity. Qed.

(** Dispatching the trigger of the lead flow a second time does nothing; a
    run of the flow with a cycle executes each node once. *)
Lemma at_most_once_on_sample :
  In "trigger" (ctx_executedNodes (context Sample.after_trigger))
  /\ executeNode (executeFlow_gas MAX_FLOW_DEPTH) 4 Sample.lead_flow "trigger"
       Sample.after_trigger
     = (Returned tt, Sample.after_trigger).
Proof.
  split.
  - simpl. now left.
  - apply (proj1 (node_executed_at_most_once (executeFlow_gas MAX_FLOW_DEPTH)
                    Sample.lead_flow) 3 "trigger" Sample.after_trigger).
    simpl. now left.
Defined.

Example cyclic_flow_runs_each_node_once :
  executeFlow Sample.cyclic_flow (Sample.lead_event "website") None Sample.no_log
  = (Returned
       {| success := true;
          executedNodes := ["trigger"; "first"; "second"];
          errors := [] |},
     Sample.no_log).
Proof. vm_compute. reflexivity. Qed.

(** The lead flow on a lead that came by whatsapp: the condition follows its
    yes edge and the action is executed.  On a lead from the website no edge
    carries the chosen handle, and the run ends after the condition with
    success. *)
Lemma chosen_handle_on_sample :
  (field_blank (data_field (node_data Sample.lead_condition)) = false
   /\ unvisited Sample.lead_flow Sample.after_trigger < 4
   /\ evaluateCondition (as_ConditionNodeData (node_data Sample.lead_condition))
        (wh_data (ctx_webhookData (context Sample.after_trigger)))
      = inr true
   /\ exists s',
        executeCondition (Sample.dispatcher Sample.lead_flow) Sample.lead_condition
          Sample.lead_flow Sample.after_trigger = (Returned tt, s')
        /\ In "action" (ctx_executedNodes (context s')))
  /\ evaluateCondition (as_ConditionNodeData (node_data Sample.lead_condition))
       (wh_data (Sample.lead_event "website"))
     = inr false
  /\ executeFlow Sample.lead_flow (Sample.lead_event "website") None Sample.no_log
     = (Returned
          {| success := true;
             executedNodes := ["trigger"; "condition"];
             errors := [] |},
        Sample.no_log).
Proof.
  assert (H1 : field_blank (data_field (node_data Sample.lead_condition)) = false)
    by (vm_compute; reflexivity).
  assert (H2 : unvisited Sample.lead_flow Sample.after_trigger < 4)
    by (vm_compute; lia).
  assert (H3 : evaluateCondition
                 (as_ConditionNodeData (node_data Sample.lead_condition))
                 (wh_data (ctx_webhookData (context Sample.after_trigger)))
               = inr true)
    by (vm_compute; reflexivity).
  assert (H4 : evaluateCondition
                 (as_ConditionNodeData (node_data Sample.lead_condition))
                 (wh_data (Sample.lead_event "website"))
               = inr false)
    by (vm_compute; reflexivity).
  split; [|split; [exact H4|]].
  - split; [exact H1|]. split; [exact H2|]. split; [exact H3|].
    destruct (proj1 condition_follows_chosen_handle Sample.lead_flow
                Sample.lead_condition 4 Sample.after_trigger true H1 H2 H3)
      as (_ & s' & E & _ & Hvisit & _).
    exists s'. split; [exact E|].
    apply (Hvisit (Sample.edge "condition" "action" (Some CONDITION_HANDLES.YES))
                  (Sample.action "action" ACTION_TYPES.HTTP_REQUEST
                     (Sample.http_config "https://example.com/hook"))).
    + vm_compute. now left.
    + vm_compute. reflexivity.
    + vm_compute. reflexivity.
  - apply (proj2 condition_follows_chosen_handle Sample.lead_flow
             (Sample.lead_event "website") Sample.no_log
             (Sample.trigger "trigger" "lead.converted") Sample.lead_condition
             false);
      try (vm_compute; reflexivity).
    vm_compute. discriminate.
Defined.

(** The flow A on another event than the one of its trigger: refused at the
    top, executed when another flow calls it. *)
Lemma trigger_event_on_sample :
  executeFlow Sample.flow_A
    {| wh_id := "evt-2"; wh_event := "lead.lost"; wh_data := [] |} None Sample.no_log
  = (Returned
       {| success := false;
          executedNodes := [];
          errors :=
            [ "Evento não corresponde: esperado " ++ Js.dq ++ "lead.converted" ++ Js.dq
              ++ ", recebido " ++ Js.dq ++ "lead.lost" ++ Js.dq ] |},
     Sample.no_log)
  /\ exists result w' rest,
       executeFlow Sample.flow_A
         {| wh_id := "evt-2"; wh_event := "lead.lost"; wh_data := [] |}
         (Some (Sample.context_at (Sample.lead_event "website") ["Z"])) Sample.no_log
       = (Returned result, w')
       /\ executedNodes result = "trigger" :: rest.
Proof.
  split.
  - apply (proj1 trigger_event_checked_at_depth_zero_only Sample.flow_A
             {| wh_id := "evt-2"; wh_event := "lead.lost"; wh_data := [] |}
             Sample.no_log (Sample.trigger "trigger" "lead.converted")).
    + vm_compute. reflexivity.
    + vm_compute. reflexivity.
    + vm_compute. discriminate.
  - destruct (proj2 trigger_event_checked_at_depth_zero_only Sample.flow_A
                {| wh_id := "evt-2"; wh_event := "lead.lost"; wh_data := [] |}
                (Sample.context_at (Sample.lead_event "website") ["Z"])
                Sample.no_log (Sample.trigger "trigger" "lead.converted"))
      as (s' & rest & _ & E & Hexec).
    + vm_compute. lia.
    + vm_compute. intros [H | []]. discriminate H.
    + vm_compute. reflexivity.
    + vm_compute. reflexivity.
    + exists (formatResult (context s')), (world s'), rest. now split.
Defined.

(** C7 on a sample: a flow whose CALL_FLOW action has no [flowId].  The
    validation error does not leave [executeAction], which returns; the run
    records the error under the message of the [catch] of [executeAction]
    (not under "Erro fatal ao executar flow", the message of the [catch] of
    [executeFlow]) and goes on to the end node. *)
Lemma call_flow_error_stays_in_executeAction :
  fst (executeAction (executeFlow_gas MAX_FLOW_DEPTH)
         (Sample.dispatcher (Sample.calling_flow "X" None))
         (Sample.call_node None) (Sample.calling_flow "X" None)
         (Sample.running "X" "website" ["trigger"; "call"]))
  = Returned tt
  /\ executeFlow (Sample.calling_flow "X" None) (Sample.lead_event "website")
       None Sample.no_log
     = (Returned
          {| success := false;
             executedNodes := ["trigger"; "call"; "end"];
             errors :=
               [ "Erro inesperado ao executar ação call: Nó de ação call: FlowId não configurado para CALL_FLOW" ] |},
        Sample.no_log).
Proof. split; vm_compute; reflexivity. Qed.

(** The amended C7 on the same flow, and on one that calls a flow that the
    repository does not have. *)
Lemma call_flow_error_recorded_on_sample :
  executeAction (executeFlow_gas MAX_FLOW_DEPTH)
    (Sample.dispatcher (Sample.calling_flow "X" None))
    (Sample.call_node None) (Sample.calling_flow "X" None)
    (Sample.running "X" "website" ["trigger"; "call"])
  = for_each ["end"] (Sample.dispatcher (Sample.calling_flow "X" None))
      (record_error
         "Erro inesperado ao executar ação call: Nó de ação call: FlowId não configurado para CALL_FLOW"
         (Sample.running "X" "website" ["trigger"; "call"]))
  /\ executeAction (executeFlow_gas MAX_FLOW_DEPTH)
       (Sample.dispatcher (Sample.calling_flow "X" (Some "nope")))
       (Sample.call_node (Some "nope")) (Sample.calling_flow "X" (Some "nope"))
       (Sample.running "X" "website" ["trigger"; "call"])
     = for_each ["end"] (Sample.dispatcher (Sample.calling_flow "X" (Some "nope")))
         (record_error
            "Erro inesperado ao executar ação call: Nó de ação call: Flow nope não encontrado"
            (Sample.running "X" "website" ["trigger"; "call"])).
Proof.
  split.
  - apply (proj1 call_flow_validation_error_is_recorded
             (executeFlow_gas MAX_FLOW_DEPTH)
             (Sample.dispatcher (Sample.calling_flow "X" None))
             (Sample.call_node None) (Sample.calling_flow "X" None)
             (Sample.running "X" "website" ["trigger"; "call"])).
    + reflexivity.
    + reflexivity.
  - apply (proj2 call_flow_validation_error_is_recorded
             (executeFlow_gas MAX_FLOW_DEPTH)
             (Sample.dispatcher (Sample.calling_flow "X" (Some "nope")))
             (Sample.call_node (Some "nope")) (Sample.calling_flow "X" (Some "nope"))
             (Sample.running "X" "website" ["trigger"; "call"])
             "nope" Sample.no_log).
    + reflexivity.
    + reflexivity.
    + discriminate.
    + reflexivity.
Defined.

(** C8 on a sample: the condition of the flow has an edge whose handle is
    neither yes nor no; validation reports nothing and the run goes on. *)
Lemma invalid_handle_is_not_reported :
  In Sample.lead_condition (flow_nodes Sample.maybe_flow)
  /\ In (Sample.edge "condition" "end" (Some "maybe")) (flow_edges Sample.maybe_flow)
  /\ validateFlow Sample.maybe_flow = []
  /\ executeFlow Sample.maybe_flow (Sample.lead_event "whatsapp") None Sample.no_log
     = (Returned
          {| success := true;
             executedNodes := ["trigger"; "condition"];
             errors := [] |},
        Sample.no_log).
Proof.
  split; [|split; [|split]].
  - simpl. right. now left.
  - simpl. right. now left.
  - vm_compute. reflexivity.
  - vm_compute. reflexivity.
Qed.

(** The amended C8 on samples: an edge without handle is reported and stops
    the run; the lead flow, whose condition has a yes edge only, is valid. *)
Lemma edges_without_handle_on_sample :
  executeFlow Sample.unhandled_flow (Sample.lead_event "whatsapp") None Sample.no_log
  = (Returned
       {| success := false;
          executedNodes := [];
          errors :=
            [ "Condition node condition tem 1 edge(s) sem sourceHandle. Todas as edges de condition nodes devem ter sourceHandle 'yes' ou 'no'" ] |},
     Sample.no_log)
  /\ validateFlow Sample.lead_flow = [].
Proof.
  split.
  - apply (proj1 (proj2 validation_reports_edges_without_handle)
             Sample.unhandled_flow (Sample.lead_event "whatsapp") None Sample.no_log).
    + vm_compute. lia.
    + vm_compute. lia.
    + vm_compute. discriminate.
  - apply (proj2 (proj2 validation_reports_edges_without_handle) Sample.lead_flow).
    + vm_compute. reflexivity.
    + intros conditionNode e Hnode Htype Hedge Hsource.
      simpl in Hnode, Hedge.
      destruct Hnode as [<- | [<- | [<- | [<- | []]]]]; try discriminate Htype.
      destruct Hedge as [<- | [<- | [<- | []]]]; try discriminate Hsource.
      reflexivity.
Defined.

(** C9 on a sample: the field of the condition is blank and nothing else
    fails, yet the run is not successful; the no edge is not followed. *)
Lemma blank_field_makes_the_run_fail :
  field_blank (data_field (node_data Sample.blank_condition)) = true
  /\ executeFlow Sample.blank_flow (Sample.lead_event "website") None Sample.no_log
     = (Returned
          {| success := false;
             executedNodes := ["trigger"; "condition"];
             errors :=
               [ "Nó de condição condition: Campo do payload não configurado. Configure o campo no editor do nó." ] |},
        Sample.no_log).
Proof. split; vm_compute; reflexivity. Qed.

(** The amended C9 on the same condition node. *)
Lemma blank_field_recorded_on_sample :
  field_blank (data_field (node_data Sample.blank_condition)) = true
  /\ executeCondition (Sample.dispatcher Sample.blank_flow) Sample.blank_condition
       Sample.blank_flow (Sample.running "blank" "website" ["trigger"; "condition"])
     = (Returned tt,
        record_error
          "Nó de condição condition: Campo do payload não configurado. Configure o campo no editor do nó."
          (Sample.running "blank" "website" ["trigger"; "condition"])).
Proof.
  assert (H : field_blank (data_field (node_data Sample.blank_condition)) = true)
    by (vm_compute; reflexivity).
  split; [exact H|].
  apply (blank_field_is_recorded_as_error (Sample.dispatcher Sample.blank_flow)
           Sample.blank_condition Sample.blank_flow
           (Sample.running "blank" "website" ["trigger"; "condition"]) [] H).
Defined.

(** C10 on a sample payload [{lead: {source: "whatsapp", score: null}}]: a
    missing key, an intermediate value that is not an object, and a null
    value.  EQUALS and NOT_EQUALS are both false on each of them. *)
Lemma unresolved_field_on_sample :
  is_nullish (getNestedValue (wh_data (Sample.lead_event "whatsapp"))
                             (fieldPath_of "data.lead.missing")) = true
  /\ evaluateCondition
       {| cond_field := Some "data.lead.missing";
          cond_operator := Some CONDITION_OPERATORS.NOT_EQUALS;
          cond_value := Some (LStr "whatsapp") |}
       (wh_data (Sample.lead_event "whatsapp")) = inr false
  /\ evaluateCondition
       {| cond_field := Some "data.lead.source.name";
          cond_operator := Some CONDITION_OPERATORS.EQUALS;
          cond_value := Some (LStr "whatsapp") |}
       (wh_data (Sample.lead_event "whatsapp")) = inr false
  /\ evaluateCondition
       {| cond_field := Some "lead.score";
          cond_operator := Some CONDITION_OPERATORS.NOT_EQUALS;
          cond_value := Some (LStr "whatsapp") |}
       (wh_data (Sample.lead_event "whatsapp")) = inr false.
Proof.
  split; [vm_compute; reflexivity|]. split; [|split].
  - apply (proj1 (unresolved_field_is_false_for_every_operator "data.lead.missing"
                    (Some (LStr "whatsapp")) (wh_data (Sample.lead_event "whatsapp"))
                    eq_refl)).
  - apply (proj1 (unresolved_field_is_false_for_every_operator "data.lead.source.name"
                    (Some (LStr "whatsapp")) (wh_data (Sample.lead_event "whatsapp"))
                    eq_refl)).
  - apply (proj1 (unresolved_field_is_false_for_every_operator "lead.score"
                    (Some (LStr "whatsapp")) (wh_data (Sample.lead_event "whatsapp"))
                    eq_refl)).
Defined.

(** On a field that resolves, NOT_EQUALS is the negation of EQUALS. *)
Example resolved_field_on_sample :
  evaluateCondition
    {| cond_field := Some "data.lead.source";
       cond_operator := Some CONDITION_OPERATORS.EQUALS;
       cond_value := Some (LStr "whatsapp") |}
    (wh_data (Sample.lead_event "whatsapp")) = inr true
  /\ evaluateCondition
       {| cond_field := Some "data.lead.source";
          cond_operator := Some CONDITION_OPERATORS.NOT_EQUALS;
          cond_value := Some (LStr "whatsapp") |}
       (wh_data (Sample.lead_event "whatsapp")) = inr false.
Proof. split; vm_compute; reflexivity. Qed.

(** A key that the payload does not have but that every object inherits
    does resolve: [lead.constructor] is a function, which NOT_EQUALS
    compares by its text; the path ends at the function, and [__proto__]
    leads to the prototype and on to its functions. *)
Example inherited_key_on_sample :
  getNestedValue (wh_data (Sample.lead_event "whatsapp")) "lead.constructor"
  = VFun "function Object() { [native code] }"
  /\ evaluateCondition
       {| cond_field := Some "data.lead.constructor";
          cond_operator := Some CONDITION_OPERATORS.NOT_EQUALS;
          cond_value := Some (LStr "whatsapp") |}
       (wh_data (Sample.lead_event "whatsapp")) = inr true
  /\ getNestedValue (wh_data (Sample.lead_event "whatsapp")) "lead.constructor.name"
     = VUndefined
  /\ getNestedValue (wh_data (Sample.lead_event "whatsapp"))
       "lead.__proto__.hasOwnProperty"
     = VFun "function hasOwnProperty() { [native code] }"
  /\ getNestedValue (wh_data (Sample.lead_event "whatsapp"))
       "lead.__proto__.__proto__"
     = VNull.
Proof. repeat split; vm_compute; reflexivity. Qed.

(** A field whose value is an object with a property [toString]: the
    conversion throws, the [catch] of [executeNode] records the error, and
    the run stops at the condition. *)
Example unprintable_field_stops_at_the_condition :
  evaluateCondition (as_ConditionNodeData (node_data Sample.lead_condition))
    (wh_data Sample.opaque_event)
  = inl (Error "TypeError" "Cannot convert object to primitive value")
  /\ executeFlow Sample.lead_flow Sample.opaque_event None Sample.no_log
     = (Returned
          {| success := false;
             executedNodes := ["trigger"; "condition"];
             errors :=
               [ "Erro ao executar nó condition: Cannot convert object to primitive value" ] |},
        Sample.no_log).
Proof. split; vm_compute; reflexivity. Qed.

(** Two scenarios of the action dispatcher: an HTTP call cancelled by the
    timeout is recorded and the traversal goes on; a call to a flow that is
    not active does nothing. *)
Example timeout_is_recorded_and_traversal_goes_on :
  @executeFlow _ (Sample.collaborators_of [] Sample.timeout_answer)
    Sample.lead_flow (Sample.lead_event "whatsapp") None
    (Sample.fresh_world [] Sample.timeout_answer)
  = (Returned
       {| success := false;
          executedNodes := ["trigger"; "condition"; "action"; "end"];
          errors :=
            [ "Erro inesperado ao executar ação action: Timeout ao executar HTTP_REQUEST (30000ms)" ] |},
     Sample.fresh_world [] Sample.timeout_answer).
Proof. vm_compute. reflexivity. Qed.

Example inactive_flow_is_not_called :
  @executeFlow _ (Sample.collaborators_of [Sample.inactive_flow] Sample.ok_answer)
    Sample.flow_A (Sample.lead_event "whatsapp") None
    (Sample.fresh_world [Sample.inactive_flow] Sample.ok_answer)
  = (Returned
       {| success := true;
          executedNodes := ["trigger"; "call"; "end"];
          errors := [] |},
     Sample.fresh_world [Sample.inactive_flow] Sample.ok_answer).
Proof. vm_compute. reflexivity. Qed.

(* ================================================================== *)
(** * More properties of the engine *)

Section ExecutedNodesTheorems.
Context {runtime : Runtime} {collaborators : Collaborators}.

Lemma reach_found (flow : Flow) (data : record) (start x : string) :
  reach flow data start x -> find_node flow x <> None.
Proof. intros H. destruct H; assumption. Qed.

Lemma find_node_In_ids (flow : Flow) (x : string) :
  find_node flow x <> None -> In x (map node_id (flow_nodes flow)).
Proof.
  intros Hfound. destruct (find_node flow x) as [node|] eqn:E; [|contradiction].
  apply find_node_Some in E. destruct E as [Hin <-]. now apply in_map.
Qed.

(** X1. When [executeFlow] goes past its guards, the nodes in
    [executedNodes] are exactly the nodes of the flow that can be reached
    from the Trigger node along the edges that the engine follows: every
    next node of a Trigger or of an Action (whether the action failed or
    not), and for a Condition with a configured field whose evaluation
    returns, the typed targets of the edges that carry the handle of its
    result; no edge is followed from a Condition whose field is blank or
    whose evaluation throws.  No followed edge is left out and no other
    node is executed. *)
Theorem executed_nodes_are_the_reachable_nodes :
  forall (flow : Flow) (webhookEvent : WebhookEvent)
         (parentContext : option ExecutionContext) (w : World) (triggerNode : Node),
    starts flow webhookEvent parentContext triggerNode ->
    exists result w',
      executeFlow flow webhookEvent parentContext w = (Returned result, w')
      /\ (forall x,
             In x (executedNodes result)
             <-> reach flow (wh_data webhookEvent) (node_id triggerNode) x).
Proof.
  intros flow webhookEvent parentContext w triggerNode Hstarts.
  destruct (executeFlow_traverses w Hstarts) as (s' & E & Hrun).
  set (s0 := {| world := w;
                context := new_context flow webhookEvent parentContext |}) in *.
  assert (Hfresh : ctx_executedNodes (context s0) = []).
  { apply (proj1 (new_context_fresh flow webhookEvent parentContext)). }
  assert (Hpayload : payload s0 = wh_data webhookEvent).
  { unfold payload, s0. destruct parentContext; reflexivity. }
  assert (Hk : unvisited flow s0 < node_fuel flow).
  { unfold node_fuel. pose proof (unvisited_le_nodes flow s0). lia. }
  exists (formatResult (context s')), (world s'). split; [exact Hrun|].
  cbn [executedNodes formatResult]. intros x. split.
  - destruct (@executeNode_reaches _ _ flow (node_id triggerNode) (node_fuel flow)
                (node_id triggerNode) s0 Hk) as (s2 & E2 & Hreach).
    + intros Hfound. now apply reach_start.
    + rewrite Hfresh. intros y [].
    + rewrite E in E2. injection E2 as <-. rewrite Hpayload in Hreach.
      apply Hreach.
  - destruct (@executeNode_closes _ _ flow (node_fuel flow) (node_id triggerNode)
                s0 Hk) as (s2 & E2 & X & Hclosed & Hin).
    rewrite E in E2. injection E2 as <-.
    assert (Hp : payload s' = wh_data webhookEvent).
    { rewrite <- Hpayload. unfold payload. now rewrite (ext_webhookData X). }
    intros Hreach. induction Hreach as [Hfound | y z node Hy IH Hfind Hz Hfound].
    + now apply Hin.
    + apply (Hclosed y IH) with (node := node); try assumption.
      * rewrite Hfresh. intros [].
      * now rewrite Hp.
Qed.

(** X2. For every call of [executeFlow], each id in [executedNodes] is the
    id of a node of the flow, and there are no more executed nodes than the
    flow has nodes. *)
Theorem executed_nodes_are_nodes_of_the_flow :
  forall (flow : Flow) (webhookEvent : WebhookEvent)
         (parentContext : option ExecutionContext) (w : World),
  exists result w',
    executeFlow flow webhookEvent parentContext w = (Returned result, w')
    /\ (forall x, In x (executedNodes result) ->
                  exists node, In node (flow_nodes flow) /\ node_id node = x)
    /\ List.length (executedNodes result) <= List.length (flow_nodes flow).
Proof.
  intros flow webhookEvent parentContext w.
  destruct (executeFlow_cases flow webhookEvent parentContext w)
    as [(msg & msgs & E) | (triggerNode & Hstarts)].
  - exists (stopped (msg :: msgs)), w. split; [exact E|]. split.
    + intros x [].
    + simpl. lia.
  - destruct (executeFlow_traverses w Hstarts) as (s' & Erun & E).
    set (s0 := {| world := w;
                  context := new_context flow webhookEvent parentContext |}) in *.
    assert (Hfresh : ctx_executedNodes (context s0) = []).
    { apply (proj1 (new_context_fresh flow webhookEvent parentContext)). }
    set (result := formatResult (context s')) in *.
    exists result, (world s'). split; [exact E|].
    assert (Hids : forall x, In x (executedNodes result) ->
                             In x (map node_id (flow_nodes flow))).
    { destruct (@executeNode_reaches _ _ flow (node_id triggerNode) (node_fuel flow)
                  (node_id triggerNode) s0) as (s2 & E2 & Hreach).
      - unfold node_fuel. pose proof (unvisited_le_nodes flow s0). lia.
      - intros Hfound. now apply reach_start.
      - rewrite Hfresh. intros y [].
      - rewrite Erun in E2. injection E2 as <-.
        intros x Hx. apply find_node_In_ids.
        apply (reach_found (Hreach x Hx)). }
    split.
    + intros x Hx. apply Hids in Hx. apply in_map_iff in Hx.
      destruct Hx as (node & Hid & Hin). now exists node.
    + rewrite <- (length_map node_id (flow_nodes flow)).
      apply NoDup_incl_length; [|exact Hids].
      destruct (@executeNode_closes _ _ flow (node_fuel flow) (node_id triggerNode) s0)
        as (s2 & E2 & X & _).
      { unfold node_fuel. pose proof (unvisited_le_nodes flow s0). lia. }
      rewrite Erun in E2. injection E2 as <-.
      unfold result. cbn [executedNodes formatResult].
      apply (ext_NoDup X). rewrite Hfresh. constructor.
Qed.

(** A run that passes the guards executes the Trigger node first. *)
Lemma trigger_is_executed_first (flow : Flow) (webhookEvent : WebhookEvent)
      (parentContext : option ExecutionContext) (w : World) (triggerNode : Node) :
  starts flow webhookEvent parentContext triggerNode ->
  exists result w' rest,
    executeFlow flow webhookEvent parentContext w = (Returned result, w')
    /\ executedNodes result = node_id triggerNode :: rest.
Proof.
  intros Hstarts.
  destruct (executeFlow_traverses w Hstarts) as (s' & E & Hrun).
  destruct Hstarts as (_ & _ & _ & Htrigger & _).
  pose proof Htrigger as Hfind. apply find_some in Hfind.
  destruct Hfind as [HinT _].
  destruct (find_node flow (node_id triggerNode)) as [node|] eqn:Efind;
    [| now apply find_node_of_member in HinT].
  set (s0 := {| world := w;
                context := new_context flow webhookEvent parentContext |}) in *.
  destruct (@executeNode_marks _ _ flow (executeFlow_gas MAX_FLOW_DEPTH)
              (List.length (flow_nodes flow)) (node_id triggerNode) node s0)
    as (s2 & rest & E2 & _ & Hexec).
  - apply runner_ok_executeFlow_gas.
  - pose proof (unvisited_le_nodes flow s0). lia.
  - unfold s0. cbn [context].
    now rewrite (proj1 (new_context_fresh flow webhookEvent parentContext)).
  - exact Efind.
  - unfold node_fuel in E. rewrite E in E2. injection E2 as <-.
    exists (formatResult (context s')), (world s'), rest. split; [exact Hrun|].
    cbn [executedNodes formatResult]. rewrite Hexec. unfold s0. cbn [context].
    now rewrite (proj1 (new_context_fresh flow webhookEvent parentContext)).
Qed.

(** X3. A call of [executeFlow] either stops before the first node, and then
    the result is a failure with an error in it and the outside world was
    not called, or it executes the Trigger node first.  So a result without
    executed nodes is never a success. *)
Theorem no_executed_node_means_failure :
  forall (flow : Flow) (webhookEvent : WebhookEvent)
         (parentContext : option ExecutionContext) (w : World),
  exists result w',
    executeFlow flow webhookEvent parentContext w = (Returned result, w')
    /\ ((executedNodes result = [] /\ success result = false
         /\ errors result <> [] /\ w' = w)
        \/ (exists triggerNode rest,
               find (has_type NODE_TYPES.TRIGGER) (flow_nodes flow) = Some triggerNode
               /\ executedNodes result = node_id triggerNode :: rest)).
Proof.
  intros flow webhookEvent parentContext w.
  destruct (executeFlow_cases flow webhookEvent parentContext w)
    as [(msg & msgs & E) | (triggerNode & Hstarts)].
  - exists (stopped (msg :: msgs)), w. split; [exact E|]. left.
    repeat split. discriminate.
  - destruct (trigger_is_executed_first w Hstarts) as (result & w' & rest & E & Hexec).
    exists result, w'. split; [exact E|]. right.
    exists triggerNode, rest. split; [|exact Hexec].
    now destruct Hstarts as (_ & _ & _ & Htrigger & _).
Qed.

End ExecutedNodesTheorems.

(** ** The validator, the condition evaluator and the path resolver *)

Section PureParts.
Context {runtime : Runtime}.

Lemma flat_map_nil_inv {X Y} (f : X -> list Y) (l : list X) :
  flat_map f l = [] -> forall x, In x l -> f x = [].
Proof.
  induction l as [|a l IH]; simpl; intros H x Hx; [contradiction|].
  apply app_eq_nil in H. destruct H as [Ha Hl].
  destruct Hx as [<- | Hx]; [assumption | now apply IH].
Qed.

Lemma filter_nil_inv {X} (p : X -> bool) (l : list X) :
  filter p l = [] -> forall x, In x l -> p x = false.
Proof.
  intros H x Hx. destruct (p x) eqn:E; [|reflexivity].
  assert (Hin : In x (filter p l)) by (apply filter_In; now split).
  rewrite H in Hin. contradiction.
Qed.

(** X4. [validateFlow] finds no issue exactly for the flows that have one
    Trigger node, and only one, and in which every edge that leaves a
    Condition node carries a handle (a [sourceHandle] that is neither missing
    nor empty). *)
Theorem validateFlow_accepts_exactly :
  forall flow : Flow,
    validateFlow flow = []
    <-> (List.length (filter (has_type NODE_TYPES.TRIGGER) (flow_nodes flow)) = 1
         /\ forall conditionNode e,
              In conditionNode (flow_nodes flow) ->
              node_type conditionNode = Some NODE_TYPES.CONDITION ->
              In e (flow_edges flow) ->
              edge_source e = node_id conditionNode ->
              Js.truthy (edge_sourceHandle e) = true).
Proof.
  intros flow. unfold validateFlow. split.
  - destruct (flow_nodes flow) as [|n0 nodes] eqn:Enodes; [discriminate|].
    cbn [List.length Nat.eqb]. intros H. apply app_eq_nil in H.
    destruct H as [Htrig Hcond]. split.
    + destruct (List.length (filter (has_type NODE_TYPES.TRIGGER) (n0 :: nodes)))
        as [|[|n]]; simpl in Htrig; [discriminate | reflexivity | discriminate].
    + intros conditionNode e Hin Htype He Hsrc.
      assert (Hissue : condition_issues flow conditionNode = []).
      { apply (flat_map_nil_inv _ _ Hcond). apply filter_In. split; [assumption|].
        unfold has_type. rewrite Htype. reflexivity. }
      unfold condition_issues in Hissue.
      destruct (filter (fun e0 => negb (Js.truthy (edge_sourceHandle e0))) _)
        as [|e1 rest] eqn:Efilter; [|discriminate].
      apply negb_false_iff. apply (filter_nil_inv _ _ Efilter).
      apply filter_In. split; [assumption|]. now apply String.eqb_eq.
  - intros [Hone Hedges].
    destruct (flow_nodes flow) as [|n0 nodes] eqn:Enodes; [discriminate|].
    cbn [List.length Nat.eqb]. rewrite Hone. cbn [Nat.eqb Nat.ltb Nat.leb app].
    apply flat_map_all_nil. intros conditionNode Hc.
    apply filter_In in Hc. destruct Hc as [Hin Htype].
    unfold has_type in Htype. apply opt_eqb_eq in Htype.
    unfold condition_issues.
    replace (filter (fun e => negb (Js.truthy (edge_sourceHandle e)))
               (filter (fun e => String.eqb (edge_source e) (node_id conditionNode))
                  (flow_edges flow))) with (@nil Edge); [reflexivity|].
    symmetry. apply filter_all_false. intros e He. apply filter_In in He.
    destruct He as [He Hsrc]. apply String.eqb_eq in Hsrc.
    rewrite (Hedges conditionNode e Hin Htype He Hsrc). reflexivity.
Qed.

Lemma prefix_refl (s : string) : String.prefix s s = true.
Proof.
  induction s as [|c s IH]; simpl; [reflexivity|].
  destruct (ascii_dec c c); [assumption | contradiction].
Qed.

Lemma includes_refl (s : string) : Js.includes s s = true.
Proof.
  destruct s as [|c s]; [reflexivity|].
  unfold Js.includes. now rewrite prefix_refl.
Qed.

Lemma to_Number_throws (v : value) (error : exn) :
  to_Number v = inl error <-> to_String v = inl error.
Proof.
  destruct v as [| | [|] | n | text | items | fields | text | p];
    cbn [to_Number]; try (split; discriminate);
    destruct (to_String _) as [e | text']; cbn [and_then];
    split; intros H; try discriminate H; injection H as ->; reflexivity.
Qed.

Lemma literal_converts (value : option literal) :
  (exists text, to_String (literal_value value) = inr text)
  /\ (exists n, to_Number (literal_value value) = inr n).
Proof. destruct value as [[text | n]|]; split; eexists; reflexivity. Qed.

(** X5. On a field that is configured and resolves to a value.  NOT_EQUALS
    is the negation of EQUALS (and throws what EQUALS throws); EQUALS
    implies CONTAINS; GREATER_THAN and LESS_THAN are false as soon as one
    side is not a number; an operator that is none of the five is false,
    and converts nothing; each of the five operators throws exactly when
    the value of the field cannot be converted to a string, and throws the
    error of that conversion. *)
Theorem operators_on_a_resolved_field :
  forall (field : string) (value : option literal) (data : record),
    field_blank (Some field) = false ->
    is_nullish (getNestedValue data (fieldPath_of field)) = false ->
    let fieldValue := getNestedValue data (fieldPath_of field) in
    let holds operator :=
      evaluateCondition
        {| cond_field := Some field; cond_operator := operator;
           cond_value := value |} data in
    let known :=
      [ Some CONDITION_OPERATORS.EQUALS;
        Some CONDITION_OPERATORS.NOT_EQUALS;
        Some CONDITION_OPERATORS.CONTAINS;
        Some CONDITION_OPERATORS.GREATER_THAN;
        Some CONDITION_OPERATORS.LESS_THAN ] in
    holds (Some CONDITION_OPERATORS.NOT_EQUALS)
    = and_then (holds (Some CONDITION_OPERATORS.EQUALS)) (fun b => inr (negb b))
    /\ (holds (Some CONDITION_OPERATORS.EQUALS) = inr true ->
        holds (Some CONDITION_OPERATORS.CONTAINS) = inr true)
    /\ (forall n m,
           to_Number fieldValue = inr n ->
           to_Number (literal_value value) = inr m ->
           isNaN n = true \/ isNaN m = true ->
           holds (Some CONDITION_OPERATORS.GREATER_THAN) = inr false
           /\ holds (Some CONDITION_OPERATORS.LESS_THAN) = inr false)
    /\ (forall operator, ~ In operator known -> holds operator = inr false)
    /\ (forall operator error,
           In operator known ->
           (holds operator = inl error <-> to_String fieldValue = inl error)).
Proof.
  intros field value data Hfield Hvalue fieldValue holds known.
  assert (Hholds : forall operator,
             holds operator
             = apply_operator operator fieldValue (literal_value value)).
  { intros operator. unfold holds, evaluateCondition.
    cbn [cond_field cond_operator cond_value]. now rewrite Hfield, Hvalue. }
  destruct (literal_converts value) as [[c Hc] [m Hm]].
  assert (Hstring : forall (f : string -> string -> bool),
             and_then (to_String fieldValue) (fun a =>
             and_then (to_String (literal_value value)) (fun b => inr (f a b)))
             = and_then (to_String fieldValue) (fun a => inr (f a c))).
  { intros f. destruct (to_String fieldValue); cbn [and_then]; [reflexivity|].
    now rewrite Hc. }
  assert (Hnumber : forall (f : Num -> Num -> bool),
             and_then (to_Number fieldValue) (fun a =>
             and_then (to_Number (literal_value value)) (fun b => inr (f a b)))
             = and_then (to_Number fieldValue) (fun a => inr (f a m))).
  { intros f. destruct (to_Number fieldValue); cbn [and_then]; [reflexivity|].
    now rewrite Hm. }
  assert (Heq : holds (Some CONDITION_OPERATORS.EQUALS)
                = and_then (to_String fieldValue) (fun a => inr (String.eqb a c))).
  { rewrite Hholds. unfold apply_operator. cbn [Js.opt_eqb].
    rewrite String.eqb_refl. apply (Hstring String.eqb). }
  assert (Hne : holds (Some CONDITION_OPERATORS.NOT_EQUALS)
                = and_then (to_String fieldValue)
                           (fun a => inr (negb (String.eqb a c)))).
  { rewrite Hholds. unfold apply_operator. cbn [Js.opt_eqb].
    cbv [CONDITION_OPERATORS.EQUALS CONDITION_OPERATORS.NOT_EQUALS].
    cbn [String.eqb Ascii.eqb Bool.eqb].
    apply (Hstring (fun a b => negb (String.eqb a b))). }
  assert (Hin : holds (Some CONDITION_OPERATORS.CONTAINS)
                = and_then (to_String fieldValue) (fun a => inr (Js.includes a c))).
  { rewrite Hholds. unfold apply_operator. cbn [Js.opt_eqb].
    cbv [CONDITION_OPERATORS.EQUALS CONDITION_OPERATORS.NOT_EQUALS
         CONDITION_OPERATORS.CONTAINS].
    cbn [String.eqb Ascii.eqb Bool.eqb]. apply (Hstring Js.includes). }
  assert (Hgt : holds (Some CONDITION_OPERATORS.GREATER_THAN)
                = and_then (to_Number fieldValue)
                    (fun a => inr (negb (isNaN a) && negb (isNaN m) && num_gt a m))).
  { rewrite Hholds. unfold apply_operator. cbn [Js.opt_eqb].
    cbv [CONDITION_OPERATORS.EQUALS CONDITION_OPERATORS.NOT_EQUALS
         CONDITION_OPERATORS.CONTAINS CONDITION_OPERATORS.GREATER_THAN].
    cbn [String.eqb Ascii.eqb Bool.eqb].
    apply (Hnumber (fun a b => negb (isNaN a) && negb (isNaN b) && num_gt a b)). }
  assert (Hlt : holds (Some CONDITION_OPERATORS.LESS_THAN)
                = and_then (to_Number fieldValue)
                    (fun a => inr (negb (isNaN a) && negb (isNaN m) && num_lt a m))).
  { rewrite Hholds. unfold apply_operator. cbn [Js.opt_eqb].
    cbv [CONDITION_OPERATORS.EQUALS CONDITION_OPERATORS.NOT_EQUALS
         CONDITION_OPERATORS.CONTAINS CONDITION_OPERATORS.GREATER_THAN
         CONDITION_OPERATORS.LESS_THAN].
    cbn [String.eqb Ascii.eqb Bool.eqb].
    apply (Hnumber (fun a b => negb (isNaN a) && negb (isNaN b) && num_lt a b)). }
  split; [|split; [|split; [|split]]].
  - rewrite Hne, Heq. now destruct (to_String fieldValue).
  - rewrite Heq, Hin. destruct (to_String fieldValue) as [e | a]; cbn [and_then];
      [discriminate|].
    intros H. injection H as H. apply String.eqb_eq in H. subst a.
    now rewrite includes_refl.
  - intros n m' Hn Hm' Hnan. rewrite Hm in Hm'. injection Hm' as <-.
    rewrite Hgt, Hlt, Hn. cbn [and_then].
    destruct Hnan as [-> | ->]; cbn [negb andb]; rewrite ?andb_false_r; now split.
  - intros operator Hnot. rewrite Hholds. unfold apply_operator.
    repeat match goal with
           | |- context [Js.opt_eqb operator (Some ?c)] =>
               destruct (Js.opt_eqb operator (Some c)) eqn:?E;
               [ apply opt_eqb_eq in E; exfalso; apply Hnot; rewrite E; simpl; tauto
               | clear E ]
           end.
    reflexivity.
  - intros operator error Hknown.
    assert (Hs : forall (f : string -> bool),
               and_then (to_String fieldValue) (fun a => inr (f a)) = inl error
               <-> to_String fieldValue = inl error).
    { intros f. destruct (to_String fieldValue); cbn [and_then];
        split; intros H; try discriminate H; injection H as ->; reflexivity. }
    assert (Hn : forall (f : Num -> bool),
               and_then (to_Number fieldValue) (fun a => inr (f a)) = inl error
               <-> to_String fieldValue = inl error).
    { intros f. rewrite <- to_Number_throws.
      destruct (to_Number fieldValue); cbn [and_then];
        split; intros H; try discriminate H; injection H as ->; reflexivity. }
    destruct Hknown as [<- | [<- | [<- | [<- | [<- | []]]]]].
    + rewrite Heq. apply Hs.
    + rewrite Hne. apply Hs.
    + rewrite Hin. apply Hs.
    + rewrite Hgt. apply Hn.
    + rewrite Hlt. apply Hn.
Qed.

Lemma split_not_nil (c : ascii) (s : string) : Js.split c s <> [].
Proof.
  induction s as [|a s IH]; simpl; [discriminate|].
  destruct (Ascii.eqb a c); [discriminate|].
  destruct (Js.split c s); [contradiction | discriminate].
Qed.

Lemma split_app (c : ascii) (a b : string) :
  Js.split c (a ++ String c b) = (Js.split c a ++ Js.split c b)%list.
Proof.
  induction a as [|x a IH]; simpl.
  - now rewrite Ascii.eqb_refl.
  - destruct (Ascii.eqb x c); [now rewrite IH|].
    rewrite IH. pose proof (split_not_nil c a) as Hne.
    destruct (Js.split c a); [contradiction | reflexivity].
Qed.

Lemma walk_app (v : value) (keys1 keys2 : list string) :
  walk v (keys1 ++ keys2) = walk (walk v keys1) keys2.
Proof.
  revert v. induction keys1 as [|key keys1 IH]; intros v; simpl; [reflexivity|].
  destruct v; try apply IH; destruct keys2; reflexivity.
Qed.

Lemma walk_nullish (v : value) (keys : list string) :
  is_nullish v = true -> keys <> [] -> walk v keys = VUndefined.
Proof.
  intros Hv Hk. destruct keys as [|key keys]; [contradiction|].
  destruct v; try discriminate; reflexivity.
Qed.

(** X6. A dotted path is resolved step by step: resolving [a.b] is walking
    the keys of [b] from the value found at [a].  So when [a] gives an
    object, [a.b] is [b] resolved in that object; when [a] gives
    [undefined] or [null], [a.b] is [undefined] whatever [b] is; and so it
    is when [a] gives a value that is no object: a boolean, a number, a
    string or a function. *)
Theorem nested_path_resolves_step_by_step :
  forall (obj : record) (a b : string),
    a <> EmptyString ->
    getNestedValue obj (a ++ "." ++ b)
    = walk (getNestedValue obj a) (Js.split "." b)
    /\ (forall inner,
           getNestedValue obj a = VObj inner -> b <> EmptyString ->
           getNestedValue obj (a ++ "." ++ b) = getNestedValue inner b)
    /\ (is_nullish (getNestedValue obj a) = true ->
        getNestedValue obj (a ++ "." ++ b) = VUndefined)
    /\ (match getNestedValue obj a with
        | VBool _ | VNum _ | VStr _ | VFun _ => True
        | _ => False
        end ->
        getNestedValue obj (a ++ "." ++ b) = VUndefined).
Proof.
  intros obj a b Ha.
  assert (Hwalk : getNestedValue obj (a ++ "." ++ b)
                  = walk (getNestedValue obj a) (Js.split "." b)).
  { unfold getNestedValue. destruct a as [|x a]; [contradiction|].
    cbn [append Js.is_empty]. change (String x (a ++ String "." b))
      with (String x a ++ String "." b).
    rewrite split_app. apply walk_app. }
  split; [exact Hwalk|]. split; [|split].
  - intros inner Hinner Hb. rewrite Hwalk, Hinner. unfold getNestedValue.
    destruct b; [contradiction | reflexivity].
  - intros Hnull. rewrite Hwalk. apply walk_nullish; [assumption|].
    apply split_not_nil.
  - intros Hkind. rewrite Hwalk. pose proof (split_not_nil "." b) as Hne.
    destruct (Js.split "." b) as [|key keys]; [contradiction|].
    destruct (getNestedValue obj a); try contradiction; reflexivity.
Qed.

End PureParts.

(** ** The actions *)

Section ActionFacts.
Context {runtime : Runtime} {collaborators : Collaborators}.

(** [executeAction] on a node with a type: the action, then the next
    nodes; a failure of the action becomes one entry of [context.errors]. *)
Lemma executeAction_typed (executeFlow' : flow_runner) (self : string -> M unit)
      (node : Node) (flow : Flow) (s s1 : state) (r : outcome unit) :
  Js.truthy (data_type (node_data node)) = true ->
  dispatch_action executeFlow' (node_data node) (node_id node) s = (r, s1) ->
  executeAction executeFlow' self node flow s
  = match r with
    | Returned _ => for_each (getNextNodes (node_id node) flow) self s1
    | Thrown error =>
        for_each (getNextNodes (node_id node) flow) self
          (record_error ("Erro inesperado ao executar ação " ++ node_id node ++ ": "
                         ++ error_text error) s1)
    | OutOfFuel => (OutOfFuel, s1)
    end.
Proof.
  intros Htype E. unfold executeAction. rewrite Htype. cbn [negb].
  unfold bind, try_catch. rewrite E. destruct r as [[]| error |]; reflexivity.
Qed.

Lemma typed_is_truthy (type : string) (o : option string) :
  o = Some type -> type <> EmptyString -> Js.truthy o = true.
Proof. intros -> Hne. destruct type; [contradiction | reflexivity]. Qed.

Lemma dispatch_http (executeFlow' : flow_runner) (actionData : FlowNodeData)
      (nodeId : string) :
  data_type actionData = Some ACTION_TYPES.HTTP_REQUEST ->
  dispatch_action executeFlow' actionData nodeId
  = executeHttpRequestAction actionData nodeId.
Proof. intros E. unfold dispatch_action. rewrite E. reflexivity. Qed.

Lemma dispatch_call_flow (executeFlow' : flow_runner) (actionData : FlowNodeData)
      (nodeId : string) :
  data_type actionData = Some ACTION_TYPES.CALL_FLOW ->
  dispatch_action executeFlow' actionData nodeId
  = executeCallFlowAction executeFlow' actionData nodeId.
Proof. intros E. unfold dispatch_action. rewrite E. reflexivity. Qed.

Lemma dispatch_action_cases (d : nat) (actionData : FlowNodeData) (nodeId : string) :
  quiet d (dispatch_action (executeFlow_gas MAX_FLOW_DEPTH) actionData nodeId)
  \/ exists msg,
       dispatch_action (executeFlow_gas MAX_FLOW_DEPTH) actionData nodeId
       = push_error msg.
Proof.
  unfold dispatch_action.
  destruct (Js.opt_eqb _ (Some ACTION_TYPES.LOG));
    [left; apply quiet_executeLogAction|].
  destruct (Js.opt_eqb _ (Some ACTION_TYPES.HTTP_REQUEST));
    [left; apply quiet_executeHttpRequestAction|].
  destruct (Js.opt_eqb _ (Some ACTION_TYPES.SEND_EMAIL));
    [left; apply quiet_executeEmailAction|].
  destruct (Js.opt_eqb _ (Some ACTION_TYPES.CALL_FLOW)).
  - left. apply quiet_executeCallFlowAction, runner_ok_executeFlow_gas.
  - right. eexists. reflexivity.
Qed.

(** X7. An action never stops the traversal and never touches the context
    beyond one entry of [errors]: whatever the action does (an HTTP call, a
    whole sub-flow, nothing), [executeAction] goes on to the next nodes of
    the action node, from the context that it was given or from that context
    with one more error. *)
Theorem action_never_stops_the_traversal :
  forall (self : string -> M unit) (node : Node) (flow : Flow) (s : state),
  exists w,
    let next := for_each (getNextNodes (node_id node) flow) self in
    let s1 := {| world := w; context := context s |} in
    executeAction (executeFlow_gas MAX_FLOW_DEPTH) self node flow s = next s1
    \/ exists msg,
         executeAction (executeFlow_gas MAX_FLOW_DEPTH) self node flow s
         = next (record_error msg s1).
Proof.
  intros self node flow s. cbv zeta.
  destruct (Js.truthy (data_type (node_data node))) eqn:Htype.
  2:{ exists (world s). right. eexists. unfold executeAction. rewrite Htype.
      cbn [negb]. rewrite state_eta. reflexivity. }
  destruct (dispatch_action_cases (ctx_depth (context s)) (node_data node)
              (node_id node)) as [Hquiet | [msg Emsg]].
  - destruct (Hquiet s eq_refl) as (r & w & E & Hr). exists w.
    rewrite (@executeAction_typed _ self node flow s _ r Htype E).
    destruct r as [[]| error |];
      [now left | right; eexists; reflexivity | contradiction].
  - exists (world s). right. exists msg.
    rewrite (@executeAction_typed (executeFlow_gas MAX_FLOW_DEPTH) self node flow s
               (record_error msg s) (Returned tt) Htype).
    + rewrite state_eta. reflexivity.
    + rewrite Emsg. reflexivity.
Qed.

(** X8. What an HTTP_REQUEST action leaves in the context.  Without URL no
    request is made and the missing URL is recorded.  With a URL the body of
    the request is computed first: when the configuration has a body, its
    JSON text with the placeholders replaced from the payload.  When this
    throws, no request is made and the error is recorded.  Otherwise one
    request is made, with this body: an answer with a 2xx status records
    nothing; another status is recorded with the text of the answer (or
    [Erro desconhecido] when the text cannot be read); a request cancelled
    by the timeout is recorded as a timeout of [HTTP_TIMEOUT] milliseconds;
    any other rejection is recorded with its own message.  In every case
    the next nodes are executed. *)
Theorem http_request_outcomes :
  forall (executeFlow' : flow_runner) (self : string -> M unit)
         (node : Node) (flow : Flow) (s : state) (config : ActionConfig),
    data_type (node_data node) = Some ACTION_TYPES.HTTP_REQUEST ->
    data_config (node_data node) = Some config ->
    let next := for_each (getNextNodes (node_id node) flow) self in
    let failed text s1 :=
      next (record_error ("Erro inesperado ao executar ação " ++ node_id node
                          ++ ": " ++ text) s1) in
    let body :=
      match cfg_body config with
      | Some object =>
          and_then
            (interpolateVariables (stringify object)
                                  (wh_data (ctx_webhookData (context s))))
            (fun text => inr (Some text))
      | None => inr None
      end in
    (Js.truthy (cfg_url config) = false ->
     executeAction executeFlow' self node flow s
     = failed ("Nó de ação " ++ node_id node
               ++ ": URL não configurada para HTTP_REQUEST") s)
    /\ (Js.truthy (cfg_url config) = true ->
        forall error,
          body = inl error ->
          executeAction executeFlow' self node flow s
          = failed (error_text error) s)
    /\ (Js.truthy (cfg_url config) = true ->
        forall text answer w,
          body = inr text ->
          fetch config text (world s) = (answer, w) ->
          let s1 := {| world := w; context := context s |} in
          executeAction executeFlow' self node flow s
          = match answer with
            | Response status text =>
                if response_ok status then next s1
                else failed ("HTTP " ++ Js.nat_to_string status ++ ": "
                             ++ match text with
                                | Some t => t
                                | None => "Erro desconhecido"
                                end) s1
            | Rejected error =>
                failed (if is_AbortError error
                        then "Timeout ao executar HTTP_REQUEST ("
                             ++ Js.nat_to_string HTTP_TIMEOUT ++ "ms)"
                        else error_text error) s1
            end).
Proof.
  intros executeFlow' self node flow s config Htype Hconfig next failed body.
  assert (Htruthy : Js.truthy (data_type (node_data node)) = true)
    by (now rewrite Htype).
  assert (Hbody : body = request_body config (wh_data (ctx_webhookData (context s))))
    by reflexivity.
  split; [|split].
  - intros Hurl.
    rewrite (@executeAction_typed executeFlow' self node flow s s
               (Thrown (ValidationError
                          ("Nó de ação " ++ node_id node
                           ++ ": URL não configurada para HTTP_REQUEST") "url"))
               Htruthy); [reflexivity|].
    rewrite dispatch_http by assumption. unfold executeHttpRequestAction.
    rewrite Hconfig, Hurl. reflexivity.
  - intros Hurl error Herror.
    rewrite (@executeAction_typed executeFlow' self node flow s s (Thrown error)
               Htruthy); [reflexivity|].
    rewrite dispatch_http by assumption. unfold executeHttpRequestAction.
    rewrite Hconfig, Hurl. cbn [negb].
    unfold bind at 1. unfold get_context. unfold bind at 1.
    rewrite <- Hbody, Herror. reflexivity.
  - intros Hurl text answer w Htext Hfetch s1.
    assert (E : exists r,
               dispatch_action executeFlow' (node_data node) (node_id node) s = (r, s1)
               /\ r = match answer with
                      | Response status text =>
                          if response_ok status then Returned tt
                          else Thrown (Error "Error"
                                 ("HTTP " ++ Js.nat_to_string status ++ ": "
                                  ++ match text with
                                     | Some t => t
                                     | None => "Erro desconhecido"
                                     end))
                      | Rejected error =>
                          if is_AbortError error
                          then Thrown (Error "Error"
                                 ("Timeout ao executar HTTP_REQUEST ("
                                  ++ Js.nat_to_string HTTP_TIMEOUT ++ "ms)"))
                          else Thrown error
                      end).
    { rewrite dispatch_http by assumption. unfold executeHttpRequestAction.
      rewrite Hconfig, Hurl. cbn [negb].
      unfold bind at 1. unfold get_context. unfold bind at 1.
      rewrite <- Hbody, Htext. cbn [of_sum]. unfold ret at 1.
      unfold try_catch, bind, ask.
      cbn [world context]. rewrite Hfetch.
      destruct answer as [status text' | error].
      - destruct (response_ok status); cbn [negb]; eexists; split; reflexivity.
      - unfold throw. destruct (is_AbortError error); eexists; split; reflexivity. }
    destruct E as (r & E & ->).
    rewrite (@executeAction_typed executeFlow' self node flow s s1 _ Htruthy E).
    destruct answer as [status text' | error].
    + destruct (response_ok status); reflexivity.
    + destruct (is_AbortError error); reflexivity.
Qed.

(** X9. The result of a sub-flow stays with the sub-flow.  When the target
    of a CALL_FLOW action is found, the action records nothing in the
    context of the caller, whatever the called flow returns (its own errors,
    a stop at the depth limit or on a repeated flow) and whatever the
    execution-log repository does; the next nodes of the caller are then
    executed.  When the target is not active, nothing is called after the
    lookup. *)
Theorem sub_flow_errors_stay_in_the_sub_flow :
  forall (self : string -> M unit) (node : Node) (flow : Flow) (s : state)
         (flowId : string) (targetFlow : Flow) (w1 : World),
    data_type (node_data node) = Some ACTION_TYPES.CALL_FLOW ->
    config_flowId (node_data node) = Some flowId ->
    flowId <> EmptyString ->
    findById flowId (world s) = (inr (Some targetFlow), w1) ->
    exists w',
      executeAction (executeFlow_gas MAX_FLOW_DEPTH) self node flow s
      = for_each (getNextNodes (node_id node) flow) self
          {| world := w'; context := context s |}
      /\ (flow_active targetFlow = false -> w' = w1).
Proof.
  intros self node flow s flowId targetFlow w1 Htype Hid Hne Hfind.
  assert (Htruthy : Js.truthy (data_type (node_data node)) = true)
    by (now rewrite Htype).
  assert (E : exists w',
             dispatch_action (executeFlow_gas MAX_FLOW_DEPTH) (node_data node)
               (node_id node) s
             = (Returned tt, {| world := w'; context := context s |})
             /\ (flow_active targetFlow = false -> w' = w1)).
  { rewrite dispatch_call_flow by assumption. unfold executeCallFlowAction.
    rewrite Hid. rewrite (typed_is_truthy eq_refl Hne). cbn [negb].
    unfold try_catch at 1. unfold callFlow_try.
    unfold bind at 1. unfold ask_or_throw at 1. rewrite Hfind.
    destruct (flow_active targetFlow) eqn:Eactive; cbn [negb].
    2:{ exists w1. split; [reflexivity | reflexivity]. }
    unfold bind at 1. unfold get_context. cbn [context world].
    unfold bind at 1.
    set (s1 := {| world := w1; context := context s |}).
    assert (Hlog : exists logId w2,
               try_catch
                 (bind (ask_or_throw
                          (createLog (flow_id targetFlow)
                                     (wh_id (ctx_webhookData (context s)))))
                       (fun id => ret (Some id)))
                 (fun _ => ret None) s1
               = (Returned logId, {| world := w2; context := context s |})).
    { unfold try_catch, bind, ask_or_throw. cbn [world context s1].
      destruct (createLog _ _ w1) as [[error | id] w2];
        eexists _, w2; reflexivity. }
    destruct Hlog as (logId & w2 & ->).
    unfold bind at 1. unfold call_executeFlow at 1. cbn [world context].
    match goal with
    | |- context [executeFlow_gas MAX_FLOW_DEPTH targetFlow ?e (Some ?c) w2] =>
        destruct (@executeFlow_gas_returns _ _ MAX_FLOW_DEPTH targetFlow e (Some c) w2)
          as (final & w3 & -> & _)
    end.
    { unfold enough_gas, MAX_FLOW_DEPTH. simpl. lia. }
    destruct logId as [id|]; cbn [Js.truthy].
    2:{ exists w3. split; [reflexivity | discriminate]. }
    destruct (negb (Js.is_empty id)).
    2:{ exists w3. split; [reflexivity | discriminate]. }
    unfold try_catch, bind, ask. cbn [world context].
    destruct (updateLog id (formatResult final) w3) as [[updateError|] w4];
      exists w4; (split; [reflexivity | discriminate]). }
  destruct E as (w' & E & Hinactive). exists w'. split; [|exact Hinactive].
  now rewrite (@executeAction_typed _ self node flow s _ (Returned tt) Htruthy E).
Qed.

(** X10. A failure of the flow repository during a CALL_FLOW action.  An
    error thrown by [findById] leaves [executeCallFlowAction] as it is when
    it is a [ValidationError], and otherwise as a new error whose message
    names the target flow; neither the execution log nor the engine is
    called.  [executeAction] records the message and goes on to the next
    nodes. *)
Theorem repository_failure_names_the_called_flow :
  forall (executeFlow' : flow_runner) (self : string -> M unit)
         (node : Node) (flow : Flow) (s : state)
         (flowId : string) (error : exn) (w1 : World),
    data_type (node_data node) = Some ACTION_TYPES.CALL_FLOW ->
    config_flowId (node_data node) = Some flowId ->
    flowId <> EmptyString ->
    findById flowId (world s) = (inl error, w1) ->
    let thrown :=
      if is_ValidationError error then error
      else Error "Error" ("Erro ao chamar flow " ++ flowId ++ ": "
                          ++ error_text error) in
    let s1 := {| world := w1; context := context s |} in
    executeCallFlowAction executeFlow' (node_data node) (node_id node) s
    = (Thrown thrown, s1)
    /\ executeAction executeFlow' self node flow s
       = for_each (getNextNodes (node_id node) flow) self
           (record_error ("Erro inesperado ao executar ação " ++ node_id node
                          ++ ": " ++ error_text thrown) s1).
Proof.
  intros executeFlow' self node flow s flowId error w1 Htype Hid Hne Hfind
         thrown s1.
  assert (Htruthy : Js.truthy (data_type (node_data node)) = true)
    by (now rewrite Htype).
  assert (E : executeCallFlowAction executeFlow' (node_data node) (node_id node) s
              = (Thrown thrown, s1)).
  { unfold executeCallFlowAction. rewrite Hid.
    rewrite (typed_is_truthy eq_refl Hne). cbn [negb].
    unfold try_catch, callFlow_try. unfold bind at 1. unfold ask_or_throw at 1.
    rewrite Hfind. unfold thrown. destruct (is_ValidationError error); reflexivity. }
  split; [exact E|].
  rewrite <- (dispatch_call_flow executeFlow' (node_data node) (node_id node) Htype)
    in E.
  now rewrite (@executeAction_typed executeFlow' self node flow s s1 _ Htruthy E).
Qed.

(** X11. The actions that call no collaborator.  A LOG action records
    nothing; a SEND_EMAIL action records an error exactly when no email is
    configured; an action without type, and an action whose type is none of
    the four, record an error of their own, which names the type.  None of
    them changes the world, and the next nodes are executed in every
    case. *)
Theorem local_actions_leave_the_world_alone :
  forall (executeFlow' : flow_runner) (self : string -> M unit)
         (node : Node) (flow : Flow) (s : state),
    let next := for_each (getNextNodes (node_id node) flow) self in
    let type := data_type (node_data node) in
    let email :=
      match data_config (node_data node) with
      | Some config => cfg_email config
      | None => None
      end in
    (type = Some ACTION_TYPES.LOG ->
     executeAction executeFlow' self node flow s = next s)
    /\ (type = Some ACTION_TYPES.SEND_EMAIL ->
        executeAction executeFlow' self node flow s
        = if Js.truthy email then next s
          else next (record_error
                       ("Erro inesperado ao executar ação " ++ node_id node
                        ++ ": Nó de ação " ++ node_id node
                        ++ ": Email não configurado para SEND_EMAIL") s))
    /\ (Js.truthy type = false ->
        executeAction executeFlow' self node flow s
        = next (record_error
                  ("Nó de ação " ++ node_id node
                   ++ ": Dados da ação inválidos ou não configurados") s))
    /\ (Js.truthy type = true ->
        ~ In type [ Some ACTION_TYPES.LOG; Some ACTION_TYPES.HTTP_REQUEST;
                    Some ACTION_TYPES.SEND_EMAIL; Some ACTION_TYPES.CALL_FLOW ] ->
        executeAction executeFlow' self node flow s
        = next (record_error
                  ("Nó de ação " ++ node_id node ++ ": Tipo de ação desconhecido: "
                   ++ Js.show type) s)).
Proof.
  intros executeFlow' self node flow s next type email.
  split; [|split; [|split]].
  - intros Htype. unfold type in Htype.
    rewrite (@executeAction_typed executeFlow' self node flow s s (Returned tt));
      [reflexivity | now rewrite Htype |].
    unfold dispatch_action. rewrite Htype. reflexivity.
  - intros Htype. unfold type in Htype.
    destruct (Js.truthy email) eqn:Eemail.
    + rewrite (@executeAction_typed executeFlow' self node flow s s (Returned tt));
        [reflexivity | now rewrite Htype |].
      unfold dispatch_action. rewrite Htype. cbn. unfold executeEmailAction.
      fold email. rewrite Eemail. reflexivity.
    + rewrite (@executeAction_typed executeFlow' self node flow s s
                 (Thrown (ValidationError
                            ("Nó de ação " ++ node_id node
                             ++ ": Email não configurado para SEND_EMAIL") "email")));
        [reflexivity | now rewrite Htype |].
      unfold dispatch_action. rewrite Htype. cbn. unfold executeEmailAction.
      fold email. rewrite Eemail. reflexivity.
  - intros Htype. unfold type in Htype. unfold executeAction. rewrite Htype.
    reflexivity.
  - intros Htype Hnot. unfold type in *.
    rewrite (@executeAction_typed executeFlow' self node flow s
               (record_error
                  ("Nó de ação " ++ node_id node ++ ": Tipo de ação desconhecido: "
                   ++ Js.show (data_type (node_data node))) s)
               (Returned tt) Htype); [reflexivity|].
    unfold dispatch_action.
    repeat match goal with
           | |- context [Js.opt_eqb (data_type (node_data node)) (Some ?c)] =>
               destruct (Js.opt_eqb (data_type (node_data node)) (Some c)) eqn:?E;
               [ apply opt_eqb_eq in E; exfalso; apply Hnot; rewrite E; simpl; tauto
               | clear E ]
           end.
    reflexivity.
Qed.

End ActionFacts.

(** ** interpolateVariables *)

Section InterpolationFacts.
Context {runtime : Runtime}.

Lemma prefix_two (a b : ascii) (s : string) :
  String.prefix (String a (String b EmptyString)) s = true ->
  exists t, s = String a (String b t).
Proof.
  destruct s as [|c1 [|c2 t]]; simpl; try discriminate.
  - destruct (ascii_dec a c1); discriminate.
  - destruct (ascii_dec a c1); [|discriminate].
    destruct (ascii_dec b c2); [|discriminate]. subst. eauto.
Qed.

Lemma take_until_brace_app (s : string) :
  fst (VariablePattern.take_until_brace s) ++ snd (VariablePattern.take_until_brace s)
  = s.
Proof.
  induction s as [|c s IH]; simpl; [reflexivity|].
  destruct (Ascii.eqb c "}"); [reflexivity|].
  destruct (VariablePattern.take_until_brace s) as [run rest]. simpl in *.
  now rewrite IH.
Qed.

Lemma take_until_brace_path (path rest : string) :
  Js.includes path "}" = false ->
  VariablePattern.take_until_brace (path ++ String "}" rest)
  = (path, String "}" rest).
Proof.
  induction path as [|c path IH]; intros Hno; [reflexivity|].
  cbn [append VariablePattern.take_until_brace].
  unfold Js.includes in Hno. fold Js.includes in Hno. cbn [String.prefix] in Hno.
  destruct (Ascii.eqb_spec c "}") as [-> | Hc].
  - destruct (ascii_dec "}" "}") as [_ | Hneq]; [|contradiction].
    destruct path; discriminate.
  - destruct (ascii_dec "}" c) as [Heq | _]; [now subst|].
    now rewrite (IH Hno).
Qed.

(** A match of the pattern at the start of [s] is a prefix of [s]. *)
Lemma match_at_Some (s path : string) (len : nat) :
  VariablePattern.match_at s = Some (path, len) ->
  exists rest,
    s = "{{" ++ path ++ "}}" ++ rest /\ len = 2 + String.length path + 2
    /\ path <> EmptyString.
Proof.
  unfold VariablePattern.match_at.
  destruct (String.prefix "{{" s) eqn:Eopen; [|discriminate].
  apply prefix_two in Eopen. destruct Eopen as [t ->].
  cbn [Js.substring_from].
  pose proof (take_until_brace_app t) as Happ.
  destruct (VariablePattern.take_until_brace t) as [run rest]. cbn [fst snd] in Happ.
  destruct (negb (Js.is_empty run)) eqn:Erun; [|discriminate].
  destruct (String.prefix "}}" rest) eqn:Eclose; [|discriminate].
  cbn [andb]. intros H. injection H as <- <-.
  apply prefix_two in Eclose. destruct Eclose as [rest' ->].
  exists rest'. split; [now rewrite <- Happ|]. split; [reflexivity|].
  destruct run; [discriminate | discriminate].
Qed.

Lemma substring_from_app (a b : string) :
  Js.substring_from (String.length a) (a ++ b) = b.
Proof. induction a as [|c a IH]; simpl; [now destruct b | exact IH]. Qed.

Lemma substring_from_zero (s : string) : Js.substring_from 0 s = s.
Proof. now destruct s. Qed.

Lemma length_append (a b : string) :
  String.length (a ++ b) = String.length a + String.length b.
Proof. induction a as [|c a IH]; simpl; [reflexivity | now rewrite IH]. Qed.

Lemma append_assoc (a b c : string) : (a ++ b) ++ c = a ++ b ++ c.
Proof. induction a as [|x a IH]; simpl; [reflexivity | now rewrite IH]. Qed.

(** A replacer that gives back what was found, on the placeholders of the
    text, changes nothing. *)
Lemma replace_found (replacer : string -> string -> exn + string) :
  forall s skip,
    (forall path, In path (VariablePattern.paths skip s) ->
                  replacer ("{{" ++ path ++ "}}") path = inr ("{{" ++ path ++ "}}")) ->
    VariablePattern.replace replacer skip s = inr (Js.substring_from skip s).
Proof.
  induction s as [|c r IH]; intros skip Hid.
  - destruct skip; reflexivity.
  - destruct skip as [|k];
      cbn [VariablePattern.replace VariablePattern.paths Js.substring_from] in *.
    2:{ now apply IH. }
    destruct (VariablePattern.match_at (String c r)) as [[path len]|] eqn:Ematch.
    + destruct (match_at_Some _ Ematch) as (rest & Es & -> & _).
      rewrite (Hid path (or_introl eq_refl)). cbn [and_then].
      rewrite IH by (intros p Hp; apply Hid; now right). cbn [and_then].
      assert (Er : r = (String "{" path ++ "}}") ++ rest /\ c = "{"%char).
      { cbn [append] in Es. injection Es as -> ->.
        now rewrite append_assoc. }
      destruct Er as [-> ->].
      replace (2 + String.length path + 2 - 1)
        with (String.length (String "{" path ++ "}}")).
      2:{ rewrite length_append. simpl. lia. }
      rewrite substring_from_app.
      cbn [append]. now rewrite !append_assoc.
    + rewrite IH by assumption. cbn [and_then]. now rewrite substring_from_zero.
Qed.

(** Skipping the characters of a match. *)
Lemma replace_skip (replacer : string -> string -> exn + string) (a b : string) :
  VariablePattern.replace replacer (String.length a) (a ++ b)
  = VariablePattern.replace replacer 0 b.
Proof.
  induction a as [|c a IH]; [reflexivity|].
  cbn [String.length append VariablePattern.replace]. exact IH.
Qed.

(** No match starts in a text without opening brace. *)
Lemma replace_before (replacer : string -> string -> exn + string)
      (before rest : string) :
  Js.includes before "{" = false ->
  VariablePattern.replace replacer 0 (before ++ rest)
  = and_then (VariablePattern.replace replacer 0 rest)
             (fun tail => inr (before ++ tail)).
Proof.
  induction before as [|c before IH]; intros Hno.
  { cbn [append]. now destruct (VariablePattern.replace replacer 0 rest). }
  unfold Js.includes in Hno. fold Js.includes in Hno. cbn [String.prefix] in Hno.
  destruct (ascii_dec "{" c) as [Heq | Hc].
  { destruct before; discriminate. }
  cbn [append VariablePattern.replace].
  unfold VariablePattern.match_at. cbn [String.prefix].
  destruct (ascii_dec "{" c) as [Heq | _]; [contradiction|].
  rewrite (IH Hno).
  now destruct (VariablePattern.replace replacer 0 rest).
Qed.

Lemma match_at_placeholder (path rest : string) :
  path <> EmptyString -> Js.includes path "}" = false ->
  VariablePattern.match_at ("{{" ++ path ++ "}}" ++ rest)
  = Some (path, 2 + String.length path + 2).
Proof.
  intros Hne Hno. unfold VariablePattern.match_at.
  cbn [append String.prefix]. 
  destruct (ascii_dec "{" "{") as [_ | Hneq]; [|contradiction].
  replace (String.prefix EmptyString (path ++ String "}" (String "}" rest)))
    with true by (now destruct (path ++ String "}" (String "}" rest))).
  cbn [Js.substring_from].
  rewrite take_until_brace_path by assumption.
  destruct path as [|c path]; [contradiction|].
  cbn [Js.is_empty negb andb String.prefix].
  destruct (ascii_dec "}" "}") as [_ | Hneq]; [|contradiction].
  now destruct rest.
Qed.

(** X12. A placeholder that the payload does not resolve is left in the
    text.  So when none of the placeholders of a template resolves in
    [data] (the lookup of each of its paths gives [undefined] or [null]),
    [interpolateVariables] returns the template as it is. *)
Theorem interpolation_keeps_unresolved_placeholders :
  forall (template : string) (data : record),
    (forall path,
        In path (VariablePattern.paths 0 template) ->
        is_nullish (getNestedValue data (Js.trim path)) = true) ->
    interpolateVariables template data = inr template.
Proof.
  intros template data Hnull. unfold interpolateVariables.
  destruct (Js.is_empty template); [reflexivity|].
  rewrite replace_found; [now rewrite substring_from_zero|].
  intros path Hpath. unfold variable_value. now rewrite (Hnull path Hpath).
Qed.

(** X13. The first placeholder of a template.  In a template that is a
    text without opening brace, a placeholder [{{path}}] (its path is not
    empty and has no closing brace) and a rest, the text is kept, the
    placeholder becomes the value that the trimmed path has in the payload,
    converted to a string (or stays, when that value is [undefined] or
    [null]), and the rest is interpolated in the same way.  The value is not
    searched for placeholders again.  When the conversion of the value
    throws, the call throws that error, and so it does when the
    interpolation of the rest throws. *)
Theorem interpolation_replaces_the_first_placeholder :
  forall (before path rest : string) (data : record),
    Js.includes before "{" = false ->
    path <> EmptyString ->
    Js.includes path "}" = false ->
    let value := getNestedValue data (Js.trim path) in
    interpolateVariables (before ++ "{{" ++ path ++ "}}" ++ rest) data
    = and_then
        (if is_nullish value then inr ("{{" ++ path ++ "}}") else to_String value)
        (fun text =>
           and_then (interpolateVariables rest data)
                    (fun tail => inr (before ++ text ++ tail))).
Proof.
  intros before path rest data Hbefore Hne Hpath value.
  assert (Hrest : interpolateVariables rest data
                  = VariablePattern.replace (variable_value data) 0 rest).
  { unfold interpolateVariables. now destruct rest. }
  rewrite Hrest. unfold interpolateVariables.
  replace (Js.is_empty (before ++ "{{" ++ path ++ "}}" ++ rest)) with false
    by (now destruct before).
  rewrite replace_before by assumption.
  assert (Hstep : forall t,
             VariablePattern.replace (variable_value data) 0
               ("{{" ++ path ++ "}}" ++ t)
             = and_then (variable_value data ("{{" ++ path ++ "}}") path)
                 (fun text =>
                    and_then
                      (VariablePattern.replace (variable_value data)
                         (2 + String.length path + 2 - 1)
                         (String "{" path ++ "}}" ++ t))
                      (fun tail => inr (text ++ tail)))).
  { intros t.
    change ("{{" ++ path ++ "}}" ++ t)
      with (String "{" (String "{" path ++ "}}" ++ t)) at 1.
    cbn [VariablePattern.replace].
    change (String "{" (String "{" path ++ "}}" ++ t))
      with ("{{" ++ path ++ "}}" ++ t).
    now rewrite match_at_placeholder by assumption. }
  rewrite Hstep.
  replace (2 + String.length path + 2 - 1)
    with (String.length (String "{" path ++ "}}")).
  2:{ rewrite length_append. simpl. lia. }
  rewrite <- (append_assoc (String "{" path) "}}" rest), replace_skip.
  unfold variable_value. fold value.
  destruct (if is_nullish value then inr ("{{" ++ path ++ "}}") else to_String value)
    as [error | text]; cbn [and_then]; [reflexivity|].
  destruct (VariablePattern.replace _ 0 rest) as [error | tail]; reflexivity.
Qed.

End InterpolationFacts.

(** ** The case converter *)

Module CaseConverterFacts.
Import CaseConverter.

Lemma upper_then_lower (c : ascii) :
  is_upper c = true ->
  is_lower (toLowerCase c) = true /\ toUpperCase (toLowerCase c) = c
  /\ is_upper (toLowerCase c) = false.
Proof.
  destruct c as [[] [] [] [] [] [] [] []]; vm_compute; intros H;
    try discriminate H; repeat split.
Qed.

Lemma lower_then_upper (c : ascii) :
  is_lower c = true ->
  is_upper (toUpperCase c) = true /\ toLowerCase (toUpperCase c) = c
  /\ is_upper c = false.
Proof.
  destruct c as [[] [] [] [] [] [] [] []]; vm_compute; intros H;
    try discriminate H; repeat split.
Qed.

Lemma underscore_is_no_letter (c : ascii) :
  Ascii.eqb c "_" = true -> is_upper c = false /\ is_lower c = false.
Proof. intros H. apply Ascii.eqb_eq in H. subst. now split. Qed.

(** The first character of a snake-cased text is a small letter only if the
    first character of the text is. *)
Lemma toSnakeCase_first (str : string) :
  match toSnakeCase str with
  | String l _ => is_lower l
  | EmptyString => false
  end
  = match str with
    | String l _ => is_lower l
    | EmptyString => false
    end.
Proof.
  destruct str as [|c r]; [reflexivity|]. cbn [toSnakeCase].
  destruct (is_upper c) eqn:Eupper; [|reflexivity].
  destruct c as [[] [] [] [] [] [] [] []]; vm_compute in Eupper |- *;
    try discriminate Eupper; reflexivity.
Qed.

(** X14. Snake case and back.  [toCamelCase] undoes [toSnakeCase] on every
    text that has no underscore followed by a small letter. *)
Theorem toCamelCase_undoes_toSnakeCase :
  forall str : string,
    has_snake_pair str = false ->
    toCamelCase (toSnakeCase str) = str.
Proof.
  induction str as [|c r IH]; intros Hpair; [reflexivity|].
  assert (Hr : has_snake_pair r = false
               /\ (Ascii.eqb c "_" = true ->
                   match r with
                   | String l _ => is_lower l
                   | EmptyString => false
                   end = false)).
  { cbn [has_snake_pair] in Hpair. destruct r as [|l r'].
    - split; [reflexivity | reflexivity].
    - apply orb_false_iff in Hpair. destruct Hpair as [Hhere Hrest].
      split; [exact Hrest|]. intros Hc. now rewrite Hc in Hhere. }
  destruct Hr as [Hrest Hhere]. specialize (IH Hrest).
  cbn [toSnakeCase]. destruct (is_upper c) eqn:Eupper.
  - destruct (upper_then_lower c Eupper) as (Hlow & Hback & _).
    cbn [toCamelCase Ascii.eqb Bool.eqb]. rewrite Hlow, Hback, IH. reflexivity.
  - cbn [toCamelCase]. destruct (Ascii.eqb c "_") eqn:Ec; [|now rewrite IH].
    pose proof (toSnakeCase_first r) as Hfirst. rewrite (Hhere eq_refl) in Hfirst.
    destruct (toSnakeCase r) as [|l r'] eqn:Esnake.
    + destruct r as [|l0 r0]; [reflexivity|].
      cbn [toSnakeCase] in Esnake. destruct (is_upper l0); discriminate.
    + rewrite Hfirst. now rewrite IH.
Qed.

Lemma toSnakeCase_toCamelCase_upto (n : nat) :
  forall str : string,
    String.length str <= n -> has_upper str = false ->
    toSnakeCase (toCamelCase str) = str.
Proof.
  induction n as [|n IH]; intros str Hlen Hupper.
  - destruct str; [reflexivity | simpl in Hlen; lia].
  - destruct str as [|c r]; [reflexivity|].
    cbn [has_upper] in Hupper. apply orb_false_iff in Hupper.
    destruct Hupper as [Hc Hr]. cbn [String.length] in Hlen.
    assert (Hplain : toSnakeCase (String c (toCamelCase r)) = String c r).
    { cbn [toSnakeCase]. rewrite Hc. rewrite IH; [reflexivity | lia | exact Hr]. }
    cbn [toCamelCase]. destruct (Ascii.eqb c "_") eqn:Ec; [|exact Hplain].
    destruct r as [|l r']; [cbn [toSnakeCase]; now rewrite Hc|].
    destruct (is_lower l) eqn:El; [|exact Hplain].
    destruct (lower_then_upper l El) as (Hup & Hback & _).
    cbn [has_upper] in Hr. apply orb_false_iff in Hr. destruct Hr as [_ Hr'].
    cbn [toSnakeCase]. rewrite Hup, Hback.
    cbn [String.length] in Hlen. rewrite IH; [|lia | exact Hr'].
    apply Ascii.eqb_eq in Ec. now subst.
Qed.

(** X15. Camel case and back.  [toSnakeCase] undoes [toCamelCase] on every
    text that has no capital letter. *)
Theorem toSnakeCase_undoes_toCamelCase :
  forall str : string,
    has_upper str = false ->
    toSnakeCase (toCamelCase str) = str.
Proof.
  intros str. apply (@toSnakeCase_toCamelCase_upto (String.length str)), le_n.
Qed.

Lemma toCamelCase_first :
  forall str : string,
    match str with
    | String l _ => is_lower l
    | EmptyString => false
    end = false ->
    match toCamelCase str with
    | String l _ => is_lower l
    | EmptyString => false
    end = false.
Proof.
  intros str Hfirst. destruct str as [|c r]; [reflexivity|].
  cbn [toCamelCase]. destruct (Ascii.eqb c "_") eqn:Ec; [|exact Hfirst].
  destruct r as [|l r']; [exact Hfirst|].
  destruct (is_lower l) eqn:El; [|exact Hfirst].
  destruct (lower_then_upper l El) as (Hup & _ & _).
  destruct (toUpperCase l) as [[] [] [] [] [] [] [] []]; vm_compute in Hup |- *;
    try discriminate Hup; reflexivity.
Qed.

Lemma toCamelCase_no_pair_upto (n : nat) :
  forall str : string,
    String.length str <= n -> has_snake_pair (toCamelCase str) = false.
Proof.
  induction n as [|n IH]; intros str Hlen.
  - destruct str; [reflexivity | simpl in Hlen; lia].
  - destruct str as [|c r]; [reflexivity|]. cbn [String.length] in Hlen.
    assert (Hkeep : (Ascii.eqb c "_" = true ->
                     match r with
                     | String l _ => is_lower l
                     | EmptyString => false
                     end = false) ->
                    has_snake_pair (String c (toCamelCase r)) = false).
    { intros Hhere. cbn [has_snake_pair].
      pose proof (IH r ltac:(lia)) as Hrest.
      destruct (toCamelCase r) as [|l t] eqn:Ecamel; [reflexivity|].
      rewrite Hrest, orb_false_r.
      destruct (Ascii.eqb c "_") eqn:Ec; [|reflexivity]. cbn [andb].
      pose proof (toCamelCase_first r (Hhere eq_refl)) as Hfirst.
      now rewrite Ecamel in Hfirst. }
    cbn [toCamelCase]. destruct (Ascii.eqb c "_") eqn:Ec.
    2:{ apply Hkeep. discriminate. }
    destruct r as [|l r']; [reflexivity|].
    destruct (is_lower l) eqn:El.
    2:{ apply Hkeep. intros _. reflexivity. }
    cbn [String.length] in Hlen. cbn [has_snake_pair].
    pose proof (IH r' ltac:(lia)) as Hrest.
    destruct (toCamelCase r') as [|l2 t] eqn:Ecamel; [reflexivity|].
    rewrite Hrest, orb_false_r.
    destruct (lower_then_upper l El) as (Hup & _ & _).
    replace (Ascii.eqb (toUpperCase l) "_") with false; [reflexivity|].
    symmetry. apply Ascii.eqb_neq. intros Heq. rewrite Heq in Hup. discriminate.
Qed.

(** X16. The results of the two conversions.  A snake-cased text has no
    capital letter and a camel-cased text has no underscore followed by a
    small letter, so each conversion changes nothing when it is applied a
    second time. *)
Theorem case_conversions_are_idempotent :
  forall str : string,
    has_upper (toSnakeCase str) = false
    /\ has_snake_pair (toCamelCase str) = false
    /\ toSnakeCase (toSnakeCase str) = toSnakeCase str
    /\ toCamelCase (toCamelCase str) = toCamelCase str.
Proof.
  assert (Hsnake : forall str, has_upper (toSnakeCase str) = false).
  { induction str as [|c r IH]; [reflexivity|]. cbn [toSnakeCase].
    destruct (is_upper c) eqn:Eupper.
    - destruct (upper_then_lower c Eupper) as (_ & _ & Hlow).
      cbn [has_upper]. now rewrite Hlow, IH.
    - cbn [has_upper]. now rewrite Eupper, IH. }
  assert (Hfix_snake : forall str, has_upper str = false -> toSnakeCase str = str).
  { induction str as [|c r IH]; [reflexivity|]. cbn [has_upper toSnakeCase].
    intros H. apply orb_false_iff in H. destruct H as [-> Hr]. now rewrite IH. }
  assert (Hfix_camel : forall n str,
             String.length str <= n -> has_snake_pair str = false ->
             toCamelCase str = str).
  { induction n as [|n IH]; intros str Hlen Hpair.
    - destruct str; [reflexivity | simpl in Hlen; lia].
    - destruct str as [|c r]; [reflexivity|]. cbn [String.length] in Hlen.
      cbn [toCamelCase]. destruct r as [|l r'].
      + now destruct (Ascii.eqb c "_").
      + cbn [has_snake_pair] in Hpair. apply orb_false_iff in Hpair.
        destruct Hpair as [Hhere Hrest].
        destruct (Ascii.eqb c "_"); cbn [andb] in Hhere.
        * rewrite Hhere. rewrite IH; [reflexivity | lia | exact Hrest].
        * rewrite IH; [reflexivity | lia | exact Hrest]. }
  intros str. split; [apply Hsnake|].
  split; [apply (@toCamelCase_no_pair_upto (String.length str)), le_n|].
  split; [apply Hfix_snake, Hsnake|].
  apply (Hfix_camel (String.length (toCamelCase str))); [apply le_n|].
  apply (@toCamelCase_no_pair_upto (String.length str)), le_n.
Qed.

End CaseConverterFacts.

(** ** The webhook service *)

Section ServiceFacts.
Context {runtime : Runtime} {collaborators : Collaborators}
        {service : ServiceCollaborators}.

Lemma executeFlow_returns (flow : Flow) (webhookEvent : WebhookEvent) (w : World) :
  exists result w', executeFlow flow webhookEvent None w = (Returned result, w').
Proof.
  destruct (@executeFlow_gas_returns _ _ (S MAX_FLOW_DEPTH) flow webhookEvent None w)
    as (final & w' & E & _).
  - unfold enough_gas, MAX_FLOW_DEPTH. simpl. lia.
  - exists (formatResult final), w'. exact E.
Qed.

Lemma executeFlowForWebhook_returns (flow : Flow) (webhookEvent : WebhookEvent)
      (w : World) :
  exists w', executeFlowForWebhook flow webhookEvent w = (Returned tt, w').
Proof.
  unfold executeFlowForWebhook. unfold io_try at 1. unfold io_bind at 1.
  unfold io_call.
  destruct (createLog (flow_id flow) (wh_id webhookEvent) w) as [[error | logId] w1].
  { exists w1. reflexivity. }
  unfold io_try at 1. unfold io_bind.
  destruct (executeFlow_returns flow webhookEvent w1) as (result & w2 & ->).
  unfold io_do at 1.
  destruct (updateLog logId result w2) as [[updateError|] w3].
  2:{ exists w3. reflexivity. }
  destruct (Js.truthy (Some logId)).
  2:{ exists w3. reflexivity. }
  unfold io_try, io_do.
  destruct (failLog logId (error_text updateError) w3) as [[failError|] w4];
    exists w4; reflexivity.
Qed.

(** X17. [executeFlowForWebhook] never throws: whatever the repositories do
    (the execution log cannot be created, cannot be updated) and whatever
    the flow is, it returns.  When the log record cannot be created, the
    engine is not called at all. *)
Theorem executeFlowForWebhook_never_throws :
  forall (flow : Flow) (webhookEvent : WebhookEvent) (w : World),
    (exists w', executeFlowForWebhook flow webhookEvent w = (Returned tt, w'))
    /\ (forall error w1,
           createLog (flow_id flow) (wh_id webhookEvent) w = (inl error, w1) ->
           executeFlowForWebhook flow webhookEvent w = (Returned tt, w1)).
Proof.
  intros flow webhookEvent w. split; [apply executeFlowForWebhook_returns|].
  intros error w1 Hlog. unfold executeFlowForWebhook, io_try, io_bind, io_call.
  now rewrite Hlog.
Qed.

Lemma flows_loop_returns (webhookEvent : WebhookEvent) (flows : list Flow) :
  forall w,
  exists w',
    io_for_each flows (fun flow => executeFlowForWebhook flow webhookEvent) w
    = (Returned tt, w').
Proof.
  induction flows as [|flow flows IH]; intros w.
  - exists w. reflexivity.
  - destruct (executeFlowForWebhook_returns flow webhookEvent w) as (w1 & E1).
    destruct (IH w1) as (w2 & E2). exists w2.
    cbn [io_for_each]. unfold io_bind. now rewrite E1.
Qed.

(** X18. [processWebhookFlows] fails only on its own two calls to the
    repositories.  When the active flows cannot be read, that error is
    thrown and nothing else is done.  Otherwise every flow that listens to
    the event is run, one after the other, none of them stops the loop, and
    the event is then marked as processed: the call returns, or throws what
    [markAsProcessed] throws. *)
Theorem processWebhookFlows_marks_the_event :
  forall (webhookEvent : WebhookEvent) (w : World),
    (forall error w1,
        findActive w = (inl error, w1) ->
        processWebhookFlows webhookEvent w = (Thrown error, w1))
    /\ (forall flows w1,
           findActive w = (inr flows, w1) ->
           exists w2,
             io_for_each (filter (listens_to webhookEvent) flows)
               (fun flow => executeFlowForWebhook flow webhookEvent) w1
             = (Returned tt, w2)
             /\ processWebhookFlows webhookEvent w
                = match markAsProcessed (wh_id webhookEvent) w2 with
                  | (Some error, w3) => (Thrown error, w3)
                  | (None, w3) => (Returned tt, w3)
                  end).
Proof.
  intros webhookEvent w. split.
  - intros error w1 Hfind. unfold processWebhookFlows, io_try, io_bind, io_call.
    now rewrite Hfind.
  - intros flows w1 Hfind.
    destruct (flows_loop_returns webhookEvent
                (filter (listens_to webhookEvent) flows) w1) as (w2 & Eloop).
    exists w2. split; [exact Eloop|].
    unfold processWebhookFlows. unfold io_try, io_call.
    unfold io_bind at 1. rewrite Hfind. cbv zeta.
    unfold io_bind. rewrite Eloop. unfold io_do, io_throw.
    destruct (markAsProcessed (wh_id webhookEvent) w2) as [[error|] w3];
      reflexivity.
Qed.

(** X19. The filter of the service and the event check of the engine
    agree.  A flow that the filter leaves out would be stopped by the engine
    before its first node, without any call to the outside.  A flow that the
    filter lets through, when its graph is valid, is run from its Trigger
    node. *)
Theorem service_filter_agrees_with_the_engine :
  forall (webhookEvent : WebhookEvent) (flow : Flow) (w : World),
    (listens_to webhookEvent flow = false ->
     exists msg msgs,
       executeFlow flow webhookEvent None w
       = (Returned (stopped (msg :: msgs)), w))
    /\ (listens_to webhookEvent flow = true ->
        validateFlow flow = [] ->
        exists triggerNode result w' rest,
          find (has_type NODE_TYPES.TRIGGER) (flow_nodes flow) = Some triggerNode
          /\ executeFlow flow webhookEvent None w = (Returned result, w')
          /\ executedNodes result = node_id triggerNode :: rest).
Proof.
  intros webhookEvent flow w. split.
  - intros Hfilter.
    destruct (executeFlow_cases flow webhookEvent None w)
      as [Hstopped | (triggerNode & Hstarts)]; [exact Hstopped|].
    destruct Hstarts as (_ & _ & _ & Htrigger & Hevent).
    unfold listens_to in Hfilter. rewrite Htrigger, (Hevent eq_refl) in Hfilter.
    cbn [Js.opt_eqb] in Hfilter. now rewrite String.eqb_refl in Hfilter.
  - intros Hfilter Hvalid. unfold listens_to in Hfilter.
    destruct (find (has_type NODE_TYPES.TRIGGER) (flow_nodes flow))
      as [triggerNode|] eqn:Htrigger; [|discriminate].
    apply opt_eqb_eq in Hfilter.
    assert (Hstarts : starts flow webhookEvent None triggerNode).
    { unfold starts. cbn [new_context ctx_depth ctx_flowCallStack].
      split; [unfold MAX_FLOW_DEPTH; lia|].
      split; [now rewrite occurrences_self|].
      split; [exact Hvalid|]. split; [exact Htrigger|]. intros _. exact Hfilter. }
    destruct (trigger_is_executed_first w Hstarts) as (result & w' & rest & E & Hexec).
    exists triggerNode, result, w', rest. now split.
Qed.

End ServiceFacts.

(** ** The properties above on the samples *)

Lemma reachable_nodes_on_sample :
  starts Sample.lead_flow (Sample.lead_event "whatsapp") None
         (Sample.trigger "trigger" "lead.converted")
  /\ (exists result w',
        executeFlow Sample.lead_flow (Sample.lead_event "whatsapp") None Sample.no_log
        = (Returned result, w')
        /\ (forall x,
               In x (executedNodes result)
               <-> reach Sample.lead_flow (wh_data (Sample.lead_event "whatsapp"))
                         "trigger" x))
  /\ starts Sample.lead_flow Sample.opaque_event None
            (Sample.trigger "trigger" "lead.converted")
  /\ ~ reach Sample.lead_flow (wh_data Sample.opaque_event) "trigger" "action".
Proof.
  assert (H : forall webhookEvent,
             wh_event webhookEvent = "lead.converted" ->
             starts Sample.lead_flow webhookEvent None
                    (Sample.trigger "trigger" "lead.converted")).
  { intros webhookEvent Hevent. unfold starts.
    split; [cbn; unfold MAX_FLOW_DEPTH; lia|].
    split; [vm_compute; lia|]. split; [reflexivity|].
    split; [reflexivity|]. intros _. now rewrite Hevent. }
  split; [exact (H (Sample.lead_event "whatsapp") eq_refl)|].
  split; [|split; [exact (H Sample.opaque_event eq_refl)|]].
  - exact (@executed_nodes_are_the_reachable_nodes _ _ Sample.lead_flow
             (Sample.lead_event "whatsapp") None Sample.no_log
             (Sample.trigger "trigger" "lead.converted")
             (H (Sample.lead_event "whatsapp") eq_refl)).
  - destruct (@executed_nodes_are_the_reachable_nodes _ _ Sample.lead_flow
                Sample.opaque_event None Sample.no_log
                (Sample.trigger "trigger" "lead.converted")
                (H Sample.opaque_event eq_refl))
      as (result & w' & E & Hreach).
    assert (E' : executeFlow Sample.lead_flow Sample.opaque_event None Sample.no_log
                 = (Returned
                      {| success := false;
                         executedNodes := ["trigger"; "condition"];
                         errors :=
                           [ "Erro ao executar nó condition: Cannot convert object to primitive value" ] |},
                    Sample.no_log))
      by (vm_compute; reflexivity).
    rewrite E' in E. injection E as <- _. intros Haction.
    apply Hreach in Haction. cbn [executedNodes In] in Haction.
    destruct Haction as [Heq | [Heq | []]]; discriminate Heq.
Defined.

Lemma validateFlow_accepts_the_lead_flow :
  validateFlow Sample.lead_flow = []
  /\ List.length (filter (has_type NODE_TYPES.TRIGGER) (flow_nodes Sample.lead_flow))
     = 1.
Proof.
  assert (H : validateFlow Sample.lead_flow = []) by reflexivity.
  split; [exact H|].
  exact (proj1 (proj1 (validateFlow_accepts_exactly Sample.lead_flow) H)).
Defined.

Lemma operators_on_sample :
  field_blank (Some "data.lead.source") = false
  /\ is_nullish (getNestedValue (wh_data (Sample.lead_event "whatsapp"))
                                (fieldPath_of "data.lead.source")) = false
  /\ evaluateCondition
       {| cond_field := Some "data.lead.source";
          cond_operator := Some CONDITION_OPERATORS.NOT_EQUALS;
          cond_value := Some (LStr "whatsapp") |}
       (wh_data (Sample.lead_event "whatsapp"))
     = and_then
         (evaluateCondition
            {| cond_field := Some "data.lead.source";
               cond_operator := Some CONDITION_OPERATORS.EQUALS;
               cond_value := Some (LStr "whatsapp") |}
            (wh_data (Sample.lead_event "whatsapp")))
         (fun b => inr (negb b))
  /\ field_blank (Some "data.lead.source") = false
  /\ is_nullish (getNestedValue (wh_data Sample.opaque_event)
                                (fieldPath_of "data.lead.source")) = false
  /\ (evaluateCondition
        {| cond_field := Some "data.lead.source";
           cond_operator := Some CONDITION_OPERATORS.GREATER_THAN;
           cond_value := Some (LStr "whatsapp") |}
        (wh_data Sample.opaque_event) = inl not_primitive
      <-> to_String (getNestedValue (wh_data Sample.opaque_event)
                                    (fieldPath_of "data.lead.source"))
          = inl not_primitive).
Proof.
  split; [reflexivity|]. split; [reflexivity|]. split.
  - exact (proj1 (@operators_on_a_resolved_field _ "data.lead.source"
                    (Some (LStr "whatsapp")) (wh_data (Sample.lead_event "whatsapp"))
                    eq_refl eq_refl)).
  - split; [reflexivity|]. split; [reflexivity|].
    apply (proj2 (proj2 (proj2 (proj2
             (@operators_on_a_resolved_field _ "data.lead.source"
                (Some (LStr "whatsapp")) (wh_data Sample.opaque_event)
                eq_refl eq_refl))))).
    simpl. tauto.
Defined.

Lemma nested_path_on_sample :
  "lead" <> EmptyString
  /\ getNestedValue (wh_data (Sample.lead_event "whatsapp")) "lead.source"
     = walk (getNestedValue (wh_data (Sample.lead_event "whatsapp")) "lead")
            (Js.split "." "source")
  /\ getNestedValue (wh_data (Sample.lead_event "whatsapp")) "missing.source"
     = VUndefined
  /\ getNestedValue (wh_data (Sample.lead_event "whatsapp")) "lead.toString.name"
     = VUndefined.
Proof.
  assert (H : "lead" <> EmptyString) by discriminate.
  assert (H' : "missing" <> EmptyString) by discriminate.
  assert (H'' : "lead.toString" <> EmptyString) by discriminate.
  split; [exact H|]. split; [|split].
  - exact (proj1 (@nested_path_resolves_step_by_step _
                    (wh_data (Sample.lead_event "whatsapp")) "lead" "source" H)).
  - exact (proj1 (proj2 (proj2 (@nested_path_resolves_step_by_step _
                                  (wh_data (Sample.lead_event "whatsapp"))
                                  "missing" "source" H'))) eq_refl).
  - exact (proj2 (proj2 (proj2 (@nested_path_resolves_step_by_step _
                                  (wh_data (Sample.lead_event "whatsapp"))
                                  "lead.toString" "name" H''))) I).
Defined.

Lemma http_outcomes_on_sample :
  data_type (node_data Sample.notify_node) = Some ACTION_TYPES.HTTP_REQUEST
  /\ data_config (node_data Sample.notify_node) = Some Sample.notify_config
  /\ Js.truthy (cfg_url Sample.notify_config) = true
  /\ request_body Sample.notify_config (wh_data (Sample.lead_event "whatsapp"))
     = inr (Some ("{" ++ Js.dq ++ "text" ++ Js.dq ++ ":" ++ Js.dq
                  ++ "Lead from whatsapp" ++ Js.dq ++ "}"))
  /\ executeAction (executeFlow_gas MAX_FLOW_DEPTH)
       (Sample.dispatcher Sample.lead_flow) Sample.notify_node Sample.lead_flow
       (Sample.running "lead" "whatsapp" ["trigger"; "condition"; "action"])
     = for_each ["end"] (Sample.dispatcher Sample.lead_flow)
         (Sample.running "lead" "whatsapp" ["trigger"; "condition"; "action"])
  /\ request_body Sample.notify_config (wh_data Sample.opaque_event)
     = inl not_primitive
  /\ executeAction (executeFlow_gas MAX_FLOW_DEPTH)
       (Sample.dispatcher Sample.lead_flow) Sample.notify_node Sample.lead_flow
       Sample.opaque_run
     = for_each ["end"] (Sample.dispatcher Sample.lead_flow)
         (record_error
            "Erro inesperado ao executar ação action: Cannot convert object to primitive value"
            Sample.opaque_run).
Proof.
  split; [reflexivity|]. split; [reflexivity|]. split; [reflexivity|].
  split; [reflexivity|]. split; [|split; [reflexivity|]].
  - exact (proj2 (proj2
             (@http_request_outcomes _ _ (executeFlow_gas MAX_FLOW_DEPTH)
                (Sample.dispatcher Sample.lead_flow) Sample.notify_node
                Sample.lead_flow
                (Sample.running "lead" "whatsapp" ["trigger"; "condition"; "action"])
                Sample.notify_config eq_refl eq_refl))
             eq_refl
             (Some ("{" ++ Js.dq ++ "text" ++ Js.dq ++ ":" ++ Js.dq
                    ++ "Lead from whatsapp" ++ Js.dq ++ "}"))
             Sample.ok_answer Sample.no_log eq_refl eq_refl).
  - exact (proj1 (proj2
             (@http_request_outcomes _ _ (executeFlow_gas MAX_FLOW_DEPTH)
                (Sample.dispatcher Sample.lead_flow) Sample.notify_node
                Sample.lead_flow Sample.opaque_run
                Sample.notify_config eq_refl eq_refl))
             eq_refl not_primitive eq_refl).
Defined.

Lemma sub_flow_on_sample :
  data_type (node_data (Sample.call_node (Some "B"))) = Some ACTION_TYPES.CALL_FLOW
  /\ config_flowId (node_data (Sample.call_node (Some "B"))) = Some "B"
  /\ "B" <> EmptyString
  /\ findById "B" (world (Sample.running "A" "whatsapp" ["trigger"; "call"]))
     = (inr (Some Sample.flow_B), Sample.no_log)
  /\ exists w',
       executeAction (executeFlow_gas MAX_FLOW_DEPTH)
         (Sample.dispatcher Sample.flow_A) (Sample.call_node (Some "B"))
         Sample.flow_A (Sample.running "A" "whatsapp" ["trigger"; "call"])
       = for_each ["end"] (Sample.dispatcher Sample.flow_A)
           {| world := w';
              context := context (Sample.running "A" "whatsapp" ["trigger"; "call"]) |}
       /\ (flow_active Sample.flow_B = false -> w' = Sample.no_log).
Proof.
  assert (H : "B" <> EmptyString) by discriminate.
  split; [reflexivity|]. split; [reflexivity|]. split; [exact H|].
  split; [reflexivity|].
  exact (@sub_flow_errors_stay_in_the_sub_flow _ _
           (Sample.dispatcher Sample.flow_A) (Sample.call_node (Some "B"))
           Sample.flow_A (Sample.running "A" "whatsapp" ["trigger"; "call"])
           "B" Sample.flow_B Sample.no_log eq_refl eq_refl H eq_refl).
Defined.

Lemma repository_failure_on_sample :
  data_type (node_data (Sample.call_node (Some "B"))) = Some ACTION_TYPES.CALL_FLOW
  /\ config_flowId (node_data (Sample.call_node (Some "B"))) = Some "B"
  /\ "B" <> EmptyString
  /\ @findById _ Sample.broken_repository "B" (world Sample.broken_run)
     = (inl Sample.offline, Sample.broken_world)
  /\ @executeCallFlowAction _ Sample.broken_repository
       (executeFlow_gas MAX_FLOW_DEPTH) (node_data (Sample.call_node (Some "B")))
       "call" Sample.broken_run
     = (Thrown (Error "Error" "Erro ao chamar flow B: connection refused"),
        Sample.broken_run).
Proof.
  assert (H : "B" <> EmptyString) by discriminate.
  split; [reflexivity|]. split; [reflexivity|]. split; [exact H|].
  split; [reflexivity|].
  exact (proj1 (@repository_failure_names_the_called_flow _ Sample.broken_repository
                  (executeFlow_gas MAX_FLOW_DEPTH)
                  (executeNode (executeFlow_gas MAX_FLOW_DEPTH) 4 Sample.flow_A)
                  (Sample.call_node (Some "B")) Sample.flow_A Sample.broken_run
                  "B" Sample.offline Sample.broken_world eq_refl eq_refl H eq_refl)).
Defined.

Lemma log_action_on_sample :
  data_type (node_data Sample.log_node) = Some ACTION_TYPES.LOG
  /\ executeAction (executeFlow_gas MAX_FLOW_DEPTH)
       (Sample.dispatcher Sample.cyclic_flow) Sample.log_node Sample.cyclic_flow
       (Sample.running "cyclic" "whatsapp" ["trigger"; "first"])
     = for_each ["second"] (Sample.dispatcher Sample.cyclic_flow)
         (Sample.running "cyclic" "whatsapp" ["trigger"; "first"]).
Proof.
  split; [reflexivity|].
  exact (proj1 (@local_actions_leave_the_world_alone _ _
                  (executeFlow_gas MAX_FLOW_DEPTH)
                  (Sample.dispatcher Sample.cyclic_flow) Sample.log_node
                  Sample.cyclic_flow
                  (Sample.running "cyclic" "whatsapp" ["trigger"; "first"]))
               eq_refl).
Defined.

Lemma unresolved_placeholder_on_sample :
  (forall path,
      In path (VariablePattern.paths 0 "Hello {{user.name}}, {{ lead.score }}") ->
      is_nullish (getNestedValue (wh_data (Sample.lead_event "whatsapp"))
                                 (Js.trim path)) = true)
  /\ interpolateVariables "Hello {{user.name}}, {{ lead.score }}"
       (wh_data (Sample.lead_event "whatsapp"))
     = inr "Hello {{user.name}}, {{ lead.score }}".
Proof.
  assert (H : forall path,
             In path (VariablePattern.paths 0 "Hello {{user.name}}, {{ lead.score }}") ->
             is_nullish (getNestedValue (wh_data (Sample.lead_event "whatsapp"))
                                        (Js.trim path)) = true).
  { intros path Hin. vm_compute in Hin.
    destruct Hin as [<- | [<- | []]]; vm_compute; reflexivity. }
  split; [exact H|].
  exact (@interpolation_keeps_unresolved_placeholders _
           "Hello {{user.name}}, {{ lead.score }}"
           (wh_data (Sample.lead_event "whatsapp")) H).
Defined.

Lemma first_placeholder_on_sample :
  Js.includes "Source: " "{" = false
  /\ " lead.source " <> EmptyString
  /\ Js.includes " lead.source " "}" = false
  /\ interpolateVariables "Source: {{ lead.source }} ({{lead.score}})"
       (wh_data (Sample.lead_event "whatsapp"))
     = inr "Source: whatsapp ({{lead.score}})".
Proof.
  assert (H : " lead.source " <> EmptyString) by discriminate.
  split; [reflexivity|]. split; [exact H|]. split; [reflexivity|].
  exact (@interpolation_replaces_the_first_placeholder _
           "Source: " " lead.source " " ({{lead.score}})"
           (wh_data (Sample.lead_event "whatsapp")) eq_refl H eq_refl).
Defined.

(** A placeholder whose path the payload does not have but every object
    inherits is replaced by the text of the function. *)
Example inherited_placeholder_on_sample :
  interpolateVariables "{{lead.constructor}}" (wh_data (Sample.lead_event "whatsapp"))
  = inr "function Object() { [native code] }".
Proof. vm_compute. reflexivity. Qed.

Lemma camel_key_on_sample :
  CaseConverter.has_snake_pair "webhookEventId" = false
  /\ CaseConverter.toCamelCase (CaseConverter.toSnakeCase "webhookEventId")
     = "webhookEventId".
Proof.
  split; [reflexivity|].
  exact (CaseConverterFacts.toCamelCase_undoes_toSnakeCase "webhookEventId" eq_refl).
Defined.

Lemma snake_key_on_sample :
  CaseConverter.has_upper "webhook_event_id" = false
  /\ CaseConverter.toSnakeCase (CaseConverter.toCamelCase "webhook_event_id")
     = "webhook_event_id".
Proof.
  split; [reflexivity|].
  exact (CaseConverterFacts.toSnakeCase_undoes_toCamelCase "webhook_event_id" eq_refl).
Defined.

Lemma log_failure_on_sample :
  @createLog _ Sample.broken_repository "lead" "evt-1" Sample.broken_world
  = (inl Sample.offline, Sample.broken_world)
  /\ @executeFlowForWebhook _ Sample.broken_repository
       (Sample.service_of Sample.broken_repository (inr []))
       Sample.lead_flow (Sample.lead_event "whatsapp") Sample.broken_world
     = (Returned tt, Sample.broken_world).
Proof.
  split; [reflexivity|].
  exact (proj2 (@executeFlowForWebhook_never_throws _ Sample.broken_repository
                  (Sample.service_of Sample.broken_repository (inr []))
                  Sample.lead_flow (Sample.lead_event "whatsapp")
                  Sample.broken_world)
               Sample.offline Sample.broken_world eq_refl).
Defined.

Lemma findActive_failure_on_sample :
  @findActive _ _ (Sample.service_of Sample.collaborators (inl Sample.offline))
    Sample.no_log
  = (inl Sample.offline, Sample.no_log)
  /\ @processWebhookFlows _ _
       (Sample.service_of Sample.collaborators (inl Sample.offline))
       (Sample.lead_event "whatsapp") Sample.no_log
     = (Thrown Sample.offline, Sample.no_log).
Proof.
  split; [reflexivity|].
  exact (proj1 (@processWebhookFlows_marks_the_event _ _
                  (Sample.service_of Sample.collaborators (inl Sample.offline))
                  (Sample.lead_event "whatsapp") Sample.no_log)
               Sample.offline Sample.no_log eq_refl).
Defined.

Lemma service_filter_on_sample :
  @listens_to _ Sample.signup_event Sample.lead_flow = false
  /\ exists msg msgs,
       executeFlow Sample.lead_flow Sample.signup_event None Sample.no_log
       = (Returned (stopped (msg :: msgs)), Sample.no_log).
Proof.
  split; [reflexivity|].
  exact (proj1 (@service_filter_agrees_with_the_engine _ _
                  Sample.signup_event Sample.lead_flow Sample.no_log) eq_refl).
Defined.

(** The service on an event that two of three active flows listen to: the
    two flows are run in the order of the repository and each run leaves
    its execution log; the third flow is not run. *)
Example service_runs_the_listening_flows :
  @processWebhookFlows _ _
    (Sample.service_of Sample.collaborators
       (inr [ Sample.lead_flow;
              {| flow_id := "signup"; flow_name := "Signup"; flow_active := true;
                 flow_nodes := [ Sample.trigger "trigger" "user.signup" ];
                 flow_edges := [] |};
              Sample.cyclic_flow ]))
    (Sample.lead_event "website") Sample.no_log
  = (Returned tt,
     Sample.log_of
       [ ("log-lead",
          {| success := true; executedNodes := ["trigger"; "condition"];
             errors := [] |});
         ("log-cyclic",
          {| success := true; executedNodes := ["trigger"; "first"; "second"];
             errors := [] |}) ]).
Proof. vm_compute. reflexivity. Qed.
